(** * Context-triggered sound decision engine

    A shallow embedding of the sound engine of this repository:

    - [index.js]: the catalog [soundLibrary], the [ContextAnalyzer]
      (sentence and word-window extraction, trigger match, oracle reply
      parsing) and the [AudioManager] (per-message fan-out).  Its analyzer
      class calls a method [getCategoryForSound] that it does not define,
      so [analyzeContext] and [playSound] are left by a TypeError at that
      call;
    - the earlier variant of the same extension, without the oracle, which
      defines that method and whose [playSound] awaits the analysis
      (second document of [src/unnamed/part_000]): exclusion check,
      heuristic scoring, cooldown, scoring threshold, variation choice,
      playback;
    - the "Smart Sound Triggers" variant (first document of
      [src/unnamed/part_000]): the sound library, the heuristic engine,
      [chooseVariant], [playSound] and the message handler;
    - what the two context-sound files share: the loader of the audio
      buffers and [getSettings].

    Text is modelled as a list of 8-bit characters; case mapping acts on
    the letters A to Z, which is all the ASCII patterns and word lists of
    the source can tell apart.  Scores are IEEE-754 binary64 numbers, as
    JavaScript numbers are; wall-clock times in milliseconds are
    integers. *)

From Stdlib Require Import ZArith List Ascii String PrimFloat Bool Lia.
From Stdlib Require Floats Uint63.
From stdpp Require Import base option list gmap strings.

Set Warnings "-inexact-float".
Local Open Scope nat_scope.

(* ===================================================================== *)
(** ** JavaScript strings                                                 *)
(* ===================================================================== *)

Module JS.

Definition text := list ascii.

Definition str (s : string) : text := list_ascii_of_string s.

Definition code (c : ascii) : nat := nat_of_ascii c.

Definition in_range (lo hi : nat) (c : ascii) : bool :=
  (lo <=? code c) && (code c <=? hi).

Definition isUpper : ascii -> bool := in_range 65 90.
Definition isLowerAZ : ascii -> bool := in_range 97 122.
Definition isDigit : ascii -> bool := in_range 48 57.

(** [\w]: letters, digits and the underscore. *)
Definition isWordChar (c : ascii) : bool :=
  isUpper c || isLowerAZ c || isDigit c || (code c =? 95).

(** [\s] and the characters removed by [trim]: TAB, LF, VT, FF, CR, space
    and the no-break space. *)
Definition isSpace (c : ascii) : bool :=
  in_range 9 13 c || (code c =? 32) || (code c =? 160).

(** Line terminators, which [.] does not match. *)
Definition isLineTerminator (c : ascii) : bool :=
  (code c =? 10) || (code c =? 13).

Definition lowerChar (c : ascii) : ascii :=
  if isUpper c then ascii_of_nat (code c + 32) else c.

Definition toLowerCase (s : text) : text := map lowerChar s.

Definition ascii_eqb (a b : ascii) : bool := code a =? code b.

Fixpoint startsWith (p s : text) : bool :=
  match p, s with
  | [], _ => true
  | _ :: _, [] => false
  | a :: p', b :: s' => ascii_eqb a b && startsWith p' s'
  end.

(** [s.includes(p)] *)
Fixpoint includes (s p : text) : bool :=
  startsWith p s ||
  match s with
  | [] => false
  | _ :: s' => includes s' p
  end.

Fixpoint trimStart (s : text) : text :=
  match s with
  | [] => []
  | c :: s' => if isSpace c then trimStart s' else s
  end.

Definition trimEnd (s : text) : text := rev (trimStart (rev s)).

Definition trim (s : text) : text := trimEnd (trimStart s).

(** [s.slice(a, b)] and [arr.slice(a, b)] for [0 <= a] and [0 <= b]. *)
Definition slice {A} (a b : nat) (l : list A) : list A :=
  firstn (b - a) (skipn a l).

(** [arr.join(sep)] *)
Fixpoint join (sep : text) (l : list text) : text :=
  match l with
  | [] => []
  | [w] => w
  | w :: tl => w ++ sep ++ join sep tl
  end.

(** [s.split(re)] when [re] is a one-or-more repetition of a character
    class ([/[.!?]+/], [/\s+/]): the pieces between the maximal runs of
    separator characters.  A separator run at the very start or end of the
    string leaves an empty first or last piece, and the result is never
    empty.  [insep] records that the previous character was a separator. *)
Fixpoint splitRuns (sep : ascii -> bool) (insep : bool) (s : text) : list text :=
  match s with
  | [] => [[]]
  | c :: s' =>
      if sep c then
        (if insep then splitRuns sep true s' else [] :: splitRuns sep true s')
      else
        match splitRuns sep false s' with
        | piece :: pieces => (c :: piece) :: pieces
        | [] => [[c]]
        end
  end.

Definition split (sep : ascii -> bool) (s : text) : list text :=
  splitRuns sep false s.

(** The property names every plain object inherits.  Reading [obj[name]]
    under such a name, on an object without an entry of its own for it,
    gives the inherited value: a function or the prototype object, truthy
    and without any property of the catalog entries. *)
Definition inheritedNames : list string :=
  ["constructor"; "__defineGetter__"; "__defineSetter__"; "hasOwnProperty";
   "__lookupGetter__"; "__lookupSetter__"; "isPrototypeOf"; "propertyIsEnumerable";
   "toString"; "valueOf"; "__proto__"; "toLocaleString"]%string.

Definition inherited (name : string) : bool :=
  existsb (String.eqb name) inheritedNames.

End JS.

(* ===================================================================== *)
(** ** Regular expressions                                                *)
(* ===================================================================== *)

(** The fragment of ECMAScript regular expressions that the catalog and the
    heuristics use, with the backtracking semantics of the language
    specification: alternatives are tried left to right, quantifiers are
    greedy, and the first start position that admits a match wins. *)

Module RegExp.
Import JS.

Inductive charset : Type :=
  | Word                        (* \w *)
  | Space                       (* \s *)
  | Digit                       (* \d *)
  | Dot                         (* .  *)
  | NoneOf (cs : list ascii)    (* [^...] *)
  | OneOf (cs : list ascii).    (* [...]  *)

Inductive regex : Type :=
  | Empty
  | Char (c : ascii)
  | Set_ (cs : charset)
  | WordBoundary                                        (* \b *)
  | Seq (r1 r2 : regex)
  | Alt (r1 r2 : regex)
  | Repeat (min : nat) (max : option nat) (r : regex).  (* r{min,max} *)

Definition memChar (c : ascii) (cs : list ascii) : bool :=
  existsb (ascii_eqb c) cs.

Definition inSet (cs : charset) (c : ascii) : bool :=
  match cs with
  | Word => isWordChar c
  | Space => isSpace c
  | Digit => isDigit c
  | Dot => negb (isLineTerminator c)
  | NoneOf l => negb (memChar c l)
  | OneOf l => memChar c l
  end.

(** A literal character under the [i] flag matches either case. *)
Definition charMatches (ignoreCase : bool) (pat c : ascii) : bool :=
  if ignoreCase then ascii_eqb (lowerChar pat) (lowerChar c) else ascii_eqb pat c.

Definition isWordOpt (o : option ascii) : bool :=
  match o with Some c => isWordChar c | None => false end.

(** [\b] holds where exactly one of the two neighbours is a word
    character. *)
Definition atWordBoundary (prev : option ascii) (rest : text) : bool :=
  xorb (isWordOpt prev) (isWordOpt (head rest)).

Definition belowMax (n : nat) (max : option nat) : bool :=
  match max with Some m => n <? m | None => true end.

(** What a matcher hands to its continuation and takes from its caller:
    the character before the cursor, the input from the cursor on, and
    the cursor index. *)
Definition Cont : Type := option ascii -> text -> nat -> option nat.

(** The greedy loop of a quantifier [body{lo,hi}] after [n] iterations:
    try one more iteration first, then the continuation [k].  An
    iteration that consumes nothing is rejected once the minimum count has
    been reached, so at most [lo] iterations make no progress and every
    other one consumes input: [lo + length rest + 1] units of [fuel] are
    never used up. *)
Fixpoint repeatLoop (body : option ascii -> text -> nat -> Cont -> option nat)
    (lo : nat) (hi : option nat) (k : Cont) (fuel n : nat)
    (prev : option ascii) (rest : text) (pos : nat) {struct fuel} : option nat :=
  match fuel with
  | O => None
  | S fuel' =>
      let stop := if lo <=? n then k prev rest pos else None in
      if belowMax n hi then
        match body prev rest pos
                (fun p' s' i' =>
                   if (pos <? i') || (n <? lo)
                   then repeatLoop body lo hi k fuel' (S n) p' s' i'
                   else None) with
        | Some e => Some e
        | None => stop
        end
      else stop
  end.

(** The matcher at one position, in continuation-passing style; the
    result is the end index of the match. *)
Fixpoint matchAt (ic : bool) (r : regex) (prev : option ascii) (rest : text)
    (pos : nat) (k : Cont) {struct r} : option nat :=
  match r with
  | Empty => k prev rest pos
  | Char c =>
      match rest with
      | x :: rest' => if charMatches ic c x then k (Some x) rest' (S pos) else None
      | [] => None
      end
  | Set_ cs =>
      match rest with
      | x :: rest' => if inSet cs x then k (Some x) rest' (S pos) else None
      | [] => None
      end
  | WordBoundary => if atWordBoundary prev rest then k prev rest pos else None
  | Seq r1 r2 =>
      matchAt ic r1 prev rest pos (fun p' s' i' => matchAt ic r2 p' s' i' k)
  | Alt r1 r2 =>
      match matchAt ic r1 prev rest pos k with
      | Some e => Some e
      | None => matchAt ic r2 prev rest pos k
      end
  | Repeat lo hi body =>
      repeatLoop (matchAt ic body) lo hi k (S (lo + length rest)) 0 prev rest pos
  end.

Definition matchHere (ic : bool) (r : regex) (prev : option ascii)
    (rest : text) (pos : nat) : option nat :=
  matchAt ic r prev rest pos (fun _ _ e => Some e).

(** Try every start position from the cursor on; the result is the start
    and end index of the leftmost match. *)
Fixpoint search (ic : bool) (r : regex) (prev : option ascii) (rest : text)
    (pos : nat) {struct rest} : option (nat * nat) :=
  match matchHere ic r prev rest pos with
  | Some e => Some (pos, e)
  | None =>
      match rest with
      | [] => None
      | c :: rest' => search ic r (Some c) rest' (S pos)
      end
  end.

(** Search starting at index [from]; no match when [from] is past the end
    of the input. *)
Fixpoint searchFrom (ic : bool) (r : regex) (from : nat) (prev : option ascii)
    (rest : text) (pos : nat) {struct from} : option (nat * nat) :=
  match from with
  | O => search ic r prev rest pos
  | S from' =>
      match rest with
      | [] => None
      | c :: rest' => searchFrom ic r from' (Some c) rest' (S pos)
      end
  end.

(** A RegExp object.  Each regex literal of the source is one object with
    its own [lastIndex]; [rid] names the object. *)
Record t : Type := mk {
  rid : string;
  source : regex;
  global : bool;
  ignoreCase : bool
}.

(** The [lastIndex] of every RegExp object; objects never used read 0. *)
Abbreviation store := (gmap string nat).

Definition lastIndex (rx : t) (st : store) : nat := default 0 (st !! rid rx).

Record Match : Type := mkMatch {
  index : nat;
  matched : text   (* match[0] *)
}.

(** [rx.exec(s)].  A global regex starts at its [lastIndex], leaves the end
    of the match in it, and resets it to 0 when nothing is found; a
    non-global regex starts at 0 and keeps no state. *)
Definition exec (rx : t) (st : store) (s : text) : store * option Match :=
  let from := if global rx then lastIndex rx st else 0 in
  match searchFrom (ignoreCase rx) (source rx) from None s 0 with
  | Some (i, e) =>
      ((if global rx then <[rid rx := e]> st else st),
       Some (mkMatch i (slice i e s)))
  | None => ((if global rx then <[rid rx := 0]> st else st), None)
  end.

(** [rx.test(s)] *)
Definition test (rx : t) (st : store) (s : text) : store * bool :=
  let '(st', m) := exec rx st s in (st', bool_decide (is_Some m)).

(** [/re/.test(s)] and [s.match(/re/)] on a regex literal evaluated in
    place, without flags: always a fresh object. *)
Definition matchFresh (ic : bool) (r : regex) (s : text) : option Match :=
  match search ic r None s 0 with
  | Some (i, e) => Some (mkMatch i (slice i e s))
  | None => None
  end.

Definition testFresh (ic : bool) (r : regex) (s : text) : bool :=
  bool_decide (is_Some (matchFresh ic r s)).

(** *** Notation helpers for writing the source's regex literals *)

Fixpoint lit_ (cs : text) : regex :=
  match cs with
  | [] => Empty
  | [c] => Char c
  | c :: cs' => Seq (Char c) (lit_ cs')
  end.

Definition lit (s : string) : regex := lit_ (str s).

Fixpoint alts (rs : list regex) : regex :=
  match rs with
  | [] => Empty
  | [r] => r
  | r :: rs' => Alt r (alts rs')
  end.

Definition words (ws : list string) : regex := alts (map lit ws).

Fixpoint seqs (rs : list regex) : regex :=
  match rs with
  | [] => Empty
  | [r] => r
  | r :: rs' => Seq r (seqs rs')
  end.

Definition opt (r : regex) : regex := Repeat 0 (Some 1) r.
Definition plus (r : regex) : regex := Repeat 1 None r.
Definition star (r : regex) : regex := Repeat 0 None r.

End RegExp.

(* ===================================================================== *)
(** ** JavaScript numbers                                                 *)
(* ===================================================================== *)

Module Num.

(** A non-negative integer as a number; exact below 2^53. *)
Fixpoint ofNat (n : nat) : float :=
  match n with
  | O => 0%float
  | S n' => (ofNat n' + 1)%float
  end.

Definition isNaN (x : float) : bool := negb (PrimFloat.eqb x x).

(** [Math.min(a, b)] and [Math.max(a, b)] on numbers without a negative
    zero among them. *)
Definition min (a b : float) : float :=
  if isNaN a || isNaN b then nan else if PrimFloat.ltb b a then b else a.

Definition max (a b : float) : float :=
  if isNaN a || isNaN b then nan else if PrimFloat.ltb a b then b else a.

Definition digitValue (c : ascii) : nat := JS.code c - 48.

(** The digits of [s] read as one decimal integer. *)
Definition digitsToZ (s : JS.text) : Z :=
  fold_left (fun acc c => (acc * 10 + Z.of_nat (digitValue c))%Z) s 0%Z.

(** [n / d < 2 ^ e], for a positive [d]. *)
Definition ltPow2 (n d e : Z) : bool :=
  (n * 2 ^ Z.max 0 (- e) <? d * 2 ^ Z.max 0 e)%Z.

(** The binary64 number nearest to the quotient [n / d] of a non-negative
    integer by a positive one, a tie going to the even significand; the
    quotient is below 2^1024.  [e] is the exponent of the leading bit of
    the quotient, [k] the scaling that leaves 53 significant bits, or
    fewer in the subnormal range, and [m] the rounded significand. *)
Definition nearest (n d : Z) : float :=
  if (n =? 0)%Z then 0%float
  else
    let e0 := (Z.log2 n - Z.log2 d)%Z in
    let e := if ltPow2 n d e0 then (e0 - 1)%Z else e0 in
    let k := Z.min (52 - e) 1074 in
    let num := (n * 2 ^ Z.max 0 k)%Z in
    let den := (d * 2 ^ Z.max 0 (- k))%Z in
    let q := (num / den)%Z in
    let r := (num mod den)%Z in
    let m :=
      if (den <? 2 * r)%Z || ((den =? 2 * r)%Z && Z.odd q) then (q + 1)%Z else q in
    FloatOps.Z.ldexp (PrimFloat.of_uint63 (Uint63.of_Z m)) (- k).

(** [parseFloat(s)] for the strings the score pattern of
    [parseAIResponse] can produce: a digit, optionally followed by a point
    and more digits.  The result is the number nearest to the decimal
    value, however many digits there are. *)
Definition parseFloat (s : JS.text) : float :=
  match s with
  | d :: "."%char :: frac =>
      nearest (digitsToZ (d :: frac)) (10 ^ Z.of_nat (length frac))
  | _ => nearest (digitsToZ s) 1
  end.

End Num.

(* ===================================================================== *)
(** ** Sound catalog                                                      *)
(* ===================================================================== *)

Module Catalog.
Import JS RegExp.

(** [pattern.context] *)
Inductive PatternContext : Type := action | dialogue | ambient | direct.

Record Pattern : Type := mkPattern {
  regex : RegExp.t;
  context : PatternContext
}.

Record SoundData : Type := mkSound {
  variations : list string;
  patterns : list Pattern;
  excludePatterns : option (list RegExp.t)   (* absent for some sounds *)
}.

(** An object literal with string keys, enumerated in source order. *)
Definition Library : Type := list (string * list (string * SoundData)).

Fixpoint assoc {A} (k : string) (l : list (string * A)) : option A :=
  match l with
  | [] => None
  | (k', v) :: l' => if String.eqb k k' then Some v else assoc k l'
  end.

(** [soundLibrary[category][soundKey]] *)
Definition soundData (lib : Library) (category soundKey : string) : option SoundData :=
  sounds ← assoc category lib; assoc soundKey sounds.

(** Every regex literal of the catalog carries the flags [gi]. *)
Definition gi (id : string) (r : RegExp.regex) : RegExp.t := RegExp.mk id r true true.

Definition quote : ascii := ascii_of_nat 34.
Definition notQuote : RegExp.regex := Set_ (NoneOf [quote]).
Definition ws : RegExp.regex := plus (Set_ Space).            (* \s+ *)
Definition upTo2Words : RegExp.regex :=                       (* (?:\w+\s+){0,2} *)
  Repeat 0 (Some 2) (Seq (plus (Set_ Word)) ws).
Definition optS (w : string) : RegExp.regex := Seq (lit w) (opt (Char "s")).

Definition laugh : SoundData := mkSound
  ["laugh1.mp3"; "giggle.mp3"; "chuckle.mp3"]%string
  [ mkPattern (gi "laugh.patterns[0]"
      (seqs [WordBoundary;
             alts [lit "laughed"; lit "laughing"; optS "giggle"; lit "giggling";
                   optS "chuckle"; lit "chuckling"];
             WordBoundary])) action;
    mkPattern (gi "laugh.patterns[1]"
      (seqs [WordBoundary; words ["haha"; "hehe"; "lol"]%string; WordBoundary])) direct;
    mkPattern (gi "laugh.patterns[2]"
      (seqs [Char quote; star notQuote;
             Repeat 2 None (words ["ha"; "he"]%string);
             star notQuote; Char quote])) dialogue ]
  (Some
    [ gi "laugh.excludePatterns[0]"
        (seqs [WordBoundary;
               words ["don't"; "stop"; "quit"; "without"; "no"; "never"]%string;
               ws; upTo2Words; words ["laugh"; "giggl"; "chuckl"]%string]);
      gi "laugh.excludePatterns[1]"
        (seqs [WordBoundary; words ["laugh"; "giggl"; "chuckl"]%string;
               star (Set_ Word); ws; words ["at"; "about"; "over"]%string;
               WordBoundary]) ]).

Definition cry : SoundData := mkSound
  ["cry1.mp3"; "sob.mp3"; "weep.mp3"]%string
  [ mkPattern (gi "cry.patterns[0]"
      (seqs [WordBoundary;
             alts [lit "cried"; lit "crying"; lit "sobbed"; lit "sobbing";
                   lit "wept"; lit "weeping";
                   seqs [optS "tear"; ws; words ["fell"; "stream"; "flow"]%string]]])) action;
    mkPattern (gi "cry.patterns[1]"
      (seqs [Char quote; star notQuote;
             words ["*sniff*"; "*sob*"]%string;
             star (Set_ Dot); Char quote])) dialogue ]
  (Some
    [ gi "cry.excludePatterns[0]"
        (seqs [WordBoundary;
               words ["don't"; "stop"; "quit"; "without"; "no"]%string;
               ws; upTo2Words; words ["cry"; "sob"; "weep"]%string]) ]).

Definition sigh : SoundData := mkSound
  ["sigh1.mp3"; "exhale.mp3"]%string
  [ mkPattern (gi "sigh.patterns[0]"
      (seqs [WordBoundary; words ["sighed"; "sighing"]%string; WordBoundary])) action;
    mkPattern (gi "sigh.patterns[1]"
      (seqs [Char quote; star notQuote; lit "*sigh*"; star notQuote;
             Char quote])) dialogue ]
  None.

Definition footsteps : SoundData := mkSound
  ["step1.mp3"; "step2.mp3"; "footsteps.mp3"]%string
  [ mkPattern (gi "footsteps.patterns[0]"
      (seqs [WordBoundary;
             words ["walked"; "walking"; "stepped"; "stepping"; "strolled";
                    "strolling"; "paced"; "pacing"]%string;
             WordBoundary])) action;
    mkPattern (gi "footsteps.patterns[1]"
      (seqs [WordBoundary; optS "footstep"; WordBoundary])) direct ]
  (Some
    [ gi "footsteps.excludePatterns[0]"
        (seqs [WordBoundary; words ["stopped"; "quit"; "ceased"]%string;
               ws; upTo2Words; words ["walk"; "step"; "stroll"; "pac"]%string]) ]).

Definition door : SoundData := mkSound
  ["door_open.mp3"; "door_close.mp3"; "door_creak.mp3"]%string
  [ mkPattern (gi "door.patterns[0]"
      (seqs [WordBoundary; words ["opened"; "closed"; "shut"; "slammed"]%string;
             ws; opt (Seq (lit "the") ws); lit "door"; WordBoundary])) action;
    mkPattern (gi "door.patterns[1]"
      (seqs [WordBoundary; lit "door"; ws;
             words ["opened"; "closed"; "creaked"; "slammed"]%string;
             WordBoundary])) action ]
  None.

Definition rustle : SoundData := mkSound
  ["rustle1.mp3"; "paper_rustle.mp3"; "cloth_rustle.mp3"]%string
  [ mkPattern (gi "rustle.patterns[0]"
      (seqs [WordBoundary;
             words ["rustled"; "rustling"; "grabbed"; "grabbing"; "reached";
                    "reaching"]%string;
             ws; words ["for"; "into"; "through"]%string])) action;
    mkPattern (gi "rustle.patterns[1]"
      (seqs [WordBoundary; lit "rustl"; plus (Set_ Word)])) direct ]
  None.

Definition wind : SoundData := mkSound
  ["wind1.mp3"; "breeze.mp3"]%string
  [ mkPattern (gi "wind.patterns[0]"
      (seqs [WordBoundary; lit "wind"; ws;
             words ["blew"; "howled"; "whistled"; "rustled"]%string])) ambient;
    mkPattern (gi "wind.patterns[1]"
      (seqs [WordBoundary; words ["gentle"; "strong"; "cold"]%string; ws;
             words ["breeze"; "wind"]%string; WordBoundary])) ambient ]
  None.

Definition rain : SoundData := mkSound
  ["rain_light.mp3"; "rain_heavy.mp3"]%string
  [ mkPattern (gi "rain.patterns[0]"
      (seqs [WordBoundary; lit "rain"; ws;
             words ["fell"; "pattered"; "drummed"; "began"]%string])) ambient;
    mkPattern (gi "rain.patterns[1]"
      (seqs [WordBoundary;
             alts [optS "raindrop"; lit "downpour";
                   Seq (lit "drizzl") (plus (Set_ Word))];
             WordBoundary])) ambient ]
  None.

Definition whisper : SoundData := mkSound
  ["whisper1.mp3"; "whisper_soft.mp3"]%string
  [ mkPattern (gi "whisper.patterns[0]"
      (seqs [WordBoundary; words ["whispered"; "whispering"]%string;
             WordBoundary])) dialogue;
    mkPattern (gi "whisper.patterns[1]"
      (seqs [Char quote; star notQuote; Char quote; star (Set_ Space);
             words ["she"; "he"; "they"]%string; ws; lit "whispered"])) dialogue ]
  None.

Definition shout : SoundData := mkSound
  ["shout1.mp3"; "yell.mp3"]%string
  [ mkPattern (gi "shout.patterns[0]"
      (seqs [WordBoundary;
             words ["shouted"; "yelled"; "screamed"; "called out"]%string;
             WordBoundary])) dialogue;
    mkPattern (gi "shout.patterns[1]"
      (seqs [Char quote; star notQuote; Repeat 2 None (Set_ (OneOf ["!"%char]));
             star notQuote; Char quote])) dialogue ]
  None.

(** [soundLibrary] of [index.js]. *)
Definition soundLibrary : Library :=
  [ ("emotions", [("laugh", laugh); ("cry", cry); ("sigh", sigh)]);
    ("actions", [("footsteps", footsteps); ("door", door); ("rustle", rustle)]);
    ("ambient", [("wind", wind); ("rain", rain)]);
    ("dialogue", [("whisper", whisper); ("shout", shout)]) ]%string.

(** [soundLibrary] of the variant without the oracle: the same entries
    except that it has no [rustle]. *)
Definition soundLibraryNoRustle : Library :=
  [ ("emotions", [("laugh", laugh); ("cry", cry); ("sigh", sigh)]);
    ("actions", [("footsteps", footsteps); ("door", door)]);
    ("ambient", [("wind", wind); ("rain", rain)]);
    ("dialogue", [("whisper", whisper); ("shout", shout)]) ]%string.

End Catalog.

(* ===================================================================== *)
(** ** Settings                                                           *)
(* ===================================================================== *)

Module Settings.

(** What [getSettings()] returns, every default key present. *)
Record t : Type := mk {
  enabled : bool;
  volume : float;
  maxConcurrentSounds : Z;
  preventRepeatMs : Z;
  contextSensitivity : float;
  debugMode : bool;
  useAiAnalysis : bool;
  aiAnalysisTimeout : Z;
  enabledCategories : list (string * bool)
}.

Definition allCategories : list (string * bool) :=
  [("emotions", true); ("actions", true); ("ambient", true); ("dialogue", true)]%string.

(** [defaultSettings] of [index.js]. *)
Definition defaultSettings : t :=
  mk true 0.7%float 3%Z 2000%Z 0.8%float false true 5000%Z allCategories.

(** [defaultSettings] of the variant without the oracle. *)
Definition defaultSettingsNoAi : t :=
  mk true 0.7%float 3%Z 2000%Z 0.8%float false false 5000%Z allCategories.

(** [getSettings().enabledCategories[category]] as a condition: a missing
    key is falsy. *)
Definition categoryEnabled (cfg : t) (category : string) : bool :=
  default false (Catalog.assoc category (enabledCategories cfg)).

End Settings.

(* ===================================================================== *)
(** ** ContextAnalyzer                                                    *)
(* ===================================================================== *)

Module ContextAnalyzer.
Import JS RegExp Catalog.

(** [this.sentimentWords] *)
Definition positiveWords : list string :=
  ["happy"; "joy"; "cheerful"; "delighted"; "pleased"; "content"]%string.
Definition negativeWords : list string :=
  ["sad"; "angry"; "frustrated"; "disappointed"; "upset"; "annoyed"]%string.

Record Context : Type := mkContext {
  sentence : text;
  surrounding : text;
  position : float;
  cmatch : text        (* context.match *)
}.

Inductive Reason : Type :=
  | no_match | excluded_by_pattern | ai_analyzed | pattern_analyzed.

(** The object [analyzeContext] resolves to; absent properties are
    [None]. *)
Record Analysis : Type := mkAnalysis {
  score : float;
  reason : Reason;
  acontext : option Context;
  amatch : option text
}.

(** [sounds[soundKey]] as a condition.  The categories are plain
    objects: the lookup finds the sound of that name, or else what every
    object inherits under that name, and both are truthy. *)
Definition hasEntry (sounds : list (string * SoundData)) (soundKey : string) : bool :=
  match assoc soundKey sounds with
  | Some _ => true
  | None => inherited soundKey
  end.

(** [getCategoryForSound] of [src/unnamed/part_000]: the first category
    in which the lookup of the key finds something. *)
Fixpoint getCategoryForSound (lib : Library) (soundKey : string) : option string :=
  match lib with
  | [] => None
  | (category, sounds) :: lib' =>
      if hasEntry sounds soundKey then Some category
      else getCategoryForSound lib' soundKey
  end.

Definition isTerminator (c : ascii) : bool := memChar c ["."; "!"; "?"]%char.

(** The loop of [extractSentence]. *)
Fixpoint extractSentenceLoop (sentences : list text) (currentPos position : nat)
    : text :=
  match sentences with
  | [] => []
  | sentence :: rest =>
      if position <? currentPos + length sentence then trim sentence
      else extractSentenceLoop rest (currentPos + length sentence + 1) position
  end.

Definition extractSentence (s : text) (position : nat) : text :=
  extractSentenceLoop (split isTerminator s) 0 position.

(** The loop of [getSurroundingWords]: the index at which the running
    offset first exceeds [position], or 0 when the loop runs out. *)
Fixpoint wordIndexLoop (words : list text) (i currentPos position : nat) : nat :=
  match words with
  | [] => 0
  | w :: rest =>
      if position <? currentPos then i
      else wordIndexLoop rest (S i) (currentPos + length w + 1) position
  end.

Definition getSurroundingWords (s : text) (position wordCount : nat) : text :=
  let words := split isSpace s in
  let wordIndex := wordIndexLoop words 0 0 position in
  let start := Nat.max 0 (wordIndex - wordCount) in
  let end_ := Nat.min (length words) (wordIndex + wordCount) in
  join (str " ") (slice start end_ words).

Definition bonus (b : bool) (x : float) (acc : float) : float :=
  if b then (acc + x)%float else acc.

Definition wordEndingIn (suffix : string) : RegExp.regex :=     (* \b\w+ed\b *)
  seqs [WordBoundary; plus (Set_ Word); lit suffix; WordBoundary].

Definition pronounThenEd : RegExp.regex :=       (* \b(?:she|he|they|I)\s+\w+ed\b *)
  seqs [WordBoundary; words ["she"; "he"; "they"; "I"]%string; ws;
        plus (Set_ Word); lit "ed"; WordBoundary].

Definition analyzeActionContext (context : Context) (soundKey : string) : float :=
  let score := 0%float in
  let score := bonus (testFresh false (wordEndingIn "ed") (sentence context)) 0.2 score in
  let score := bonus (testFresh false (wordEndingIn "ing") (sentence context)) 0.1 score in
  let score := bonus (testFresh false pronounThenEd (sentence context)) 0.15 score in
  score.

Definition dialogueTag : RegExp.regex :=
  seqs [WordBoundary; words ["said"; "whispered"; "shouted"; "asked"; "replied"]%string;
        WordBoundary].

Definition analyzeDialogueContext (context : Context) (soundKey : string) : float :=
  let score := 0%float in
  let score := bonus (includes (sentence context) [quote]) 0.2 score in
  let score := bonus (testFresh false dialogueTag (sentence context)) 0.15 score in
  score.

Definition environmentWord : RegExp.regex :=
  seqs [WordBoundary;
        words ["outside"; "air"; "atmosphere"; "environment"; "weather"]%string;
        WordBoundary].

Definition analyzeAmbientContext (context : Context) (soundKey : string) : float :=
  let score := 0%float in
  let score := bonus (testFresh false environmentWord (surrounding context)) 0.2 score in
  score.

Definition analyzeTemporalContext (context : Context) (soundKey : string) : float :=
  0%float.

Definition someIncluded (ws : list string) (s : text) : bool :=
  existsb (fun word => includes s (str word)) ws.

Definition analyzeSentiment (context : Context) (soundKey : string) : float :=
  let score := 0%float in
  let sentence := toLowerCase (sentence context) in
  if includes (str soundKey) (str "laugh") || includes (str soundKey) (str "giggle") then
    bonus (someIncluded positiveWords sentence) 0.1 score
  else if includes (str soundKey) (str "cry") || includes (str soundKey) (str "sob") then
    bonus (someIncluded negativeWords sentence) 0.1 score
  else score.

(** The [switch (pattern.context)] of [analyzeContext]. *)
Definition patternBonus (pattern : Pattern) (context : Context) (soundKey : string)
    (score : float) : float :=
  match Catalog.context pattern with
  | action => (score + analyzeActionContext context soundKey)%float
  | dialogue => (score + analyzeDialogueContext context soundKey)%float
  | ambient => (score + analyzeAmbientContext context soundKey)%float
  | direct => (score + 0.3)%float
  end.

Definition clamp01 (score : float) : float := Num.max 0 (Num.min 1 score).

(** [context] as built from a match. *)
Definition buildContext (s : text) (m : Match) : Context :=
  mkContext (extractSentence s (index m))
            (getSurroundingWords s (index m) 10)
            (Num.ofNat (index m) / Num.ofNat (length s))%float
            (matched m).

(** The [for (const excludePattern of ...)] loop: the patterns are tested
    in order against the sentence and the loop leaves at the first hit. *)
Fixpoint anyExcluded (excludes : list RegExp.t) (st : store) (sentence : text)
    : store * bool :=
  match excludes with
  | [] => (st, false)
  | ex :: rest =>
      let '(st', hit) := RegExp.test ex st sentence in
      if hit then (st', true) else anyExcluded rest st' sentence
  end.

(** *** The variant without the oracle (src/unnamed/part_000) *)

Definition heuristicScore (pattern : Pattern) (context : Context) (soundKey : string)
    : float :=
  let score := 0.5%float in
  let score := patternBonus pattern context soundKey score in
  let score := (score + analyzeSentiment context soundKey)%float in
  clamp01 score.

Definition analyzeContext (lib : Library) (st : store) (s : text)
    (soundKey : string) (pattern : Pattern) : store * Analysis :=
  let '(st, m) := RegExp.exec (regex pattern) st s in
  match m with
  | None => (st, mkAnalysis 0 no_match None None)
  | Some m =>
      let context := buildContext s m in
      let category := getCategoryForSound lib soundKey in
      let soundData := c ← category; Catalog.soundData lib c soundKey in
      let '(st, excluded) :=
        match soundData ≫= excludePatterns with
        | Some excludes => anyExcluded excludes st (sentence context)
        | None => (st, false)
        end in
      if excluded then (st, mkAnalysis 0 excluded_by_pattern (Some context) None)
      else
        (st, mkAnalysis (heuristicScore pattern context soundKey) pattern_analyzed
               (Some context) (Some (matched m)))
  end.

End ContextAnalyzer.

(* ===================================================================== *)
(** ** ContextAnalyzer of index.js                                        *)
(* ===================================================================== *)

Module ContextAnalyzerAI.
Import JS RegExp Catalog ContextAnalyzer.

(** How one call of [generateQuietPrompt] would settle: with a string,
    with something that is not a string, or by throwing (a failed import
    included). *)
Inductive OracleReply : Type :=
  | Responds (response : text)
  | RespondsNonString
  | Throws.

(** [this.aiAnalysisCache], a Map in insertion order; a cached [null] is
    [None]. *)
Definition Cache : Type := list (string * option float).

Record State : Type := mkState {
  regexes : store;
  aiAnalysisCache : Cache
}.

(** What a call that does not return leaves behind. *)
Inductive Thrown : Type :=
  | TypeError.

(** The call [this.getCategoryForSound(soundKey)].  The class
    [ContextAnalyzer] of [index.js] defines no such method, and nothing
    adds one: the property reads [undefined], and calling it throws a
    TypeError. *)
Definition getCategoryForSoundCall (soundKey : string) : Thrown := TypeError.

(** [/\b0\.\d+|\b1\.0+|\b0\b|\b1\b/] *)
Definition scorePattern : RegExp.regex :=
  alts [ seqs [WordBoundary; lit "0."; plus (Set_ Digit)];
         seqs [WordBoundary; lit "1."; plus (Char "0")];
         seqs [WordBoundary; Char "0"; WordBoundary];
         seqs [WordBoundary; Char "1"; WordBoundary] ].

(** [parseAIResponse]; [response] is [None] when the oracle returned
    something without a [match] method, which throws inside the [try]. *)
Definition parseAIResponse (response : option text) (soundKey : string)
    : option float :=
  match response with
  | None => None
  | Some response =>
      match matchFresh false scorePattern response with
      | Some m =>
          let score := Num.parseFloat (matched m) in
          if PrimFloat.leb 0 score && PrimFloat.leb score 1 then Some score
          else None
      | None => None
      end
  end.

Definition cacheKey (soundKey : string) (context : Context) : string :=
  (soundKey ++ ":" ++ string_of_list_ascii (slice 0 50 (sentence context)))%string.

(** [buildAnalysisPrompt]: its first statement is the call of the
    missing method, so no prompt is ever built. *)
Definition buildAnalysisPrompt (soundKey : string) (context : Context) : Thrown :=
  getCategoryForSoundCall soundKey.

(** [analyzeWithAI]: the cached value if there is one.  Otherwise the
    [try] block is left by the TypeError of [buildAnalysisPrompt], before
    [generateQuietPrompt] is called and before anything is put in the
    cache, and the [catch] returns [null]. *)
Definition analyzeWithAI (cache : Cache) (soundKey : string) (context : Context)
    : Cache * option float :=
  let key := cacheKey soundKey context in
  match assoc key cache with
  | Some cached => (cache, cached)
  | None =>
      match buildAnalysisPrompt soundKey context with
      | TypeError => (cache, None)
      end
  end.

(** What the promise returned by [analyzeContext] settles to. *)
Inductive Outcome : Type :=
  | Resolved (a : Analysis)
  | Rejected.

(** [analyzeContext] of [index.js].  The trigger regex is run, which
    moves its [lastIndex]; without a match the result is [no_match].
    After a match the context is built and the exclusion check starts by
    calling the missing method (line 166), outside any [try]: the promise
    is rejected.  The exclusion loop, the oracle and the heuristic come
    after that call and are never reached, so the catalog [lib], the
    settings [cfg] and the way the oracle would settle have no part in the
    result. *)
Definition analyzeContext (lib : Library) (cfg : Settings.t) (oracle : OracleReply)
    (st : State) (s : text) (soundKey : string) (pattern : Pattern)
    : State * Outcome :=
  let '(rs, m) := RegExp.exec (regex pattern) (regexes st) s in
  let cache := aiAnalysisCache st in
  match m with
  | None => (mkState rs cache, Resolved (mkAnalysis 0 no_match None None))
  | Some m =>
      let context := buildContext s m in
      match getCategoryForSoundCall soundKey with
      | TypeError => (mkState rs cache, Rejected)
      end
  end.

End ContextAnalyzerAI.

(* ===================================================================== *)
(** ** AudioManager                                                       *)
(* ===================================================================== *)

Module AudioManager.
Import JS RegExp Catalog ContextAnalyzer.

(** [extensionState] together with the [lastIndex] of the catalog's
    regex objects. *)
Record State : Type := mkState {
  regexes : store;
  recentSounds : gmap string Z;
  audioBuffers : gset string;
  isInitialized : bool
}.

(** What the environment answers during one [playSound]: the clock, the
    index [Math.floor(Math.random() * variations.length)], and whether the
    audio backend accepts the play; one call per sound key and message. *)
Record Env : Type := mkEnv {
  now : string -> Z;
  randomIndex : string -> nat;
  backendPlays : string -> bool
}.

(** Where [playSound] leaves. *)
Inductive Played : Type :=
  | NotReady            (* not initialized, or disabled *)
  | CategoryOff         (* unknown sound, or its category disabled *)
  | OnCooldown
  | ContextCheckFailed  (* no pattern reached the sensitivity *)
  | BufferMissing (audioKey : string)
  | Started (audioKey : string)
  | PlaybackFailed (audioKey : string)
  | Rejected.           (* left by a TypeError: the promise is rejected *)

Definition isStarted (p : Played) : bool :=
  match p with Started _ => true | _ => false end.

(** The best-match loop of [playSound], awaiting each analysis. *)
Fixpoint bestMatchLoop (lib : Library) (cfg : Settings.t) (rs : store) (s : text)
    (soundKey : string) (patterns : list Pattern)
    (bestMatch : option Analysis) (bestScore : float)
    : store * option Analysis * float :=
  match patterns with
  | [] => (rs, bestMatch, bestScore)
  | pattern :: rest =>
      let '(rs, analysis) := analyzeContext lib rs s soundKey pattern in
      if PrimFloat.ltb bestScore (score analysis)
         && PrimFloat.leb (Settings.contextSensitivity cfg) (score analysis)
      then bestMatchLoop lib cfg rs s soundKey rest (Some analysis) (score analysis)
      else bestMatchLoop lib cfg rs s soundKey rest bestMatch bestScore
  end.

(** [variation || variations[index]], as the text spliced into the audio
    key. *)
Definition selectVariation (variation : option string) (variations : list string)
    (index : nat) : string :=
  match variation with
  | Some v => if String.eqb v "" then nth index variations "undefined"%string else v
  | None => nth index variations "undefined"%string
  end.

(** From "Select variation" to the end of [playSound]. *)
Definition dispatch (env : Env) (st : State) (rs : store)
    (soundKey : string) (data : SoundData) (variation : option string) (t : Z)
    : State * Played :=
  let st := mkState rs (recentSounds st) (audioBuffers st) (isInitialized st) in
  let selectedVariation :=
    selectVariation variation (variations data) (randomIndex env soundKey) in
  let audioKey := (soundKey ++ "_" ++ selectedVariation)%string in
  if negb (bool_decide (audioKey ∈ audioBuffers st)) then (st, BufferMissing audioKey)
  else if backendPlays env soundKey then
    (mkState rs (<[soundKey := t]> (recentSounds st)) (audioBuffers st)
       (isInitialized st),
     Started audioKey)
  else (st, PlaybackFailed audioKey).

(** The gates [playSound] starts with, up to the cooldown check: either
    the exit taken or the sound's catalog entry.  Under a name that
    objects inherit, [soundLibrary[category][soundKey]] is the inherited
    value: it passes [if (!soundData) return], and once the cooldown check
    is passed the loop over its missing [patterns] throws. *)
Definition gates (lib : Library) (cfg : Settings.t) (st : State) (soundKey : string)
    (t : Z) : Played + SoundData :=
  if negb (isInitialized st) || negb (Settings.enabled cfg) then inl NotReady
  else
    match getCategoryForSound lib soundKey with
    | None => inl CategoryOff
    | Some category =>
        if String.eqb category "" || negb (Settings.categoryEnabled cfg category)
        then inl CategoryOff
        else
          let lastPlayed := default 0%Z (recentSounds st !! soundKey) in
          match Catalog.soundData lib category soundKey with
          | None =>
              if inherited soundKey then
                if (t - lastPlayed <? Settings.preventRepeatMs cfg)%Z
                then inl OnCooldown
                else inl Rejected
              else inl CategoryOff
          | Some data =>
              if (t - lastPlayed <? Settings.preventRepeatMs cfg)%Z
              then inl OnCooldown
              else inr data
          end
    end.

(** [playSound] of the variant in [src/unnamed/part_000], which awaits
    every analysis. *)
Definition playSound (lib : Library) (cfg : Settings.t) (env : Env) (st : State)
    (soundKey : string) (s : text) (variation : option string) : State * Played :=
  let t := now env soundKey in
  match gates lib cfg st soundKey t with
  | inl exit => (st, exit)
  | inr data =>
      let '(rs, bestMatch, bestScore) :=
        bestMatchLoop lib cfg (regexes st) s soundKey (patterns data) None 0 in
      if negb (bool_decide (is_Some bestMatch))
         || PrimFloat.ltb bestScore (Settings.contextSensitivity cfg)
      then (mkState rs (recentSounds st) (audioBuffers st) (isInitialized st),
            ContextCheckFailed)
      else dispatch env st rs soundKey data variation t
  end.

(** [playSound] of [index.js].  Once the engine is initialised and
    enabled, the call of [this.contextAnalyzer.getCategoryForSound] on
    line 484 throws, the analyzer having no such method: the promise is
    rejected before the cooldown check, before any analysis is started
    (none would be awaited) and before anything is played, and the state
    is as it was. *)
Definition playSoundPending (lib : Library) (cfg : Settings.t) (env : Env)
    (st : State) (soundKey : string) (s : text) (variation : option string)
    : State * Played :=
  if negb (isInitialized st) || negb (Settings.enabled cfg) then (st, NotReady)
  else
    match ContextAnalyzerAI.getCategoryForSoundCall soundKey with
    | ContextAnalyzerAI.TypeError => (st, Rejected)
    end.

(** The [for (const pattern of soundData.patterns)] loop of
    [processMessage]: the patterns are tested in order until one matches. *)
Fixpoint anyTrigger (patterns : list Pattern) (rs : store) (s : text)
    : store * bool :=
  match patterns with
  | [] => (rs, false)
  | pattern :: rest =>
      let '(rs, hit) := RegExp.test (regex pattern) rs s in
      if hit then (rs, true) else anyTrigger rest rs s
  end.

Definition withRegexes (st : State) (rs : store) : State :=
  mkState rs (recentSounds st) (audioBuffers st) (isInitialized st).

(** One [playSound] variant, ready to be called with a sound key and the
    message. *)
Definition Player : Type := State -> string -> text -> State * Played.

Fixpoint soundsLoop (play : Player) (sounds : list (string * SoundData))
    (st : State) (s : text) (promises : list (string * Played))
    : State * list (string * Played) :=
  match sounds with
  | [] => (st, promises)
  | (soundKey, data) :: rest =>
      let '(rs, hit) := anyTrigger (patterns data) (regexes st) s in
      let st := withRegexes st rs in
      if hit then
        let '(st, played) := play st soundKey s in
        soundsLoop play rest st s (promises ++ [(soundKey, played)])
      else soundsLoop play rest st s promises
  end.

Fixpoint categoriesLoop (play : Player) (cfg : Settings.t) (lib : Library)
    (st : State) (s : text) (promises : list (string * Played))
    : State * list (string * Played) :=
  match lib with
  | [] => (st, promises)
  | (category, sounds) :: rest =>
      if negb (Settings.categoryEnabled cfg category)
      then categoriesLoop play cfg rest st s promises
      else
        let '(st, promises) := soundsLoop play sounds st s promises in
        categoriesLoop play cfg rest st s promises
  end.

(** [promises.splice(maxConcurrent)] when the list is longer than
    [maxConcurrent]: what stays in [promises]. *)
Definition spliceFrom {A} (maxConcurrent : Z) (promises : list A) : list A :=
  if (Z.of_nat (length promises) >? maxConcurrent)%Z then
    let start :=
      if (maxConcurrent <? 0)%Z
      then Z.max (Z.of_nat (length promises) + maxConcurrent) 0
      else maxConcurrent in
    firstn (Z.to_nat start) promises
  else promises.

Record Processed : Type := mkProcessed {
  final : State;
  (** every [playSound] call made, in call order, with where it ended *)
  calls : list (string * Played);
  (** the promises left in the array handed to [Promise.allSettled] *)
  awaited : list (string * Played)
}.

(** [processMessage].  Each [playSound] is called inside the loop, before
    the list of promises is cut; cutting the list afterwards only changes
    what is awaited.  The calls work on disjoint regex objects and
    distinct keys of [recentSounds], so running each to its end at the
    point of its call gives the state the interleaved promises reach.
    [Promise.allSettled] takes rejected promises too, so a [playSound]
    that throws does not stop [processMessage]. *)
Definition processMessage (play : Player) (lib : Library) (cfg : Settings.t)
    (st : State) (messageText : text) : Processed :=
  if negb (bool_decide (messageText <> [])) || negb (isInitialized st)
  then mkProcessed st [] []
  else
    let '(st, promises) := categoriesLoop play cfg lib st messageText [] in
    mkProcessed st promises
      (spliceFrom (Settings.maxConcurrentSounds cfg) promises).

(** The sound keys whose playback was started. *)
Definition dispatched (calls : list (string * Played)) : list string :=
  map fst (filter (fun c => isStarted (snd c)) calls).

End AudioManager.

(* ===================================================================== *)
(** ** Smart Sound Triggers (first variant in src/unnamed/part_000)       *)
(* ===================================================================== *)

Module SmartTriggers.

Record State : Type := mkState {
  lastPlayed : gmap string float;
  lastVariantIndex : gmap string Z;
  soundLibrary : gmap string (list string)
}.

Record Settings : Type := mkSettings {
  enabled : bool;
  volume : float;
  cooldown : float
}.

(** A number as a condition: 0 and NaN are falsy. *)
Definition truthy (x : float) : bool :=
  negb (PrimFloat.eqb x 0 || Num.isNaN x).

(** [x || d] for a number that may be [undefined]. *)
Definition orElse (x : option float) (d : float) : float :=
  match x with
  | Some v => if truthy v then v else d
  | None => d
  end.

(** [x || d] for an index that may be [undefined]. *)
Definition orElseZ (x : option Z) (d : Z) : Z :=
  match x with
  | Some v => if (v =? 0)%Z then d else v
  | None => d
  end.

(** [chooseVariant]; [r] is [Math.floor(Math.random() * list.length)]. *)
Definition chooseVariant (r : nat) (st : State) (action : string)
    : State * option string :=
  let list := default [] (soundLibrary st !! action) in
  if length list =? 0 then (st, None)
  else
    let idx := Z.of_nat r in
    let idx :=
      if (1 <? length list)
         && (idx =? orElseZ (lastVariantIndex st !! action) (-1))%Z
      then ((idx + 1) mod Z.of_nat (length list))%Z
      else idx in
    (mkState (lastPlayed st) (<[action := idx]> (lastVariantIndex st))
       (soundLibrary st),
     list !! Z.to_nat idx).

Inductive Result : Type :=
  | ReturnsFalse
  | ReturnsTrue (url : string)   (* [audio.play()] was called on this url *)
  | Raises.                      (* setting [audio.volume] threw *)

(** The cooldown condition of [playSound]:
    [lastPlayed[action] && (now - lastPlayed[action]) < cooldown]. *)
Definition onCooldown (st : State) (action : string) (t cooldown : float) : bool :=
  match lastPlayed st !! action with
  | Some last => truthy last && PrimFloat.ltb (t - last)%float cooldown
  | None => false
  end.

(** [playSound]; [t] is [Date.now()/1000].  Assigning a volume outside
    [0, 1] to an audio element throws, before [play] is reached. *)
Definition playSound (cfg : Settings) (t : float) (r : nat) (st : State)
    (action : string) : State * Result :=
  let cooldown := orElse (Some (cooldown cfg)) 2.5 in
  if onCooldown st action t cooldown then (st, ReturnsFalse)
  else
    let '(st, url) := chooseVariant r st action in
    match url with
    | None => (st, ReturnsFalse)
    | Some url =>
        if String.eqb url "" then (st, ReturnsFalse)
        else
          let v := orElse (Some (volume cfg)) 0.8 in
          if PrimFloat.leb 0 v && PrimFloat.leb v 1 then
            (mkState (<[action := t]> (lastPlayed st)) (lastVariantIndex st)
               (soundLibrary st),
             ReturnsTrue url)
          else (st, Raises)
    end.

End SmartTriggers.

(* ===================================================================== *)
(** ** Loading the audio buffers (index.js and src/unnamed/part_000)      *)
(* ===================================================================== *)

Module Loader.
Import JS Catalog.

(** [extensionState.audioBuffers] and [extensionState.loadingPromises];
    of a promise the model keeps whether it fulfils. *)
Record State : Type := mkState {
  audioBuffers : gset string;
  loadingPromises : gmap string bool
}.

(** Whether fetching and decoding the file at a path succeeds. *)
Definition Network : Type := string -> bool.

(** [fetchAndDecodeAudio]: on success the decoded buffer is stored under
    [key]; a failed fetch or decode throws and stores nothing. *)
Definition fetchAndDecodeAudio (net : Network) (buffers : gset string)
    (path key : string) : gset string * bool :=
  if net path then ({[ key ]} ∪ buffers, true) else (buffers, false).

(** [loadSound]: a key that has a promise already is not fetched again,
    whether that promise fulfilled or not. *)
Definition loadSound (net : Network) (st : State) (path key : string) : State :=
  match loadingPromises st !! key with
  | Some _ => st
  | None =>
      let '(buffers, ok) := fetchAndDecodeAudio net (audioBuffers st) path key in
      mkState buffers (<[key := ok]> (loadingPromises st))
  end.

(** [extensionFolderPath] of [index.js]. *)
Definition extensionFolderPath : string := "scripts/extensions/st-context-sounds".

Definition soundPath (folder variation : string) : string :=
  (folder ++ "/sounds/" ++ variation)%string.

Definition audioKey (soundKey variation : string) : string :=
  (soundKey ++ "_" ++ variation)%string.

(** The three nested loops of [loadDefaultSounds].  The loads run
    concurrently: the promise of a key is registered when its load is
    started, in loop order, and its buffer is stored when its fetch
    completes, so what is stored once every load has settled does not
    depend on the order in which they complete. *)
Definition loadVariations (net : Network) (folder soundKey : string)
    (variations : list string) (st : State) : State :=
  fold_left (fun st variation =>
               loadSound net st (soundPath folder variation) (audioKey soundKey variation))
            variations st.

Definition loadSounds (net : Network) (folder : string)
    (sounds : list (string * SoundData)) (st : State) : State :=
  fold_left (fun st sound =>
               loadVariations net folder sound.1 (variations sound.2) st)
            sounds st.

Definition loadDefaultSounds (net : Network) (folder : string) (lib : Library)
    (cfg : Settings.t) (st : State) : State :=
  fold_left (fun st category =>
               if negb (Settings.categoryEnabled cfg category.1) then st
               else loadSounds net folder category.2 st)
            lib st.

(** [initialize]: when the audio context cannot be created nothing is
    loaded and the engine stays uninitialised; otherwise the default
    sounds are loaded and the engine is initialised, whether or not every
    file loaded. *)
Definition initialize (audioContextOk : bool) (net : Network) (folder : string)
    (lib : Library) (cfg : Settings.t) (st : State) : State * bool :=
  if audioContextOk then (loadDefaultSounds net folder lib cfg st, true)
  else (st, false).

End Loader.

(* ===================================================================== *)
(** ** Settings: [getSettings] (index.js and src/unnamed/part_000)        *)
(* ===================================================================== *)

Module SettingsStore.
Section Values.
Context {V : Type}.

(** [structuredClone(defaultSettings)], the defaults being written as an
    object literal, key by key. *)
Definition structuredClone (literal : list (string * V)) : gmap string V :=
  list_to_map literal.

(** The loop [for (const key in defaultSettings)]: a key the object does
    not have gets the default value. *)
Definition fillDefaults (defaults : list (string * V)) (settings : gmap string V)
    : gmap string V :=
  fold_left (fun settings entry =>
               match settings !! entry.1 with
               | None => <[entry.1 := entry.2]> settings
               | Some _ => settings
               end)
            defaults settings.

(** [getSettings].  A settings object is the map from its own keys to
    their values; [stored] is [extensionSettings[extensionName]], [None]
    when nothing is stored yet.  The result is also what is stored
    afterwards. *)
Definition getSettings (defaults : list (string * V))
    (stored : option (gmap string V)) : gmap string V :=
  fillDefaults defaults
    (match stored with
     | None => structuredClone defaults
     | Some settings => settings
     end).

End Values.
End SettingsStore.

(* ===================================================================== *)
(** ** Smart Sound Triggers: the heuristic engine                         *)
(**    (first document of src/unnamed/part_000)                           *)
(* ===================================================================== *)

Module SmartAnalysis.
Import JS RegExp.

Record ActionDef : Type := mkDef {
  words : list string;
  nounForms : list string;
  defaultVariants : list string
}.

Definition extensionFolderPath : string :=
  "scripts/extensions/third-party/st-sound-triggers".

Definition inFolder (file : string) : string := (extensionFolderPath ++ file)%string.

Definition ACTION_DEFINITIONS : list (string * ActionDef) :=
  [ ("laugh",
     mkDef ["laugh"; "laughed"; "laughing"; "giggle"; "giggled"; "giggling";
            "chuckle"; "chuckled"; "chuckling"; "snicker"; "snickered"; "cackle"]
           ["laugh"]
           [inFolder "/sounds/laugh/laugh1.mp3"; inFolder "/sounds/laugh/laugh2.mp3"]);
    ("footstep",
     mkDef ["step"; "steps"; "stepped"; "walking"; "walked"; "footstep"; "footsteps";
            "stomp"; "stomped"]
           ["footstep"; "step"]
           [inFolder "/sounds/footstep/step1.mp3"; inFolder "/sounds/footstep/step2.mp3"]);
    ("rustle",
     mkDef ["rustle"; "rustled"; "rustling"; "rummage"; "rummaged"; "shuffle";
            "shuffled"; "grabbed"; "grabs"; "grabbing"; "fumble"; "fumbled"]
           ["rustle"; "shuffle"]
           [inFolder "/sounds/rustle/rustle1.mp3"; inFolder "/sounds/rustle/rustle2.mp3"]);
    ("door",
     mkDef ["open"; "opened"; "opens"; "close"; "closed"; "closing"; "shut"; "shuts"]
           ["door"]
           [inFolder "/sounds/door/open1.mp3"; inFolder "/sounds/door/close1.mp3"]);
    ("sneeze",
     mkDef ["sneeze"; "sneezed"; "sneezing"; "achoo"]
           ["sneeze"]
           [inFolder "/sounds/sneeze/sneeze1.mp3"; inFolder "/sounds/sneeze/sneeze2.mp3"]);
    ("gasp",
     mkDef ["gasp"; "gasped"; "gasping"; "caught breath"; "caught my breath"]
           ["gasp"]
           [inFolder "/sounds/gasp/gasp1.mp3"; inFolder "/sounds/gasp/gasp2.mp3"])
  ]%string.

(** *** [buildSoundLibrary] *)

(** The property names a plain object inherits.  [soundLibrary] is a
    plain object, so under such a name it reads the inherited value, which
    is no array: [push] is missing and the call throws. *)
Definition inheritedNames : list string :=
  ["constructor"; "__defineGetter__"; "__defineSetter__"; "hasOwnProperty";
   "__lookupGetter__"; "__lookupSetter__"; "isPrototypeOf"; "propertyIsEnumerable";
   "toString"; "valueOf"; "__proto__"; "toLocaleString"]%string.

Definition inherited (name : string) : bool :=
  existsb (String.eqb name) inheritedNames.

(** The first loop: every action gets a copy of its default variants. *)
Definition defaultLibrary : gmap string (list string) :=
  fold_left (fun lib d => <[d.1 := defaultVariants d.2]> lib) ACTION_DEFINITIONS ∅.

(** The second loop, over the user's sounds as (action, url); the flag
    tells that the loop was left by the exception, the library being what
    it was at that moment. *)
Fixpoint addUserSounds (userSounds : list (string * string))
    (lib : gmap string (list string)) : gmap string (list string) * bool :=
  match userSounds with
  | [] => (lib, false)
  | s :: rest =>
      if inherited s.1 then (lib, true)
      else addUserSounds rest (<[s.1 := default [] (lib !! s.1) ++ [s.2]]> lib)
  end.

Definition buildSoundLibrary (userSounds : list (string * string))
    : gmap string (list string) * bool :=
  addUserSounds userSounds defaultLibrary.

(** *** [wordsFrom] *)

(** [replace(/[^\w\s']/g, ' ')] on one character. *)
Definition sanitize (c : ascii) : ascii :=
  if isWordChar c || isSpace c || ascii_eqb c "'" then c else " "%char.

Definition nonEmpty (w : text) : bool := negb (length w =? 0).

Definition wordsFrom (s : text) : list text :=
  List.filter nonEmpty (split isSpace (toLowerCase (map sanitize s))).

(** *** [analyzeTextForActions] *)

Definition text_eqb (a b : text) : bool :=
  (length a =? length b) && startsWith a b.

(** [/suffix$/.test(w)] *)
Definition endsWith (suffix w : text) : bool := startsWith (rev suffix) (rev w).

Definition negations : list string :=
  ["stop"; "don't"; "do"; "do not"; "never"; "without"; "no"; "not"; "avoid"]%string.

(** [hasNegationBefore(idx)]: the tokens at [max(0, idx - 3)] up to, not
    including, [idx]. *)
Definition hasNegationBefore (tokens : list text) (idx : nat) : bool :=
  existsb (fun token => existsb (fun n => text_eqb (str n) token) negations)
          (slice (idx - 3) idx tokens).

(** [new RegExp(`\\b(a|an|the|your|my|his|her)\\s+\\w*${term}\\b`, 'i')];
    the noun forms of [ACTION_DEFINITIONS] are plain letters. *)
Definition nounPattern (term : string) : regex :=
  seqs [WordBoundary; RegExp.words ["a"; "an"; "the"; "your"; "my"; "his"; "her"]%string;
        plus (Set_ Space); star (Set_ Word); lit term; WordBoundary].

(** [isNounUsage(term)], tested on the text as given. *)
Definition isNounUsage (s : text) (term : string) : bool :=
  testFresh true (nounPattern term) s.

(** [/\b(he|she|they|i|we|you)\b/] *)
Definition subjectPattern : regex :=
  seqs [WordBoundary; RegExp.words ["he"; "she"; "they"; "i"; "we"; "you"]%string;
        WordBoundary].

(** [/\bstop(ped|ing)?\b/] *)
Definition stopPattern : regex :=
  seqs [WordBoundary; lit "stop"; opt (Alt (lit "ped") (lit "ing")); WordBoundary].

(** [/\bdon't\b|\bdo not\b/] *)
Definition dontPattern : regex :=
  Alt (seqs [WordBoundary; lit "don't"; WordBoundary])
      (seqs [WordBoundary; lit "do not"; WordBoundary]).

(** [new RegExp(`\\b(${def.words.join("|")})\\b`, 'i')]; the words of
    [ACTION_DEFINITIONS] are letters and spaces. *)
Definition wordsPattern (def : ActionDef) : regex :=
  seqs [WordBoundary; RegExp.words (words def); WordBoundary].

(** The test of the regex literal
    [/\b(is|was|were|are|am|been|be)\b\s+\w*${w}\b/i] on the lowered
    text.  It is a literal, not a template: its pattern holds the
    characters [${w}] as written, an end-of-input assertion followed by
    three more characters.  The analysis takes the answer of this test as
    an argument, given the word and the lowered text. *)
Definition VerbPhraseTest : Type := string -> text -> bool.

(** Nothing follows the end of the input, so the test never succeeds. *)
Definition verbPhraseNever : VerbPhraseTest := fun _ _ => false.

(** The score of the token at index [i] against the word [w], from
    "base score" to the negation check. *)
Definition tokenScore (vp : VerbPhraseTest) (s : text) (tokens : list text)
    (def : ActionDef) (w : string) (i : nat) : float :=
  let lower := toLowerCase s in
  let score := 0.5%float in
  let score :=
    if vp w lower || endsWith (str "ing") (str w) || endsWith (str "ed") (str w)
       || endsWith (str "s") (str w)
    then (score + 0.35)%float else score in
  let subjWindow := join (str " ") (slice (i - 3) (i + 1) tokens) in
  let score :=
    if testFresh false subjectPattern subjWindow then (score + 0.12)%float else score in
  let score :=
    if existsb (isNounUsage s) (nounForms def) then (score - 1.0)%float else score in
  let score :=
    if hasNegationBefore tokens i || testFresh false stopPattern lower
       || testFresh false dontPattern lower
    then (score - 1.0)%float else score in
  score.

(** The loop over the token indices for one word. *)
Definition tokensLoop (vp : VerbPhraseTest) (s : text) (tokens : list text)
    (def : ActionDef) (w : string) (bestScore : float) : float :=
  fold_left (fun bestScore i =>
               let token := nth i tokens [] in
               if text_eqb token (str w) || startsWith (str w) token then
                 let score := tokenScore vp s tokens def w i in
                 if PrimFloat.ltb bestScore score then score else bestScore
               else bestScore)
            (seq 0 (length tokens)) bestScore.

(** The body of the loop over [ACTION_DEFINITIONS]: the score the action
    ends with. *)
Definition actionScore (vp : VerbPhraseTest) (s : text) (def : ActionDef) : float :=
  let lower := toLowerCase s in
  let tokens := wordsFrom s in
  let bestScore :=
    fold_left (fun bestScore w => tokensLoop vp s tokens def w bestScore)
              (words def) 0%float in
  if testFresh true (wordsPattern def) lower then Num.max bestScore 0.6%float
  else bestScore.

(** [results.sort((a, b) => b.score - a.score)]: the sort is stable, so
    an entry goes behind every earlier entry it does not beat. *)
Fixpoint insertByScore (x : string * float) (sorted : list (string * float))
    : list (string * float) :=
  match sorted with
  | [] => [x]
  | y :: rest =>
      if PrimFloat.ltb 0 (x.2 - y.2)%float then x :: sorted
      else y :: insertByScore x rest
  end.

Definition sortByScore (results : list (string * float)) : list (string * float) :=
  fold_left (fun sorted x => insertByScore x sorted) results [].

Definition analyzeTextForActions (vp : VerbPhraseTest) (s : text)
    : list (string * float) :=
  sortByScore
    (flat_map (fun d =>
                 let bestScore := actionScore vp s d.2 in
                 if PrimFloat.ltb 0.5 bestScore then [(d.1, bestScore)] else [])
              ACTION_DEFINITIONS).

(** *** [onMessageReceived] *)

(** What one message did: the urls [play] was called on, and whether the
    handler was left by an exception, which it catches and logs. *)
Record Handled : Type := mkHandled {
  played : list string;
  caught : bool
}.

(** The loop over the candidates.  The [n]-th call of [playSound] reads
    the clock and the random index [env n]. *)
Fixpoint playFirst (cfg : SmartTriggers.Settings) (env : nat -> float * nat) (n : nat)
    (st : SmartTriggers.State) (actions : list (string * float))
    : SmartTriggers.State * Handled :=
  match actions with
  | [] => (st, mkHandled [] false)
  | a :: rest =>
      let '(st, result) :=
        SmartTriggers.playSound cfg (env n).1 (env n).2 st a.1 in
      match result with
      | SmartTriggers.ReturnsTrue url => (st, mkHandled [url] false)
      | SmartTriggers.Raises => (st, mkHandled [] true)
      | SmartTriggers.ReturnsFalse => playFirst cfg env (S n) st rest
      end
  end.

(** [onMessageReceived]; [s] is the text the handler found in the
    payload. *)
Definition onMessageReceived (vp : VerbPhraseTest) (cfg : SmartTriggers.Settings)
    (env : nat -> float * nat) (st : SmartTriggers.State) (s : text)
    : SmartTriggers.State * Handled :=
  if negb (SmartTriggers.enabled cfg) then (st, mkHandled [] false)
  else playFirst cfg env 0 st (analyzeTextForActions vp s).

End SmartAnalysis.

(* ===================================================================== *)
(** ** Vocabulary of the statements                                       *)
(* ===================================================================== *)

Module Spec.
Import JS RegExp Catalog ContextAnalyzer.

(** *** Notions the statements use *)

(** Two continuations agree wherever a matcher started at [rest], [pos]
    can call them: on a suffix of the input, at the index that goes with
    it. *)
Definition agree (rest : text) (pos : nat) (k k' : Cont) : Prop :=
  forall p' s' i',
    length s' + i' = length rest + pos -> length s' <= length rest ->
    k p' s' i' = k' p' s' i'.

(** The regex of a RegExp object matches somewhere in the text, whatever
    its [lastIndex]. *)
Definition matchesSomewhere (rx : RegExp.t) (s : text) : bool :=
  testFresh (ignoreCase rx) (source rx) s.

(** The names of all the regex objects of a catalog. *)
Definition regexIds (lib : Library) : list string :=
  flat_map (fun category =>
    flat_map (fun sound =>
      map (fun pattern => rid (regex pattern)) (patterns sound.2)
      ++ map rid (default [] (excludePatterns sound.2)))
      category.2)
    lib.

Definition noMatchResult : Analysis := mkAnalysis 0 no_match None None.

(** The running offset of [getSurroundingWords] after a list of tokens:
    every token counts for its length plus one. *)
Definition tokenSpan (words : list text) : nat :=
  fold_right (fun w n => length w + 1 + n) 0 words.

(** The window at the start of the text: the first [min wordCount n] of
    the [n] tokens, joined by single spaces. *)
Definition leadingWindow (s : text) (wordCount : nat) : text :=
  let words := split isSpace s in
  join (str " ") (firstn (Nat.min wordCount (length words)) words).

(** A sequence of [playSound] calls, each with its own environment, and
    the plays it starts: sound key and time, in order. *)
Record Call : Type := mkCall {
  callKey : string;
  callText : text;
  callEnv : AudioManager.Env;
  callVariation : option string
}.

Fixpoint playAll (lib : Library) (cfg : Settings.t) (st : AudioManager.State)
    (calls : list Call) : list (string * Z) :=
  match calls with
  | [] => []
  | c :: rest =>
      let '(st', played) :=
        AudioManager.playSound lib cfg (callEnv c) st (callKey c) (callText c)
          (callVariation c) in
      (if AudioManager.isStarted played
       then [(callKey c, AudioManager.now (callEnv c) (callKey c))] else [])
      ++ playAll lib cfg st' rest
  end.

(** Every play in the list comes at least [W] after the previous play of
    the same key, the plays recorded in [last] included. *)
Fixpoint spacedFrom (W : Z) (last : gmap string Z) (plays : list (string * Z))
    : Prop :=
  match plays with
  | [] => True
  | (k, t) :: rest =>
      (W <= t - default 0 (last !! k))%Z /\ spacedFrom W (<[k := t]> last) rest
  end.


(** *** Engine states and environments of the scenarios *)

(** The audio keys [loadDefaultSounds] fills [audioBuffers] with when
    every file loads: one per sound and variation. *)
Definition allBuffers (lib : Library) : gset string :=
  list_to_set
    (flat_map (fun category =>
       flat_map (fun sound =>
         map (fun variation => (sound.1 ++ "_" ++ variation)%string)
             (variations sound.2))
         category.2)
       lib).

(** The state after a successful [initialize]: every buffer loaded, no
    sound played yet, every regex object untouched. *)
Definition initialized (lib : Library) : AudioManager.State :=
  AudioManager.mkState ∅ ∅ (allBuffers lib) true.

Definition withRecent (st : AudioManager.State) (soundKey : string) (t : Z)
    : AudioManager.State :=
  AudioManager.mkState (AudioManager.regexes st)
    (<[soundKey := t]> (AudioManager.recentSounds st))
    (AudioManager.audioBuffers st) (AudioManager.isInitialized st).

(** A sigh recorded at time 1700000000000. *)
Definition sighJustPlayed : AudioManager.State :=
  withRecent (initialized soundLibraryNoRustle) "sigh" 1700000000000.

Definition freshAnalyzer : ContextAnalyzerAI.State := ContextAnalyzerAI.mkState ∅ [].

(** An environment in which it is always [t], the random index is always
    [i] and the backend plays. *)
Definition envAt (t : Z) (i : nat) : AudioManager.Env :=
  AudioManager.mkEnv (fun _ => t) (fun _ => i) (fun _ => true).

(** [index.js] defaults with the oracle switched off. *)
Definition oracleOff : Settings.t :=
  Settings.mk true 0.7 3 2000 0.8 false false 5000 Settings.allCategories.

(** [playSound] of the variant that awaits the analysis, at time [t] with
    default settings, the first variation drawn. *)
Definition playAt (t : Z) : AudioManager.Player :=
  fun st soundKey s =>
    AudioManager.playSound soundLibraryNoRustle Settings.defaultSettingsNoAi
      (envAt t 0) st soundKey s None.


(** Smart Sound Triggers with the two default laugh variants. *)
Definition laugh1 : string :=
  "scripts/extensions/third-party/st-sound-triggers/sounds/laugh/laugh1.mp3".
Definition laugh2 : string :=
  "scripts/extensions/third-party/st-sound-triggers/sounds/laugh/laugh2.mp3".
Definition laughLibrary : SmartTriggers.State :=
  SmartTriggers.mkState ∅ ∅ {[ "laugh"%string := [laugh1; laugh2] ]}.

(** Smart Sound Triggers enabled, at the default volume, with a cooldown
    of [W] seconds. *)
Definition cooldownOf (W : float) : SmartTriggers.Settings :=
  SmartTriggers.mkSettings true 0.8 W.

(** [Date.now() / 1000] when the clock reads [ms] milliseconds. *)
Definition secondsAt (ms : float) : float := (ms / 1000)%float.

(** *** Patterns and texts of the scenarios *)

(** A pattern of a catalog entry by position. *)
Definition nthPattern (data : SoundData) (i : nat) : Pattern :=
  nth i (patterns data) (mkPattern (gi "none" Empty) direct).

Definition laughAction : Pattern := nthPattern laugh 0.
Definition footstepsAction : Pattern := nthPattern footsteps 0.

Definition niceLaugh : text := str "You have a nice laugh.".
Definition laughedAtTheJoke : text :=
  str "She laughed at the joke and walked to the door.".
Definition heSighed : text := str "Then he sighed.".
Definition heSighedTwice : text := str "Then he sighed. Then he sighed.".
Definition sheLaughed : text := str "She laughed.".
Definition stopLaughing : text := str "never ever stop laughing".
Definition heWalked : text := str "then he walked".
Definition laughingAndLaughing : text :=
  str "never ever stop laughing and laughing".
Definition neverLaughed : text :=
  str "It was very late at night and the fire was low. they wished he never laughed or giggles".
Definition fourSounds : text :=
  str "then he walked and walked, she sighed and sighed, he laughed and laughed, she sobbed and sobbed".

(** *** Runs of the scenarios *)

Definition testMessageRun : AudioManager.Processed :=
  AudioManager.processMessage (playAt 1700000000000) soundLibraryNoRustle
    Settings.defaultSettingsNoAi (initialized soundLibraryNoRustle) laughedAtTheJoke.

(** One message with four triggers, default settings. *)
Definition fourSoundsRun : AudioManager.Processed :=
  AudioManager.processMessage (playAt 1700000000000) soundLibraryNoRustle
    Settings.defaultSettingsNoAi (initialized soundLibraryNoRustle) fourSounds.

End Spec.

(* ===================================================================== *)
(** ** Vocabulary of the further properties                               *)
(* ===================================================================== *)

Module Cover.
Import JS RegExp Catalog ContextAnalyzer.

(** No white space at the start, or at the end, of a text. *)
Definition startsClean (s : text) : Prop :=
  match s with [] => True | c :: _ => isSpace c = false end.
Definition endsClean (s : text) : Prop := startsClean (rev s).

(** Every run of separator characters in the text is a single character;
    [insep] tells that the character before the text is a separator. *)
Fixpoint singleRuns (sep : ascii -> bool) (insep : bool) (s : text) : Prop :=
  match s with
  | [] => True
  | c :: s' =>
      if sep c then insep = false /\ singleRuns sep true s'
      else singleRuns sep false s'
  end.

(** The text is empty or ends with a separator. *)
Definition closedBy (sep : ascii -> bool) (s : text) : Prop :=
  s = [] \/ exists s' t, s = s' ++ [t] /\ sep t = true.

(** The text is empty or starts with a separator. *)
Definition openedBy (sep : ascii -> bool) (s : text) : Prop :=
  s = [] \/ exists t s', s = t :: s' /\ sep t = true.

(** The sound key gets no sentiment bonus: it names neither a laugh nor a
    cry. *)
Definition sentimentFree (soundKey : string) : bool :=
  negb (includes (str soundKey) (str "laugh") || includes (str soundKey) (str "giggle")
        || includes (str soundKey) (str "cry") || includes (str soundKey) (str "sob")).

(** The sound keys of the enabled categories, in catalog order. *)
Definition enabledKeys (lib : Library) (cfg : Settings.t) : list string :=
  flat_map (fun category =>
    if Settings.categoryEnabled cfg category.1 then map fst category.2 else [])
    lib.

(** Some pattern of the list, analysed from some state of the regex
    objects, was scored by the heuristic at or above the threshold. *)
Definition qualifies (lib : Library) (s : text) (soundKey : string)
    (patterns : list Pattern) (threshold : float) (a : Analysis) : Prop :=
  exists pattern rs,
    In pattern patterns /\
    a = (ContextAnalyzer.analyzeContext lib rs s soundKey pattern).2 /\
    reason a = pattern_analyzed /\
    PrimFloat.leb threshold (score a) = true.

(** The files [loadDefaultSounds] asks for, as path and key, in the order
    of the three loops. *)
Definition loadJobs (folder : string) (lib : Library) (cfg : Settings.t)
    : list (string * string) :=
  flat_map (fun category =>
    if Settings.categoryEnabled cfg category.1 then
      flat_map (fun sound =>
        map (fun variation =>
               (Loader.soundPath folder variation, Loader.audioKey sound.1 variation))
            (variations sound.2))
        category.2
    else [])
    lib.

(** One pass of [loadSound] over a list of files. *)
Definition loadAll (net : Loader.Network) (jobs : list (string * string))
    (st : Loader.State) : Loader.State :=
  fold_left (fun st job => Loader.loadSound net st job.1 job.2) jobs st.

(** The promises of a state stand for buffers: every key asked for has
    its buffer. *)
Definition allLoaded (st : Loader.State) : Prop :=
  forall k, is_Some (Loader.loadingPromises st !! k) -> k ∈ Loader.audioBuffers st.

(** Nothing loaded and nothing asked for yet. *)
Definition emptyLoader : Loader.State := Loader.mkState ∅ ∅.

(** The engine after a successful [initialize] that began with nothing
    loaded, [cfg] being the settings at that moment. *)
Definition engineAfterLoad (net : Loader.Network) (folder : string) (lib : Library)
    (cfg : Settings.t) (rs : store) (recent : gmap string Z) : AudioManager.State :=
  AudioManager.mkState rs recent
    (Loader.audioBuffers (Loader.initialize true net folder lib cfg emptyLoader).1)
    (Loader.initialize true net folder lib cfg emptyLoader).2.

(** No audio key of a sound filed under another category name starts
    with [soundKey_]. *)
Definition keyPrefixFree (lib : Library) (category soundKey : string) : bool :=
  forallb (fun c =>
    String.eqb c.1 category
    || forallb (fun sound =>
         forallb (fun variation =>
                    negb (String.prefix (soundKey ++ "_")
                            (Loader.audioKey sound.1 variation)))
                 (variations sound.2))
         c.2)
    lib.

(** The scores the token loops of [analyzeTextForActions] can leave in
    [bestScore]: 0, or a base score with its bonuses and no penalty. *)
Definition scoreLevels : list float :=
  [0; 0.5; 0.5 + 0.35; 0.5 + 0.12; 0.5 + 0.35 + 0.12]%float.

(** The scores an action is reported with. *)
Definition reportedLevels : list float :=
  [0.6; 0.5 + 0.35; 0.5 + 0.12; 0.5 + 0.35 + 0.12]%float.

(** Some token of the text is, or begins with, a word of the action. *)
Definition mentioned (def : SmartAnalysis.ActionDef) (s : text) : bool :=
  existsb (fun w =>
    existsb (fun token =>
               SmartAnalysis.text_eqb token (str w) || startsWith (str w) token)
            (SmartAnalysis.wordsFrom s))
    (SmartAnalysis.words def).

(** The urls the user gave for an action, in the order given. *)
Definition userUrls (userSounds : list (string * string)) (action : string)
    : list string :=
  map snd (List.filter (fun s => String.eqb s.1 action) userSounds).

(** A token as [wordsFrom] promises it: not empty, of letters, digits,
    underscores and apostrophes, none of them upper case. *)
Definition cleanToken (token : text) : Prop :=
  token <> [] /\
  Forall (fun c => (isWordChar c || ascii_eqb c "'") = true /\ isUpper c = false) token.

(** The Smart Sound Triggers state with a library and nothing played. *)
Definition freshTriggers (lib : gmap string (list string)) : SmartTriggers.State :=
  SmartTriggers.mkState ∅ ∅ lib.

(** The library built from the built-in actions alone. *)
Definition builtinLibrary : gmap string (list string) :=
  (SmartAnalysis.buildSoundLibrary []).1.

Definition sheNeverLaughed : text := str "She never laughed.".
Definition aLaughAndADoor : text := str "He opened the door and she laughed.".

End Cover.

(* ===================================================================== *)
(** ** Properties                                                         *)
(* ===================================================================== *)

Import JS RegExp Catalog ContextAnalyzer Spec.

(** *** Regular expressions *)

Lemma agree_refl rest pos k : agree rest pos k k.
Proof. intros p' s' i' _ _. reflexivity. Qed.

Lemma agree_suffix rest pos s' i' k k' :
  agree rest pos k k' ->
  length s' + i' = length rest + pos -> length s' <= length rest ->
  agree s' i' k k'.
Proof.
  intros A E L p'' s'' i'' E' L'. apply A; lia.
Qed.

Section RepeatLoop.
Variable body : option ascii -> text -> nat -> Cont -> option nat.
Variables (lo : nat) (hi : option nat).
Hypothesis body_agree :
  forall prev rest pos k k',
    agree rest pos k k' -> body prev rest pos k = body prev rest pos k'.

(** With enough fuel for the iterations still possible, neither the
    amount of fuel nor the continuation outside the reachable cursors
    matters. *)
Lemma repeatLoop_agree :
  forall fuel1 fuel2 n prev rest pos k k',
    agree rest pos k k' ->
    (lo - n) + length rest < fuel1 ->
    (lo - n) + length rest < fuel2 ->
    repeatLoop body lo hi k fuel1 n prev rest pos
    = repeatLoop body lo hi k' fuel2 n prev rest pos.
Proof.
  induction fuel1 as [|fuel1 IH]; intros fuel2 n prev rest pos k k' A F1 F2; [lia|].
  destruct fuel2 as [|fuel2]; [lia|]. simpl.
  rewrite (A prev rest pos) by lia.
  destruct (belowMax n hi); [|reflexivity].
  erewrite body_agree; [reflexivity|].
  intros p' s' i' E L.
  destruct (Nat.ltb_spec pos i') as [P|P]; simpl.
  - apply IH; [eapply agree_suffix; eassumption|lia|lia].
  - destruct (Nat.ltb_spec n lo) as [N|N]; [|reflexivity].
    apply IH; [eapply agree_suffix; eassumption|lia|lia].
Qed.
End RepeatLoop.

Lemma matchAt_agree ic r :
  forall prev rest pos k k',
    agree rest pos k k' -> matchAt ic r prev rest pos k = matchAt ic r prev rest pos k'.
Proof.
  induction r as [|c|cs| |r1 IH1 r2 IH2|r1 IH1 r2 IH2|lo hi body IH];
    intros prev rest pos k k' A; cbn [matchAt].
  - apply A; lia.
  - destruct rest as [|x rest']; [reflexivity|].
    destruct (charMatches ic c x); [|reflexivity]. apply A; simpl; lia.
  - destruct rest as [|x rest']; [reflexivity|].
    destruct (inSet cs x); [|reflexivity]. apply A; simpl; lia.
  - destruct (atWordBoundary prev rest); [|reflexivity]. apply A; lia.
  - apply IH1. intros p' s' i' E L. apply IH2. eapply agree_suffix; eassumption.
  - rewrite (IH1 _ _ _ k k' A), (IH2 _ _ _ k k' A). reflexivity.
  - apply repeatLoop_agree; [exact IH|exact A|lia|lia].
Qed.

(** The fuel given to a quantifier never cuts a match short: any larger
    amount gives the same result. *)
Lemma repeat_fuel_enough ic lo hi body prev rest pos k extra :
  repeatLoop (matchAt ic body) lo hi k (S (lo + length rest) + extra) 0 prev rest pos
  = matchAt ic (Repeat lo hi body) prev rest pos k.
Proof.
  cbn [matchAt]. apply repeatLoop_agree;
    [apply matchAt_agree|apply agree_refl|lia|lia].
Qed.

Lemma search_None_searchFrom ic r from :
  forall prev rest pos,
    search ic r prev rest pos = None ->
    searchFrom ic r from prev rest pos = None.
Proof.
  induction from as [|from IH]; intros prev rest pos H; simpl; [exact H|].
  destruct rest as [|c rest]; [reflexivity|].
  apply IH. simpl in H.
  destruct (matchHere ic r prev (c :: rest) pos); [discriminate|exact H].
Qed.

Lemma exec_no_match rx st s :
  matchesSomewhere rx s = false -> (exec rx st s).2 = None.
Proof.
  unfold matchesSomewhere, testFresh, matchFresh, exec. intros H.
  destruct (search (ignoreCase rx) (source rx) None s 0) as [[i e]|] eqn:E.
  - exfalso. apply bool_decide_eq_false in H. apply H. eauto.
  - rewrite (search_None_searchFrom _ _ _ _ _ _ E). reflexivity.
Qed.

(** *** The word window *)

Lemma splitRuns_nonempty sep b s : splitRuns sep b s <> [].
Proof.
  revert b. induction s as [|c s IH]; intros b; simpl; [discriminate|].
  destruct (sep c); [destruct b; [apply IH|discriminate]|].
  destruct (splitRuns sep false s); discriminate.
Qed.

Lemma tokenSpan_removelast_cons w ws :
  ws <> [] -> tokenSpan (removelast (w :: ws)) = length w + 1 + tokenSpan (removelast ws).
Proof. destruct ws; [congruence|reflexivity]. Qed.

Lemma splitRuns_span sep b s :
  tokenSpan (removelast (splitRuns sep b s)) <= length s.
Proof.
  revert b. induction s as [|c s IH]; intros b; simpl; [lia|].
  destruct (sep c).
  - destruct b.
    + specialize (IH true). lia.
    + rewrite tokenSpan_removelast_cons by apply splitRuns_nonempty.
      specialize (IH true). simpl. lia.
  - specialize (IH false). pose proof (splitRuns_nonempty sep false s) as Hne.
    destruct (splitRuns sep false s) as [|piece pieces]; [congruence|].
    destruct pieces as [|p2 pieces]; [simpl; lia|].
    rewrite tokenSpan_removelast_cons by discriminate.
    rewrite tokenSpan_removelast_cons in IH by discriminate.
    simpl length. lia.
Qed.

Lemma tokenSpan_removelast_le ws : tokenSpan (removelast ws) <= tokenSpan ws.
Proof.
  induction ws as [|w ws IH]; [simpl; lia|].
  destruct ws as [|w' ws]; [simpl; lia|].
  rewrite tokenSpan_removelast_cons by discriminate.
  change (tokenSpan (w :: w' :: ws)) with (length w + 1 + tokenSpan (w' :: ws)). lia.
Qed.

Lemma wordIndexLoop_runs_out words :
  forall i currentPos position,
    currentPos + tokenSpan (removelast words) <= position ->
    wordIndexLoop words i currentPos position = 0.
Proof.
  induction words as [|w ws IH]; intros i cur position H; [reflexivity|].
  simpl. destruct (Nat.ltb_spec position cur) as [Hlt|Hge].
  - exfalso. lia.
  - destruct ws as [|w' ws]; [reflexivity|].
    apply IH. rewrite tokenSpan_removelast_cons in H by discriminate. lia.
Qed.

(** C10: when the offset is at or beyond the cumulative span of all the
    whitespace-split tokens, or at or beyond the length of the text, the
    anchor index of [getSurroundingWords] stays 0 and the function returns
    the first [min wordCount n] of the [n] tokens joined by single spaces:
    the window at the start of the text. *)
Theorem getSurroundingWords_offset_past_end (s : text) (position wordCount : nat) :
  tokenSpan (split isSpace s) <= position \/ length s <= position ->
  wordIndexLoop (split isSpace s) 0 0 position = 0 /\
  getSurroundingWords s position wordCount = leadingWindow s wordCount.
Proof.
  intros H.
  assert (Hidx : wordIndexLoop (split isSpace s) 0 0 position = 0).
  { apply wordIndexLoop_runs_out. simpl.
    destruct H as [H|H].
    - pose proof (tokenSpan_removelast_le (split isSpace s)). lia.
    - pose proof (splitRuns_span isSpace false s). unfold split. lia. }
  split; [exact Hidx|].
  unfold getSurroundingWords, leadingWindow, slice. rewrite Hidx. simpl.
  rewrite Nat.sub_0_r, (Nat.min_comm (length _)). reflexivity.
Qed.

Lemma getSurroundingWords_offset_past_end_witness :
  (tokenSpan (split isSpace (str "the cold wind blew")) <= 19 \/
   length (str "the cold wind blew") <= 19) /\
  getSurroundingWords (str "the cold wind blew") 19 2 = str "the cold".
Proof.
  split; [left; vm_compute; lia|].
  refine (proj2 (getSurroundingWords_offset_past_end (str "the cold wind blew") 19 2 _)).
  left; vm_compute; lia.
Defined.

(** *** No trigger match *)

(** C9: whenever the trigger regex of the pattern matches nowhere in the
    text, the Scorer (with or without the oracle, whatever the state of
    the regex objects and of the cache) returns score 0 with reason
    [no_match]; and no trigger regex of the laugh sound matches the text
    "You have a nice laugh.". *)
Theorem analyzeContext_no_match :
  (forall lib cfg oracle rs cache s soundKey pattern,
      matchesSomewhere (regex pattern) s = false ->
      (analyzeContext lib rs s soundKey pattern).2 = noMatchResult /\
      (ContextAnalyzerAI.analyzeContext lib cfg oracle
         (ContextAnalyzerAI.mkState rs cache) s soundKey pattern).2
      = ContextAnalyzerAI.Resolved noMatchResult) /\
  Forall (fun pattern => matchesSomewhere (regex pattern) niceLaugh = false)
         (patterns laugh).
Proof.
  split.
  - intros lib cfg oracle rs cache s soundKey pattern H.
    pose proof (exec_no_match (regex pattern) rs s H) as E.
    unfold analyzeContext, ContextAnalyzerAI.analyzeContext. simpl.
    destruct (exec (regex pattern) rs s) as [rs' m]. simpl in E. subst m.
    split; reflexivity.
  - repeat constructor.
Qed.

Lemma analyzeContext_no_match_witness :
  matchesSomewhere (regex laughAction) niceLaugh = false /\
  (analyzeContext soundLibrary ∅ niceLaugh "laugh" laughAction).2 = noMatchResult.
Proof.
  split; [reflexivity|].
  exact (proj1 (proj1 analyzeContext_no_match soundLibrary Settings.defaultSettings
                  ContextAnalyzerAI.Throws ∅ [] niceLaugh "laugh"%string
                  laughAction eq_refl)).
Defined.

(** *** Cooldown bookkeeping *)

Import AudioManager.

Lemma gates_exit_not_started lib cfg st soundKey t exit :
  gates lib cfg st soundKey t = inl exit -> isStarted exit = false.
Proof.
  unfold gates. intros H.
  repeat match type of H with
         | (if ?c then _ else _) = _ => destruct c
         | match ?x with _ => _ end = _ => destruct x
         end; inversion H; reflexivity.
Qed.

Lemma gates_data lib cfg st soundKey t data :
  gates lib cfg st soundKey t = inr data ->
  exists category,
    getCategoryForSound lib soundKey = Some category /\
    Catalog.soundData lib category soundKey = Some data.
Proof.
  unfold gates. intros G.
  destruct (_ || _); [discriminate|].
  destruct (getCategoryForSound lib soundKey) as [category|]; [|discriminate].
  destruct (_ || _); [discriminate|].
  destruct (Catalog.soundData lib category soundKey) as [data'|] eqn:D.
  - destruct (_ <? _)%Z; [discriminate|]. inversion G; subst.
    exists category. split; [reflexivity|exact D].
  - destruct (inherited soundKey); [destruct (_ <? _)%Z|]; discriminate.
Qed.

Lemma dispatch_recentSounds env st rs soundKey data variation t :
  let r := dispatch env st rs soundKey data variation t in
  (exists audioKey, r.2 = Started audioKey /\
     recentSounds r.1 = <[soundKey := t]> (recentSounds st)) \/
  (isStarted r.2 = false /\ recentSounds r.1 = recentSounds st).
Proof.
  unfold dispatch. simpl.
  destruct (negb _); [right; split; reflexivity|].
  destruct (backendPlays env soundKey); [left; eexists; split; reflexivity|].
  right; split; reflexivity.
Qed.

(** [playSound] is made of the gates, a best-match loop that only moves
    regex state, and the dispatch. *)
Lemma playSound_recentSounds lib cfg env st soundKey s variation :
  let r := playSound lib cfg env st soundKey s variation in
  (exists audioKey, r.2 = Started audioKey /\
     recentSounds r.1 = <[soundKey := now env soundKey]> (recentSounds st)) \/
  (isStarted r.2 = false /\ recentSounds r.1 = recentSounds st).
Proof.
  unfold playSound.
  destruct (gates lib cfg st soundKey (now env soundKey)) as [exit|data] eqn:G.
  - right. split; [exact (gates_exit_not_started _ _ _ _ _ _ G)|reflexivity].
  - destruct (bestMatchLoop _ _ _ _ _ _ _ _) as [[rs bm] bs].
    destruct (_ || _); [right; split; reflexivity|].
    apply dispatch_recentSounds.
Qed.

(** In [index.js] every [playSound] is either refused because the engine
    is not ready or left by the TypeError of line 484; the state is
    untouched. *)
Lemma playSoundPending_outcome lib cfg env st soundKey s variation :
  playSoundPending lib cfg env st soundKey s variation =
  (st, if negb (isInitialized st) || negb (Settings.enabled cfg)
       then NotReady else Rejected).
Proof. unfold playSoundPending. destruct (_ || _); reflexivity. Qed.

Lemma playSoundPending_never_starts lib cfg env st soundKey s variation :
  let r := playSoundPending lib cfg env st soundKey s variation in
  isStarted r.2 = false /\ recentSounds r.1 = recentSounds st.
Proof.
  cbv zeta. rewrite playSoundPending_outcome.
  destruct (_ || _); split; reflexivity.
Qed.

Lemma chooseVariant_lastPlayed r st action :
  SmartTriggers.lastPlayed (SmartTriggers.chooseVariant r st action).1
  = SmartTriggers.lastPlayed st.
Proof.
  unfold SmartTriggers.chooseVariant. destruct (_ =? 0); reflexivity.
Qed.

(** C7: the recently-played timestamp of a sound key changes only when
    the play request was issued for that key, and then it becomes the time
    of the call; on every other exit of [playSound] (system disabled or
    not initialized, unknown or disabled category, cooldown veto, score
    below the threshold, missing audio buffer, failing backend) it is left
    as it was.  This holds for [playSound] of both context-sound variants
    and for [playSound] of Smart Sound Triggers with its [lastPlayed]. *)
Theorem recentSounds_updated_only_on_play :
  (forall lib cfg env st soundKey s variation,
      let r := playSound lib cfg env st soundKey s variation in
      (exists audioKey, r.2 = Started audioKey /\
         recentSounds r.1 = <[soundKey := now env soundKey]> (recentSounds st)) \/
      (isStarted r.2 = false /\ recentSounds r.1 = recentSounds st)) /\
  (forall lib cfg env st soundKey s variation,
      let r := playSoundPending lib cfg env st soundKey s variation in
      isStarted r.2 = false /\ recentSounds r.1 = recentSounds st) /\
  (forall cfg t rnd st action,
      let r := SmartTriggers.playSound cfg t rnd st action in
      (exists url, r.2 = SmartTriggers.ReturnsTrue url /\
         SmartTriggers.lastPlayed r.1 = <[action := t]> (SmartTriggers.lastPlayed st)) \/
      ((r.2 = SmartTriggers.ReturnsFalse \/ r.2 = SmartTriggers.Raises) /\
       SmartTriggers.lastPlayed r.1 = SmartTriggers.lastPlayed st)).
Proof.
  split; [exact playSound_recentSounds|].
  split; [exact playSoundPending_never_starts|].
  intros cfg t rnd st action. unfold SmartTriggers.playSound.
  destruct (SmartTriggers.onCooldown _ _ _ _); [right; split; [left|]; reflexivity|].
  pose proof (chooseVariant_lastPlayed rnd st action) as L.
  destruct (SmartTriggers.chooseVariant rnd st action) as [st' [url|]]; simpl in L.
  - destruct (String.eqb url ""); [right; split; [left; reflexivity|exact L]|].
    destruct (_ && _).
    + left. exists url. simpl. rewrite L. split; reflexivity.
    + right. split; [right; reflexivity|exact L].
  - right. split; [left; reflexivity|exact L].
Qed.

(** *** Cooldown window *)

Lemma gates_cooldown_veto lib cfg st soundKey t t0 :
  recentSounds st !! soundKey = Some t0 ->
  (t - t0 < Settings.preventRepeatMs cfg)%Z ->
  exists exit, gates lib cfg st soundKey t = inl exit.
Proof.
  intros Hrec Hlt. unfold gates. rewrite Hrec. simpl.
  destruct (_ || _); [eauto|].
  destruct (getCategoryForSound lib soundKey) as [category|]; [|eauto].
  destruct (_ || _); [eauto|].
  destruct (Z.ltb_spec (t - t0) (Settings.preventRepeatMs cfg)); [|lia].
  destruct (Catalog.soundData lib category soundKey); [eauto|].
  destruct (inherited soundKey); eauto.
Qed.

Lemma gates_cooldown_over lib cfg st soundKey t t0 :
  recentSounds st !! soundKey = Some t0 ->
  (t = t0 + Settings.preventRepeatMs cfg)%Z ->
  gates lib cfg st soundKey t <> inl OnCooldown.
Proof.
  intros Hrec Heq. unfold gates. rewrite Hrec. simpl.
  destruct (_ || _); [discriminate|].
  destruct (getCategoryForSound lib soundKey) as [category|]; [|discriminate].
  destruct (_ || _); [discriminate|].
  destruct (Z.ltb_spec (t - t0) (Settings.preventRepeatMs cfg)); [lia|].
  destruct (Catalog.soundData lib category soundKey); [discriminate|].
  destruct (inherited soundKey); discriminate.
Qed.

Lemma dispatch_not_OnCooldown env st rs soundKey data variation t :
  (dispatch env st rs soundKey data variation t).2 <> OnCooldown.
Proof.
  unfold dispatch. destruct (negb _); [discriminate|].
  destruct (backendPlays env soundKey); discriminate.
Qed.

(** In the context-sound [playSound], which compares whole milliseconds,
    the window is exact: with a play of the key recorded at [t0] and
    [preventRepeatMs = W], a call at [t1] with [t1 - t0 < W] leaves
    without starting anything and without touching the state, and at
    [t1 = t0 + W] the cooldown check lets the call through. *)
Lemma cooldown_window_strict lib cfg env st soundKey s variation t0 :
  recentSounds st !! soundKey = Some t0 ->
  let W := Settings.preventRepeatMs cfg in
  let t1 := now env soundKey in
  ((t1 - t0 < W)%Z ->
     exists exit, playSound lib cfg env st soundKey s variation = (st, exit) /\
                  isStarted exit = false) /\
  (t1 = (t0 + W)%Z ->
     (playSound lib cfg env st soundKey s variation).2 <> OnCooldown).
Proof.
  intros Hrec W t1. split.
  - intros Hlt.
    destruct (gates_cooldown_veto lib cfg st soundKey t1 t0 Hrec Hlt) as [exit G].
    unfold playSound. fold t1. rewrite G.
    exists exit. split; [reflexivity|exact (gates_exit_not_started _ _ _ _ _ _ G)].
  - intros Heq.
    pose proof (gates_cooldown_over lib cfg st soundKey t1 t0 Hrec Heq) as G.
    unfold playSound. fold t1.
    destruct (gates lib cfg st soundKey t1) as [exit|data].
    + simpl. congruence.
    + destruct (bestMatchLoop _ _ _ _ _ _ _ _) as [[rs bm] bs].
      destruct (_ || _); [discriminate|apply dispatch_not_OnCooldown].
Qed.

Lemma cooldown_window_strict_witness :
  recentSounds sighJustPlayed !! "sigh"%string = Some 1700000000000%Z /\
  (1700000001999 - 1700000000000 < Settings.preventRepeatMs Settings.defaultSettingsNoAi)%Z /\
  playAt 1700000001999 sighJustPlayed "sigh" heSighed = (sighJustPlayed, OnCooldown) /\
  1700000002000%Z = (1700000000000 + Settings.preventRepeatMs Settings.defaultSettingsNoAi)%Z /\
  (playAt 1700000002000 sighJustPlayed "sigh" heSighed).2 = Started "sigh_sigh1.mp3".
Proof.
  pose proof (cooldown_window_strict soundLibraryNoRustle Settings.defaultSettingsNoAi
                (envAt 1700000001999 0) sighJustPlayed
                "sigh"%string heSighed None 1700000000000%Z eq_refl) as [V _].
  pose proof (cooldown_window_strict soundLibraryNoRustle Settings.defaultSettingsNoAi
                (envAt 1700000002000 0) sighJustPlayed
                "sigh"%string heSighed None 1700000000000%Z eq_refl) as [_ E].
  split; [reflexivity|]. split; [reflexivity|].
  split; [|split; [reflexivity|]].
  - destruct (V eq_refl) as [exit [H _]]. vm_compute. reflexivity.
  - pose proof (E eq_refl) as H. vm_compute. reflexivity.
Defined.

Lemma gates_pass_after_cooldown lib cfg st soundKey t data :
  gates lib cfg st soundKey t = inr data ->
  (Settings.preventRepeatMs cfg <= t - default 0 (recentSounds st !! soundKey))%Z.
Proof.
  unfold gates. intros H.
  repeat match type of H with
         | (if ?c then _ else _) = _ => destruct c eqn:?
         | match ?x with _ => _ end = _ => destruct x eqn:?
         end; try discriminate.
  match goal with E : (_ <? _)%Z = false |- _ => apply Z.ltb_ge in E; exact E end.
Qed.

Lemma playSound_started_after_cooldown lib cfg env st soundKey s variation :
  isStarted (playSound lib cfg env st soundKey s variation).2 = true ->
  (Settings.preventRepeatMs cfg
   <= now env soundKey - default 0 (recentSounds st !! soundKey))%Z.
Proof.
  unfold playSound.
  destruct (gates lib cfg st soundKey (now env soundKey)) as [exit|data] eqn:G.
  - simpl. rewrite (gates_exit_not_started _ _ _ _ _ _ G). discriminate.
  - intros _. exact (gates_pass_after_cooldown _ _ _ _ _ _ G).
Qed.

(** Over any sequence of [playSound] calls, each play of a key comes at
    least [preventRepeatMs] after the previous play of that key. *)
Lemma cooldown_spacing lib cfg calls :
  forall st,
    spacedFrom (Settings.preventRepeatMs cfg) (recentSounds st)
      (playAll lib cfg st calls).
Proof.
  induction calls as [|c rest IH]; intros st; [exact I|].
  simpl.
  pose proof (playSound_recentSounds lib cfg (callEnv c) st (callKey c) (callText c)
                (callVariation c)) as R.
  pose proof (playSound_started_after_cooldown lib cfg (callEnv c) st (callKey c)
                (callText c) (callVariation c)) as C.
  destruct (playSound lib cfg (callEnv c) st (callKey c) (callText c) (callVariation c))
    as [st' played].
  simpl in R, C. destruct R as [[audioKey [-> R]]|[N R]].
  - simpl. split; [apply C; reflexivity|]. rewrite <- R. apply IH.
  - rewrite N. simpl. rewrite <- R. apply IH.
Qed.

(** In Smart Sound Triggers the strict comparison is made on seconds as
    binary64 numbers, with [cooldown || 2.5] as the window. *)
Lemma SmartTriggers_cooldown_veto cfg t rnd st action t0 :
  SmartTriggers.lastPlayed st !! action = Some t0 ->
  SmartTriggers.truthy t0 = true ->
  PrimFloat.ltb (t - t0)
    (SmartTriggers.orElse (Some (SmartTriggers.cooldown cfg)) 2.5) = true ->
  SmartTriggers.playSound cfg t rnd st action = (st, SmartTriggers.ReturnsFalse).
Proof.
  intros Hlast Ht Hlt. unfold SmartTriggers.playSound, SmartTriggers.onCooldown.
  rewrite Hlast, Ht, Hlt. reflexivity.
Qed.

(** C6 (the code departs from the claim): in Smart Sound Triggers a sound
    played at [t0] is not always eligible again at [t0 + W].  Times are
    [Date.now() / 1000], seconds as binary64 numbers, and the test is
    [now - lastPlayed < cooldown]: with a cooldown of 2.3 s and a play
    when the clock reads 1700000000000 ms, the call made 2300 ms later,
    at [t0 + W] exactly, computes a difference of 2.2999999523 and is
    vetoed.  The window is [Number(cooldown) || 2.5], so a cooldown of 0
    is taken for 2.5 s: the sound is vetoed at [t0 + 0] and until 2.5 s
    have passed. *)
Theorem cooldown_not_exact_in_seconds :
  (let cfg := cooldownOf 2.3 in
   let t0 := secondsAt 1700000000000 in
   let t1 := secondsAt 1700000002300 in
   let first := SmartTriggers.playSound cfg t0 0 laughLibrary "laugh" in
   t1 = (t0 + SmartTriggers.cooldown cfg)%float /\
   first.2 = SmartTriggers.ReturnsTrue laugh1 /\
   SmartTriggers.lastPlayed first.1 !! "laugh"%string = Some t0 /\
   SmartTriggers.playSound cfg t1 1 first.1 "laugh"
   = (first.1, SmartTriggers.ReturnsFalse)) /\
  (let cfg := cooldownOf 0 in
   let t0 := secondsAt 1700000000000 in
   let first := SmartTriggers.playSound cfg t0 0 laughLibrary "laugh" in
   (t0 + SmartTriggers.cooldown cfg)%float = t0 /\
   first.2 = SmartTriggers.ReturnsTrue laugh1 /\
   SmartTriggers.lastPlayed first.1 !! "laugh"%string = Some t0 /\
   SmartTriggers.playSound cfg t0 1 first.1 "laugh"
   = (first.1, SmartTriggers.ReturnsFalse) /\
   SmartTriggers.playSound cfg (secondsAt 1700000002499) 1 first.1 "laugh"
   = (first.1, SmartTriggers.ReturnsFalse) /\
   (SmartTriggers.playSound cfg (secondsAt 1700000002500) 1 first.1 "laugh").2
   = SmartTriggers.ReturnsTrue laugh2).
Proof.
  split.
  - cbv zeta. split; [vm_compute; reflexivity|]. split; [vm_compute; reflexivity|].
    split; [vm_compute; reflexivity|].
    apply SmartTriggers_cooldown_veto with (t0 := secondsAt 1700000000000);
      vm_compute; reflexivity.
  - cbv zeta. split; [vm_compute; reflexivity|]. split; [vm_compute; reflexivity|].
    split; [vm_compute; reflexivity|].
    split; [|split].
    + apply SmartTriggers_cooldown_veto with (t0 := secondsAt 1700000000000);
        vm_compute; reflexivity.
    + apply SmartTriggers_cooldown_veto with (t0 := secondsAt 1700000000000);
        vm_compute; reflexivity.
    + vm_compute. reflexivity.
Qed.

(** *** Variation choice *)

(** [chooseVariant] does avoid the previous index when that index is not
    0. *)
Lemma chooseVariant_avoids_nonzero_last r st action variants last :
  SmartTriggers.soundLibrary st !! action = Some variants ->
  1 < length variants -> r < length variants ->
  SmartTriggers.lastVariantIndex st !! action = Some last ->
  last <> 0%Z ->
  SmartTriggers.lastVariantIndex (SmartTriggers.chooseVariant r st action).1 !! action
  <> Some last.
Proof.
  intros Hlib Hlen Hr Hlast Hnz. unfold SmartTriggers.chooseVariant.
  rewrite Hlib, Hlast. simpl.
  destruct (Nat.eqb_spec (length variants) 0) as [E|_]; [lia|].
  destruct (Nat.ltb_spec 1 (length variants)) as [_|E]; [|lia].
  unfold SmartTriggers.orElseZ. destruct (Z.eqb_spec last 0) as [E|_]; [contradiction|].
  simpl. rewrite lookup_insert_eq. intros H. injection H as H.
  destruct (Z.eqb_spec (Z.of_nat r) last) as [E|E]; simpl in H; [|contradiction].
  rewrite <- E in H, Hnz.
  destruct (Z.eq_dec (Z.of_nat r + 1) (Z.of_nat (length variants)))%Z as [E'|E'].
  - rewrite E', Z_mod_same_full in H. lia.
  - rewrite Z.mod_small in H by lia. lia.
Qed.

(** C5 (the code departs from the claim): two consecutive picks for one
    sound key can be equal although the sound has several variations.  In
    Smart Sound Triggers a remembered index 0 reads as "no previous pick"
    ([lastVariantIndex[action] || -1]), so drawing 0 twice returns the
    first variant twice; the context-sound [playSound] keeps no record of
    the previous variation at all and starts the same file on two
    consecutive plays. *)
Theorem variation_repeats :
  (let p1 := SmartTriggers.chooseVariant 0 laughLibrary "laugh" in
   let p2 := SmartTriggers.chooseVariant 0 p1.1 "laugh" in
   p1.2 = Some laugh1 /\
   SmartTriggers.lastVariantIndex p1.1 !! "laugh"%string = Some 0%Z /\
   p2.2 = Some laugh1) /\
  (let r1 := playAt 1700000000000 (initialized soundLibraryNoRustle) "sigh" heSighedTwice in
   let r2 := playAt 1700000002000 r1.1 "sigh" heSighedTwice in
   length (variations sigh) = 2 /\
   r1.2 = Started "sigh_sigh1.mp3" /\ r2.2 = Started "sigh_sigh1.mp3").
Proof. vm_compute. repeat split. Qed.

(** *** Concurrency cap *)

Lemma dispatched_snoc promises soundKey played :
  dispatched (promises ++ [(soundKey, played)])
  = dispatched promises ++ (if isStarted played then [soundKey] else []).
Proof.
  unfold dispatched. rewrite filter_app, map_app. f_equal.
  rewrite filter_cons, filter_nil.
  destruct (decide _) as [H|H]; cbn in H; destruct (isStarted played);
    try reflexivity; contradiction || (exfalso; apply H; exact I).
Qed.

Section NeverStarting.
Variable play : Player.
Hypothesis play_never_starts :
  forall st soundKey s, isStarted (play st soundKey s).2 = false.

Lemma soundsLoop_dispatches_nothing sounds :
  forall st s promises,
    dispatched promises = [] ->
    dispatched (soundsLoop play sounds st s promises).2 = [].
Proof.
  induction sounds as [|[soundKey data] rest IH]; intros st s promises D; [exact D|].
  simpl. destruct (anyTrigger (patterns data) (regexes st) s) as [rs hit].
  destruct hit; [|apply IH; exact D].
  pose proof (play_never_starts (withRegexes st rs) soundKey s) as N.
  destruct (play (withRegexes st rs) soundKey s) as [st' played]. simpl in N.
  apply IH. rewrite dispatched_snoc, D, N. reflexivity.
Qed.

Lemma categoriesLoop_dispatches_nothing cfg lib :
  forall st s promises,
    dispatched promises = [] ->
    dispatched (categoriesLoop play cfg lib st s promises).2 = [].
Proof.
  induction lib as [|[category sounds] rest IH]; intros st s promises D; [exact D|].
  simpl. destruct (negb _); [apply IH; exact D|].
  pose proof (soundsLoop_dispatches_nothing sounds st s promises D) as S.
  destruct (soundsLoop play sounds st s promises) as [st' promises'].
  apply IH. exact S.
Qed.
End NeverStarting.

Section EveryCall.
Variable play : Player.
Variable Inv : State -> Prop.
Variable P : Played -> Prop.
Hypothesis Inv_withRegexes : forall st rs, Inv st -> Inv (withRegexes st rs).
Hypothesis play_ends :
  forall st soundKey s,
    Inv st ->
    P (play st soundKey s).2 /\ Inv (play st soundKey s).1 /\
    recentSounds (play st soundKey s).1 = recentSounds st /\
    audioBuffers (play st soundKey s).1 = audioBuffers st.

Lemma soundsLoop_every_call sounds :
  forall st s promises,
    Inv st -> Forall (fun c => P c.2) promises ->
    Forall (fun c => P c.2) (soundsLoop play sounds st s promises).2 /\
    Inv (soundsLoop play sounds st s promises).1 /\
    recentSounds (soundsLoop play sounds st s promises).1 = recentSounds st /\
    audioBuffers (soundsLoop play sounds st s promises).1 = audioBuffers st.
Proof.
  induction sounds as [|[soundKey data] rest IH]; intros st s promises I F.
  - simpl. split; [exact F|]. split; [exact I|split; reflexivity].
  - simpl. destruct (anyTrigger (patterns data) (regexes st) s) as [rs hit].
    pose proof (Inv_withRegexes st rs I) as I'.
    destruct hit; [|exact (IH (withRegexes st rs) s promises I' F)].
    destruct (play_ends (withRegexes st rs) soundKey s I') as [E [J [R B]]].
    destruct (play (withRegexes st rs) soundKey s) as [st' played].
    cbn [fst snd] in E, J, R, B.
    destruct (IH st' s (promises ++ [(soundKey, played)]) J) as [F' [J' [R' B']]].
    { apply Forall_app. split; [exact F|]. constructor; [exact E|constructor]. }
    split; [exact F'|]. split; [exact J'|].
    split; [rewrite R', R|rewrite B', B]; reflexivity.
Qed.

Lemma categoriesLoop_every_call cfg lib :
  forall st s promises,
    Inv st -> Forall (fun c => P c.2) promises ->
    Forall (fun c => P c.2) (categoriesLoop play cfg lib st s promises).2 /\
    Inv (categoriesLoop play cfg lib st s promises).1 /\
    recentSounds (categoriesLoop play cfg lib st s promises).1 = recentSounds st /\
    audioBuffers (categoriesLoop play cfg lib st s promises).1 = audioBuffers st.
Proof.
  induction lib as [|[category sounds] rest IH]; intros st s promises I F.
  - simpl. split; [exact F|]. split; [exact I|split; reflexivity].
  - simpl. destruct (negb _); [exact (IH st s promises I F)|].
    destruct (soundsLoop_every_call sounds st s promises I F) as [F' [J [R B]]].
    destruct (soundsLoop play sounds st s promises) as [st' promises'].
    cbn [fst snd] in F', J, R, B.
    destruct (IH st' s promises' J F') as [F'' [J' [R' B']]].
    split; [exact F''|]. split; [exact J'|].
    split; [rewrite R', R|rewrite B', B]; reflexivity.
Qed.
End EveryCall.

(** X17: in [index.js] no message ever starts a sound.  Every [playSound]
    that [processMessage] calls ends the same way: rejected by the
    TypeError of line 484 when the engine is enabled, refused at once when
    it is not.  Nothing is dispatched, and the play times and the buffers
    are as they were. *)
Theorem processMessage_pending_dispatches_nothing lib cfg env st s :
  let p := processMessage (fun st soundKey s =>
                             playSoundPending lib cfg env st soundKey s None)
             lib cfg st s in
  Forall (fun c => c.2 = if Settings.enabled cfg then Rejected else NotReady) (calls p) /\
  dispatched (calls p) = [] /\
  recentSounds (final p) = recentSounds st /\
  audioBuffers (final p) = audioBuffers st.
Proof.
  cbv zeta. unfold processMessage.
  destruct (negb (bool_decide (s <> [])) || negb (isInitialized st)) eqn:G.
  - simpl. repeat split. constructor.
  - apply orb_false_iff in G as [_ G]. apply negb_false_iff in G.
    pose proof (categoriesLoop_dispatches_nothing
                  (fun st soundKey s => playSoundPending lib cfg env st soundKey s None)
                  (fun st soundKey s =>
                     proj1 (playSoundPending_never_starts lib cfg env st soundKey s None))
                  cfg lib st s [] eq_refl) as D.
    pose proof (categoriesLoop_every_call
                  (fun st soundKey s => playSoundPending lib cfg env st soundKey s None)
                  (fun st => isInitialized st = true)
                  (fun played =>
                     played = if Settings.enabled cfg then Rejected else NotReady)
                  (fun st rs I => I)) as L.
    assert (E : forall st0 soundKey s0,
              isInitialized st0 = true ->
              (playSoundPending lib cfg env st0 soundKey s0 None).2
              = (if Settings.enabled cfg then Rejected else NotReady) /\
              isInitialized (playSoundPending lib cfg env st0 soundKey s0 None).1 = true /\
              recentSounds (playSoundPending lib cfg env st0 soundKey s0 None).1
              = recentSounds st0 /\
              audioBuffers (playSoundPending lib cfg env st0 soundKey s0 None).1
              = audioBuffers st0).
    { intros st0 soundKey s0 I0. rewrite playSoundPending_outcome, I0. simpl.
      destruct (Settings.enabled cfg); simpl; repeat split; exact I0. }
    specialize (L E cfg lib st s [] G (Forall_nil_2 _)).
    destruct (categoriesLoop _ cfg lib st s []) as [st' promises].
    cbn [fst snd calls final] in *. destruct L as [F [_ [R B]]].
    split; [exact F|]. split; [exact D|]. split; [exact R|exact B].
Qed.

(** C3 (the code departs from the claim): with the default
    [maxConcurrentSounds = 3] one message starts four sounds.  Every
    [playSound] has been called by the time the list of promises is cut,
    so the cut only shortens what is awaited. *)
Theorem processMessage_exceeds_maxConcurrent :
  Settings.maxConcurrentSounds Settings.defaultSettingsNoAi = 3%Z /\
  dispatched (calls fourSoundsRun) = ["laugh"; "cry"; "sigh"; "footsteps"]%string /\
  map fst (awaited fourSoundsRun) = ["laugh"; "cry"; "sigh"]%string /\
  recentSounds (final fourSoundsRun) !! "footsteps"%string = Some 1700000000000%Z.
Proof. vm_compute. repeat split. Qed.

(** *** State carried by the regex objects *)

(** C4 (the code departs from the claim): with the oracle off, two calls
    of [analyzeContext] with the same text, sound key and pattern object
    give different results.  The trigger regexes are global: the first
    call finds "laughed" and leaves [lastIndex] 11 in the regex object;
    the second call starts there, finds nothing and resolves to
    [no_match].  In [src/unnamed/part_000] the first call scores 0.7 with
    reason [pattern_analyzed]; in [index.js] the first call is rejected by
    the TypeError of line 166, the match having moved [lastIndex] before
    that, and the second call resolves to [no_match]. *)
Theorem analyzeContext_second_call_differs :
  (let r1 := analyzeContext soundLibraryNoRustle ∅ sheLaughed "laugh" laughAction in
   let r2 := analyzeContext soundLibraryNoRustle r1.1 sheLaughed "laugh" laughAction in
   score r1.2 = 0.7%float /\ reason r1.2 = pattern_analyzed /\
   lastIndex (regex laughAction) r1.1 = 11 /\
   r2.2 = noMatchResult) /\
  (let r1 := ContextAnalyzerAI.analyzeContext soundLibrary oracleOff
               ContextAnalyzerAI.Throws freshAnalyzer sheLaughed "laugh" laughAction in
   let r2 := ContextAnalyzerAI.analyzeContext soundLibrary oracleOff
               ContextAnalyzerAI.Throws r1.1 sheLaughed "laugh" laughAction in
   r1.2 = ContextAnalyzerAI.Rejected /\
   lastIndex (regex laughAction) (ContextAnalyzerAI.regexes r1.1) = 11 /\
   r2.2 = ContextAnalyzerAI.Resolved noMatchResult).
Proof.
  split.
  - vm_compute. repeat split.
  - vm_compute. repeat split.
Qed.

(** The regex objects of the catalog are pairwise distinct. *)
Lemma catalog_regex_ids_distinct : NoDup (regexIds soundLibrary).
Proof. apply (bool_decide_unpack _). vm_compute. exact I. Qed.

Lemma test_untouched rx st s :
  lastIndex rx st = 0 -> (RegExp.test rx st s).2 = matchesSomewhere rx s.
Proof.
  intros L. unfold RegExp.test, exec, matchesSomewhere, testFresh, matchFresh.
  rewrite L. replace (if global rx then 0 else 0) with 0 by (destruct (global rx); reflexivity).
  simpl. destruct (search _ _ _ _ _) as [[i e]|]; reflexivity.
Qed.

Lemma test_keeps_untouched rx st s ex :
  (RegExp.test rx st s).2 = false -> lastIndex ex st = 0 ->
  lastIndex ex (RegExp.test rx st s).1 = 0.
Proof.
  unfold RegExp.test, exec.
  destruct (searchFrom _ _ _ _ _ _) as [[i e]|]; simpl; [discriminate|].
  intros _ L. destruct (global rx); [|exact L].
  unfold lastIndex in *. destruct (decide (rid rx = rid ex)) as [->|N].
  - rewrite lookup_insert_eq. reflexivity.
  - rewrite lookup_insert_ne by exact N. exact L.
Qed.

Lemma anyExcluded_untouched excludes :
  forall st sentence,
    Forall (fun ex => lastIndex ex st = 0) excludes ->
    (anyExcluded excludes st sentence).2
    = existsb (fun ex => matchesSomewhere ex sentence) excludes.
Proof.
  induction excludes as [|ex rest IH]; intros st sentence F; [reflexivity|].
  inversion F as [|? ? L F']; subst. simpl.
  pose proof (test_untouched ex st sentence L) as T.
  pose proof (fun ex' => test_keeps_untouched ex st sentence ex') as K.
  destruct (RegExp.test ex st sentence) as [st' hit]. simpl in T, K. rewrite <- T.
  destruct hit; [reflexivity|]. simpl. apply IH.
  eapply Forall_impl; [exact F'|]. intros ex' L'. apply K; [reflexivity|exact L'].
Qed.

(** What C2 says does hold as long as the exclusion regexes have not hit
    before: with their [lastIndex] at 0 when the sentence is checked, a
    sentence that matches one of them gets score 0 and reason
    [excluded_by_pattern]. *)
Lemma exclusion_wins_on_untouched_regexes lib rs rs' s soundKey pattern m
    category data excludes :
  exec (regex pattern) rs s = (rs', Some m) ->
  getCategoryForSound lib soundKey = Some category ->
  Catalog.soundData lib category soundKey = Some data ->
  excludePatterns data = Some excludes ->
  Forall (fun ex => lastIndex ex rs' = 0) excludes ->
  Exists (fun ex => matchesSomewhere ex (extractSentence s (index m)) = true) excludes ->
  (analyzeContext lib rs s soundKey pattern).2
  = mkAnalysis 0 excluded_by_pattern (Some (buildContext s m)) None.
Proof.
  intros E C D X F M. unfold analyzeContext. rewrite E, C. simpl. rewrite D. simpl.
  rewrite X. change (sentence (buildContext s m)) with (extractSentence s (index m)).
  pose proof (anyExcluded_untouched excludes rs' (extractSentence s (index m)) F) as A.
  destruct (anyExcluded excludes rs' (extractSentence s (index m))) as [rs'' hit].
  simpl in A. subst hit.
  assert (B : existsb (fun ex => matchesSomewhere ex (extractSentence s (index m)))
                excludes = true).
  { apply existsb_exists. apply Exists_exists in M as [ex [I T]].
    exists ex. split; [|exact T]. apply list_elem_of_In. exact I. }
  rewrite B. reflexivity.
Qed.

(** C2 (the code departs from the claim): the exclusion regexes are
    global too, and [test] resumes at the [lastIndex] left by their last
    hit.  Called three times on "never ever stop laughing", the Scorer
    excludes the first time, finds no trigger the second time, and the
    third time misses the exclusion and returns 0.6 with reason
    [pattern_analyzed], although the sentence matches an exclusion
    pattern.  Through [processMessage] the same happens across two
    messages: after the first, the second starts the laugh sound for a
    sentence with "never laughed", which a fresh engine excludes. *)
Theorem exclusion_missed_after_earlier_hit :
  (let r1 := analyzeContext soundLibraryNoRustle ∅ stopLaughing "laugh" laughAction in
   let r2 := analyzeContext soundLibraryNoRustle r1.1 stopLaughing "laugh" laughAction in
   let r3 := analyzeContext soundLibraryNoRustle r2.1 stopLaughing "laugh" laughAction in
   reason r1.2 = excluded_by_pattern /\
   (exists context,
       acontext r3.2 = Some context /\
       Exists (fun ex => matchesSomewhere ex (sentence context) = true)
              (default [] (excludePatterns laugh))) /\
   score r3.2 = 0.6%float /\ reason r3.2 = pattern_analyzed) /\
  (let fresh := initialized soundLibraryNoRustle in
   let p1 := processMessage (playAt 1700000000000) soundLibraryNoRustle
               Settings.defaultSettingsNoAi fresh laughingAndLaughing in
   let p2 := processMessage (playAt 1700000005000) soundLibraryNoRustle
               Settings.defaultSettingsNoAi (final p1) neverLaughed in
   let p2' := processMessage (playAt 1700000005000) soundLibraryNoRustle
               Settings.defaultSettingsNoAi fresh neverLaughed in
   reason (analyzeContext soundLibraryNoRustle ∅ neverLaughed "laugh" laughAction).2
   = excluded_by_pattern /\
   dispatched (calls p1) = [] /\
   dispatched (calls p2) = ["laugh"%string] /\
   dispatched (calls p2') = []).
Proof.
  split.
  - split; [vm_compute; reflexivity|].
    split; [|vm_compute; split; reflexivity].
    eexists. split; [vm_compute; reflexivity|].
    apply Exists_cons_hd. vm_compute. reflexivity.
  - vm_compute. repeat split.
Qed.

(** *** The Scorer of index.js *)

Import ContextAnalyzerAI.

(** Whatever its arguments, [analyzeContext] of [index.js] either finds no
    trigger and resolves to [no_match], or is rejected; it never writes
    the oracle cache. *)
Lemma analyzeContext_rejects_on_match lib cfg oracle st s soundKey pattern :
  let r := ContextAnalyzerAI.analyzeContext lib cfg oracle st s soundKey pattern in
  aiAnalysisCache r.1 = aiAnalysisCache st /\
  ((exec (regex pattern) (regexes st) s).2 = None /\ r.2 = Resolved noMatchResult \/
   is_Some (exec (regex pattern) (regexes st) s).2 /\ r.2 = Rejected).
Proof.
  cbv zeta. unfold ContextAnalyzerAI.analyzeContext.
  destruct (exec (regex pattern) (regexes st) s) as [rs [m|]]; simpl.
  - split; [reflexivity|right; split; [eauto|reflexivity]].
  - split; [reflexivity|left; split; reflexivity].
Qed.

(** C8 (the code departs from the claim): in [index.js] the Scorer does
    raise an error and does not fall through to the heuristic.  For
    "then he walked" and the footsteps pattern the trigger matches, and
    [analyzeContext] is rejected by the TypeError of line 166 whatever the
    settings and however the oracle would have settled (thrown error,
    out-of-range or well-formed reply): the oracle is not consulted and
    nothing is cached.  No call ever resolves with anything but
    [no_match].  [analyzeWithAI] on its own returns [null] on every cache
    miss without reaching the oracle, and [parseAIResponse] on its own
    lets out-of-range replies through: it reads "1.5" as 1 and "2.0" as
    0. *)
Theorem scorer_rejects_instead_of_falling_back :
  matchesSomewhere (regex footstepsAction) heWalked = true /\
  (forall cfg oracle,
      let r := ContextAnalyzerAI.analyzeContext soundLibrary cfg oracle freshAnalyzer
                 heWalked "footsteps" footstepsAction in
      r.2 = Rejected /\ aiAnalysisCache r.1 = []) /\
  (forall lib cfg oracle st s soundKey pattern a,
      (ContextAnalyzerAI.analyzeContext lib cfg oracle st s soundKey pattern).2
      = Resolved a -> a = noMatchResult) /\
  (forall soundKey context, analyzeWithAI [] soundKey context = ([], None)) /\
  parseAIResponse (Some (str "1.5")) "footsteps" = Some 1%float /\
  parseAIResponse (Some (str "2.0")) "footsteps" = Some 0%float.
Proof.
  split; [vm_compute; reflexivity|].
  split; [intros cfg oracle; vm_compute; split; reflexivity|].
  split.
  { intros lib cfg oracle st s soundKey pattern a H.
    destruct (analyzeContext_rejects_on_match lib cfg oracle st s soundKey pattern)
      as [_ [[_ R]|[_ R]]]; rewrite R in H; [|discriminate].
    inversion H. reflexivity. }
  split; [intros soundKey context; reflexivity|].
  split; vm_compute; reflexivity.
Qed.

(** *** The test sentence *)


(** *** The test sentence *)



Import Cover.

(* ===================================================================== *)
(** ** Further properties of the code                                     *)
(* ===================================================================== *)

(** *** extractSentence *)

Lemma splitRuns_tokenSpan sep b s :
  tokenSpan (splitRuns sep b s) <= length s + 1.
Proof.
  revert b. induction s as [|c s IH]; intros b; simpl; [lia|].
  destruct (sep c).
  - destruct b; [specialize (IH true); lia|].
    specialize (IH true). simpl. lia.
  - specialize (IH false).
    destruct (splitRuns sep false s) as [|piece pieces]; simpl in *; lia.
Qed.

Lemma extractSentenceLoop_runs_out sentences :
  forall currentPos position,
    currentPos + tokenSpan sentences <= position + 1 ->
    extractSentenceLoop sentences currentPos position = [].
Proof.
  induction sentences as [|sentence rest IH]; intros cur position H; [reflexivity|].
  simpl in *. destruct (Nat.ltb_spec position (cur + length sentence)); [lia|].
  apply IH. lia.
Qed.

(** X1: an offset at or beyond the end of the text lies in no sentence:
    [extractSentence] returns the empty string, for every text. *)
Theorem extractSentence_past_end (s : text) (position : nat) :
  length s <= position -> extractSentence s position = [].
Proof.
  intros H. apply extractSentenceLoop_runs_out.
  pose proof (splitRuns_tokenSpan isTerminator false s). unfold split. lia.
Qed.

Lemma extractSentence_past_end_witness :
  length (str "Rain fell. She sighed.") <= 22 /\
  extractSentence (str "Rain fell. She sighed.") 22 = [].
Proof.
  split; [vm_compute; lia|].
  apply extractSentence_past_end. vm_compute; lia.
Defined.

Lemma splitRuns_pieces_clean sep b s :
  Forall (fun piece => forall c, In c piece -> sep c = false) (splitRuns sep b s).
Proof.
  revert b. induction s as [|c s IH]; intros b; simpl.
  - repeat constructor. intros c [].
  - destruct (sep c) eqn:E.
    + destruct b; [apply IH|]. constructor; [intros x []|apply IH].
    + specialize (IH false).
      destruct (splitRuns sep false s) as [|piece pieces];
        [repeat constructor; intros x [<-|[]]; exact E|].
      inversion IH as [|? ? Hp Hps]; subst. constructor; [|exact Hps].
      intros x [<-|Hx]; [exact E|apply Hp; exact Hx].
Qed.

Lemma trimStart_In s c : In c (trimStart s) -> In c s.
Proof.
  induction s as [|x s IH]; simpl; [tauto|].
  destruct (isSpace x); [intros H; right; apply IH; exact H|tauto].
Qed.

Lemma trim_In s c : In c (trim s) -> In c s.
Proof.
  unfold trim, trimEnd. intros H.
  apply trimStart_In. apply in_rev in H. apply trimStart_In in H.
  apply in_rev in H. exact H.
Qed.

Lemma trimStart_clean s : startsClean (trimStart s).
Proof.
  induction s as [|c s IH]; simpl; [exact I|].
  destruct (isSpace c) eqn:E; [exact IH|exact E].
Qed.

Lemma trimStart_keeps_last l c :
  isSpace c = false -> exists l', trimStart (l ++ [c]) = l' ++ [c].
Proof.
  intros E. induction l as [|x l [l' IH]]; simpl.
  - rewrite E. exists []. reflexivity.
  - destruct (isSpace x); [exists l'; exact IH|exists (x :: l); reflexivity].
Qed.

Lemma trim_clean s : startsClean (trim s) /\ endsClean (trim s).
Proof.
  unfold trim, trimEnd, endsClean. split.
  - pose proof (trimStart_clean s) as C.
    destruct (trimStart s) as [|c y]; [exact I|]. simpl in C. simpl rev.
    destruct (trimStart_keeps_last (rev y) c C) as [l' ->].
    rewrite rev_app_distr. simpl. exact C.
  - rewrite rev_involutive. apply trimStart_clean.
Qed.

Lemma extractSentenceLoop_shape sentences :
  forall currentPos position,
    extractSentenceLoop sentences currentPos position = [] \/
    exists sentence, In sentence sentences /\
      extractSentenceLoop sentences currentPos position = trim sentence.
Proof.
  induction sentences as [|sentence rest IH]; intros cur position; [left; reflexivity|].
  simpl. destruct (position <? cur + length sentence).
  - right. exists sentence. split; [left|]; reflexivity.
  - destruct (IH (cur + length sentence + 1) position) as [E|[x [I E]]];
      [left; exact E|right; exists x; split; [right; exact I|exact E]].
Qed.

(** X2: whatever the text and the offset, the sentence handed to the
    exclusion patterns and to the heuristics contains no sentence
    terminator ([.], [!], [?]) and has no white space at either end. *)
Theorem extractSentence_clean (s : text) (position : nat) :
  (forall c, In c (extractSentence s position) -> isTerminator c = false) /\
  startsClean (extractSentence s position) /\
  endsClean (extractSentence s position).
Proof.
  unfold extractSentence.
  destruct (extractSentenceLoop_shape (split isTerminator s) 0 position)
    as [->|[sentence [I ->]]].
  - split; [intros c []|split; exact I].
  - split; [|apply trim_clean].
    intros c Hc. apply trim_In in Hc.
    pose proof (splitRuns_pieces_clean isTerminator false s) as F.
    rewrite Forall_forall in F. apply (F sentence); [|exact Hc].
    apply list_elem_of_In. exact I.
Qed.

Lemma extractSentenceLoop_skip P :
  forall L currentPos position,
    currentPos + tokenSpan P <= position ->
    extractSentenceLoop (P ++ L) currentPos position
    = extractSentenceLoop L (currentPos + tokenSpan P) position.
Proof.
  induction P as [|p P IH]; intros L cur position H; simpl in *.
  - f_equal. lia.
  - destruct (Nat.ltb_spec position (cur + length p)); [lia|].
    rewrite IH by lia. f_equal. lia.
Qed.

Lemma singleRuns_app sep s1 :
  forall b s2, singleRuns sep b (s1 ++ s2) -> singleRuns sep b s1.
Proof.
  induction s1 as [|c s1 IH]; intros b s2 H; simpl in *; [exact I|].
  destruct (sep c); [destruct H as [Hb H]; split; [exact Hb|]|]; eapply IH; exact H.
Qed.

(** The pieces closed inside a prefix that ends with a separator account
    for every character of the prefix. *)
Lemma splitRuns_closed_prefix sep pre :
  forall b tail,
    pre <> [] -> closedBy sep pre -> singleRuns sep b pre ->
    exists P, splitRuns sep b (pre ++ tail) = P ++ splitRuns sep true tail /\
              tokenSpan P = length pre.
Proof.
  induction pre as [|c pre IH]; intros b tail Hne Hc Hs; [congruence|].
  assert (Hc' : pre <> [] -> closedBy sep pre).
  { intros N. right. destruct Hc as [Hc|[s' [t [Hc Ht]]]]; [discriminate|].
    destruct s' as [|x s']; simpl in Hc; inversion Hc; subst.
    - congruence.
    - exists s', t. split; [reflexivity|exact Ht]. }
  simpl in *. destruct (sep c) eqn:E.
  - destruct Hs as [-> Hs].
    destruct pre as [|c' pre].
    + exists [[]]. split; reflexivity.
    + destruct (IH true tail ltac:(discriminate) (Hc' ltac:(discriminate)) Hs)
        as [P [HP Hspan]].
      exists ([] :: P). rewrite HP. split; [reflexivity|]. simpl. simpl in Hspan. lia.
  - destruct pre as [|c' pre].
    + exfalso. destruct Hc as [Hc|[s' [t [Hc Ht]]]]; [discriminate|].
      destruct s' as [|x s']; simpl in Hc; inversion Hc; subst;
        [congruence|destruct s'; discriminate].
    + destruct (IH false tail ltac:(discriminate) (Hc' ltac:(discriminate)) Hs)
        as [P [HP Hspan]].
      rewrite HP. destruct P as [|p P]; [simpl in Hspan; discriminate|].
      exists ((c :: p) :: P). split; [reflexivity|]. simpl in *. lia.
Qed.

Lemma splitRuns_head_piece sep piece :
  forall b post,
    (forall c, In c piece -> sep c = false) ->
    openedBy sep post ->
    piece <> [] \/ b = false ->
    exists rest, splitRuns sep b (piece ++ post) = piece :: rest.
Proof.
  induction piece as [|c piece IH]; intros b post Hp Ho Hb.
  - destruct Hb as [Hb| ->]; [congruence|]. simpl.
    destruct Ho as [->|[t [post' [-> Ht]]]]; simpl; [eexists; reflexivity|].
    rewrite Ht. eexists; reflexivity.
  - simpl. rewrite (Hp c (or_introl eq_refl)).
    destruct (IH false post (fun x Hx => Hp x (or_intror Hx)) Ho (or_intror eq_refl))
      as [rest ->].
    eexists; reflexivity.
Qed.

(** X3: when every run of sentence terminators in the text is a single
    character, [extractSentence] returns (trimmed) exactly the sentence in
    which the offset lies.  The loop counts one character per terminator
    run, so this does not carry over to texts with runs such as "..." or
    "!!". *)
Theorem extractSentence_single_terminators (pre piece post : text) (position : nat) :
  singleRuns isTerminator false (pre ++ piece ++ post) ->
  closedBy isTerminator pre ->
  openedBy isTerminator post ->
  (forall c, In c piece -> isTerminator c = false) ->
  length pre <= position < length pre + length piece ->
  extractSentence (pre ++ piece ++ post) position = trim piece.
Proof.
  intros Hs Hc Ho Hp [Hlo Hhi]. unfold extractSentence, split.
  assert (Hne : piece <> []) by (destruct piece; [simpl in Hhi; lia|discriminate]).
  destruct pre as [|c pre].
  - simpl app.
    destruct (splitRuns_head_piece isTerminator piece false post Hp Ho (or_introl Hne))
      as [rest ->].
    simpl. simpl in Hhi. destruct (Nat.ltb_spec position (length piece)); [reflexivity|lia].
  - pose proof (singleRuns_app _ _ _ _ Hs) as Hs1.
    destruct (splitRuns_closed_prefix isTerminator (c :: pre) false (piece ++ post)
                ltac:(discriminate) Hc Hs1) as [P [-> Hspan]].
    destruct (splitRuns_head_piece isTerminator piece true post Hp Ho (or_introl Hne))
      as [rest ->].
    rewrite extractSentenceLoop_skip by lia. rewrite Hspan. cbn [extractSentenceLoop].
    destruct (Nat.ltb_spec position (0 + length (c :: pre) + length piece)) as [_|N];
      [reflexivity|simpl in *; lia].
Qed.

Lemma extractSentence_single_terminators_witness :
  extractSentence (str "Rain fell. She sighed! Then silence.") 15 = str "She sighed".
Proof.
  refine (extractSentence_single_terminators (str "Rain fell.") (str " She sighed")
            (str "! Then silence.") 15 _ _ _ _ _).
  - vm_compute. repeat split.
  - right. exists (str "Rain fell"), "."%char. split; reflexivity.
  - right. exists "!"%char, (str " Then silence."). split; reflexivity.
  - intros c Hc. simpl in Hc.
    repeat (destruct Hc as [<-|Hc]; [reflexivity|]). destruct Hc.
  - vm_compute. split; lia.
Defined.

(** *** Heuristic scores *)

Ltac split_ifs :=
  repeat match goal with
         | |- context [if ?b then _ else _] => destruct b
         end.

Lemma heuristicScore_range pattern context soundKey :
  PrimFloat.leb 0.5 (ContextAnalyzer.heuristicScore pattern context soundKey) = true /\
  PrimFloat.leb (ContextAnalyzer.heuristicScore pattern context soundKey) 1 = true.
Proof.
  unfold ContextAnalyzer.heuristicScore, patternBonus, analyzeActionContext,
    analyzeDialogueContext, analyzeAmbientContext, analyzeSentiment, bonus.
  destruct (Catalog.context pattern); split_ifs; vm_compute; split; reflexivity.
Qed.

(** X4: the Scorer without the oracle only ever returns two kinds of
    result: score exactly 0 with reason [no_match] or
    [excluded_by_pattern], or reason [pattern_analyzed] with a score
    between 0.5 and 1.  There is no score strictly between 0 and 0.5. *)
Theorem analyzeContext_score_range lib rs s soundKey pattern :
  let a := (ContextAnalyzer.analyzeContext lib rs s soundKey pattern).2 in
  ((reason a = no_match \/ reason a = excluded_by_pattern) /\ score a = 0%float) \/
  (reason a = pattern_analyzed /\
   PrimFloat.leb 0.5 (score a) = true /\ PrimFloat.leb (score a) 1 = true).
Proof.
  unfold ContextAnalyzer.analyzeContext.
  destruct (exec (regex pattern) rs s) as [rs' [m|]]; simpl;
    [|left; split; [left|]; reflexivity].
  destruct (match _ with Some excludes => _ | None => _ end) as [rs'' excluded].
  destruct excluded; simpl; [left; split; [right|]; reflexivity|].
  right. split; [reflexivity|apply heuristicScore_range].
Qed.

Lemma direct_score pattern context soundKey :
  Catalog.context pattern = direct ->
  PrimFloat.leb 0.8 (ContextAnalyzer.heuristicScore pattern context soundKey) = true.
Proof.
  intros D.
  unfold ContextAnalyzer.heuristicScore, patternBonus, analyzeSentiment, bonus.
  rewrite D. split_ifs; vm_compute; reflexivity.
Qed.

(** X5: a direct mention ("haha", "footsteps") that is scored by the
    heuristic always reaches 0.8, the default sensitivity: whatever the
    text around it, a direct pattern that matches and is not excluded
    qualifies under the default settings. *)
Theorem direct_pattern_reaches_default_sensitivity lib rs s soundKey pattern :
  Catalog.context pattern = direct ->
  reason (ContextAnalyzer.analyzeContext lib rs s soundKey pattern).2 = pattern_analyzed ->
  PrimFloat.leb (Settings.contextSensitivity Settings.defaultSettingsNoAi)
    (score (ContextAnalyzer.analyzeContext lib rs s soundKey pattern).2) = true.
Proof.
  intros D. unfold ContextAnalyzer.analyzeContext.
  destruct (exec (regex pattern) rs s) as [rs' [m|]]; simpl; [|discriminate].
  destruct (match _ with Some excludes => _ | None => _ end) as [rs'' excluded].
  destruct excluded; simpl; [discriminate|].
  intros _. apply direct_score. exact D.
Qed.

Lemma direct_pattern_reaches_default_sensitivity_witness :
  Catalog.context (nthPattern laugh 1) = direct /\
  reason (ContextAnalyzer.analyzeContext soundLibrary ∅ (str "He typed: lol")
            "laugh" (nthPattern laugh 1)).2 = pattern_analyzed /\
  PrimFloat.leb (Settings.contextSensitivity Settings.defaultSettingsNoAi)
    (score (ContextAnalyzer.analyzeContext soundLibrary ∅ (str "He typed: lol")
              "laugh" (nthPattern laugh 1)).2) = true.
Proof.
  assert (D : Catalog.context (nthPattern laugh 1) = direct) by reflexivity.
  assert (R : reason (ContextAnalyzer.analyzeContext soundLibrary ∅ (str "He typed: lol")
                        "laugh" (nthPattern laugh 1)).2 = pattern_analyzed)
    by (vm_compute; reflexivity).
  split; [exact D|]. split; [exact R|].
  exact (direct_pattern_reaches_default_sensitivity soundLibrary ∅ (str "He typed: lol")
           "laugh"%string (nthPattern laugh 1) D R).
Defined.

Lemma ambient_score_low lib rs s soundKey pattern :
  Catalog.context pattern = ambient ->
  sentimentFree soundKey = true ->
  PrimFloat.leb 0.8 (score (ContextAnalyzer.analyzeContext lib rs s soundKey pattern).2)
  = false.
Proof.
  intros A F. unfold ContextAnalyzer.analyzeContext.
  destruct (exec (regex pattern) rs s) as [rs' [m|]]; simpl; [|reflexivity].
  destruct (match _ with Some excludes => _ | None => _ end) as [rs'' excluded].
  destruct excluded; simpl; [reflexivity|].
  unfold ContextAnalyzer.heuristicScore, patternBonus, analyzeAmbientContext,
    analyzeSentiment, bonus. rewrite A.
  unfold sentimentFree in F. apply negb_true_iff in F.
  repeat (apply orb_false_iff in F; destruct F as [F ?]).
  repeat match goal with H : includes _ _ = false |- _ => rewrite H; clear H end.
  simpl orb. cbv iota. split_ifs; vm_compute; reflexivity.
Qed.

Lemma bestMatchLoop_ambient lib cfg s soundKey patterns :
  Settings.contextSensitivity cfg = 0.8%float ->
  sentimentFree soundKey = true ->
  Forall (fun pattern => Catalog.context pattern = ambient) patterns ->
  forall rs bestScore,
    (bestMatchLoop lib cfg rs s soundKey patterns None bestScore).1.2 = None.
Proof.
  intros S F A. induction A as [|pattern rest Hp _ IH]; intros rs bestScore; [reflexivity|].
  simpl. pose proof (ambient_score_low lib rs s soundKey pattern Hp F) as L.
  destruct (ContextAnalyzer.analyzeContext lib rs s soundKey pattern) as [rs' a].
  simpl in L. rewrite S, L, andb_false_r. apply IH.
Qed.

Lemma playSound_ambient_never_starts lib cfg env st soundKey s variation :
  Settings.contextSensitivity cfg = 0.8%float ->
  sentimentFree soundKey = true ->
  (forall category data,
      getCategoryForSound lib soundKey = Some category ->
      Catalog.soundData lib category soundKey = Some data ->
      Forall (fun pattern => Catalog.context pattern = ambient) (patterns data)) ->
  isStarted (playSound lib cfg env st soundKey s variation).2 = false.
Proof.
  intros S F A. unfold playSound.
  destruct (gates lib cfg st soundKey (now env soundKey)) as [exit|data] eqn:G.
  - exact (gates_exit_not_started _ _ _ _ _ _ G).
  - assert (Hd : Forall (fun pattern => Catalog.context pattern = ambient) (patterns data)).
    { destruct (gates_data _ _ _ _ _ _ G) as [category [C D]].
      exact (A category data C D). }
    pose proof (bestMatchLoop_ambient lib cfg s soundKey (patterns data) S F Hd
                  (AudioManager.regexes st) 0%float) as N.
    destruct (bestMatchLoop _ _ _ _ _ _ _ _) as [[rs bm] bs]. simpl in N. subst bm.
    reflexivity.
Qed.

(** X6: with the sensitivity at its default 0.8 and the oracle-less
    Scorer, [playSound] never starts the wind or the rain sound, whatever
    the message and the state: an ambient pattern scores at most
    0.5 + 0.2 = 0.7. *)
Theorem ambient_sounds_never_start cfg env st soundKey s variation :
  Settings.contextSensitivity cfg = 0.8%float ->
  soundKey = "wind"%string \/ soundKey = "rain"%string ->
  isStarted (playSound soundLibraryNoRustle cfg env st soundKey s variation).2 = false.
Proof.
  intros S K. apply playSound_ambient_never_starts; [exact S| |].
  - destruct K as [->| ->]; reflexivity.
  - intros category data C D.
    destruct K as [->| ->]; vm_compute in C; inversion C; subst;
      vm_compute in D; inversion D; subst; repeat constructor.
Qed.

Lemma ambient_sounds_never_start_witness :
  Settings.contextSensitivity Settings.defaultSettingsNoAi = 0.8%float /\
  isStarted (playSound soundLibraryNoRustle Settings.defaultSettingsNoAi
               (envAt 1700000000000 0) (initialized soundLibraryNoRustle) "wind"
               (str "Outside, the cold wind blew and the wind howled.") None).2 = false.
Proof.
  split; [reflexivity|].
  exact (ambient_sounds_never_start Settings.defaultSettingsNoAi (envAt 1700000000000 0)
           (initialized soundLibraryNoRustle) "wind"%string
           (str "Outside, the cold wind blew and the wind howled.") None
           eq_refl (or_introl eq_refl)).
Defined.

(** *** Catalog lookup *)

Lemma assoc_refl {A} k (v : A) l : assoc k ((k, v) :: l) = Some v.
Proof. simpl. rewrite String.eqb_refl. reflexivity. Qed.

Lemma getCategoryForSound_In lib soundKey category :
  getCategoryForSound lib soundKey = Some category -> In category (map fst lib).
Proof.
  induction lib as [|[c sounds] lib IH]; simpl; [discriminate|].
  destruct (hasEntry sounds soundKey); [intros H; inversion H; left; reflexivity|].
  intros H. right. apply IH. exact H.
Qed.

(** X7: [getCategoryForSound] of [src/unnamed/part_000] returns the first
    category, in catalog order, whose object answers the lookup of the
    key: with a sound of that name, or with what every object inherits
    under that name.  So for a name such as "constructor" it returns the
    first category of the catalog although no sound has that name, and it
    returns null only for a name that no category has and no object
    inherits (or when the catalog is empty). *)
Theorem getCategoryForSound_sound lib soundKey :
  match getCategoryForSound lib soundKey with
  | Some category =>
      exists before sounds after,
        lib = before ++ (category, sounds) :: after /\
        Forall (fun c => assoc soundKey c.2 = None) before /\
        (inherited soundKey = true /\ before = [] \/
         inherited soundKey = false /\ is_Some (assoc soundKey sounds))
  | None =>
      Forall (fun c => assoc soundKey c.2 = None /\ inherited soundKey = false) lib
  end.
Proof.
  induction lib as [|[c sounds] lib IH]; simpl; [constructor|].
  unfold hasEntry. destruct (assoc soundKey sounds) as [data|] eqn:A.
  - exists [], sounds, lib. split; [reflexivity|]. split; [constructor|].
    destruct (inherited soundKey); [left; split; reflexivity|right].
    split; [reflexivity|rewrite A; eauto].
  - destruct (inherited soundKey) eqn:I.
    + exists [], sounds, lib. split; [reflexivity|]. split; [constructor|].
      left. split; reflexivity.
    + destruct (getCategoryForSound lib soundKey) as [category|].
      * destruct IH as [before [sounds' [after [E [F H]]]]].
        exists ((c, sounds) :: before), sounds', after.
        split; [rewrite E; reflexivity|]. split; [constructor; [exact A|exact F]|].
        destruct H as [[H _]|H]; [congruence|right; exact H].
      * constructor; [split; [exact A|reflexivity]|exact IH].
Qed.

(** *** parseAIResponse *)

Lemma scorePattern_needs_digit prev rest pos :
  match rest with
  | [] => True
  | x :: _ => ascii_eqb "0" x = false /\ ascii_eqb "1" x = false
  end ->
  matchHere false scorePattern prev rest pos = None.
Proof.
  intros H. unfold matchHere, scorePattern.
  cbn [alts seqs matchAt lit lit_ str list_ascii_of_string plus].
  destruct rest as [|x rest].
  - destruct (atWordBoundary prev []); reflexivity.
  - destruct H as [H0 H1]. unfold charMatches. rewrite H0, H1.
    destruct (atWordBoundary prev (x :: rest)); reflexivity.
Qed.

Lemma search_scorePattern_None rest :
  forall prev pos,
    (forall x, In x rest -> ascii_eqb "0" x = false /\ ascii_eqb "1" x = false) ->
    search false scorePattern prev rest pos = None.
Proof.
  induction rest as [|x rest IH]; intros prev pos H; simpl.
  - rewrite scorePattern_needs_digit by exact I. reflexivity.
  - rewrite scorePattern_needs_digit by (apply H; left; reflexivity).
    apply IH. intros y Hy. apply H. right. exact Hy.
Qed.

(** X11: a reply in which neither the digit 0 nor the digit 1 occurs is
    never read as a score: [parseAIResponse] returns null, whatever else
    the reply contains (for instance "75%" or "2.5"). *)
Theorem parseAIResponse_needs_0_or_1 response soundKey :
  (forall x, In x response -> ascii_eqb "0" x = false /\ ascii_eqb "1" x = false) ->
  parseAIResponse (Some response) soundKey = None.
Proof.
  intros H. unfold parseAIResponse, matchFresh.
  rewrite search_scorePattern_None by exact H. reflexivity.
Qed.

Lemma parseAIResponse_needs_0_or_1_witness :
  parseAIResponse (Some (str "2.5")) "laugh" = None.
Proof.
  apply parseAIResponse_needs_0_or_1.
  intros x Hx. simpl in Hx.
  repeat (destruct Hx as [<-|Hx]; [split; reflexivity|]). destruct Hx.
Defined.

(** *** processMessage *)

Section AnyPlayer.
Variable play : Player.

Lemma soundsLoop_calls sounds :
  forall st s promises,
    exists new,
      (soundsLoop play sounds st s promises).2 = promises ++ new /\
      map fst new `sublist_of` map fst sounds.
Proof.
  induction sounds as [|[soundKey data] rest IH]; intros st s promises.
  - exists []. split; [symmetry; apply app_nil_r|constructor].
  - simpl. destruct (anyTrigger (patterns data) (AudioManager.regexes st) s) as [rs hit].
    destruct hit.
    + destruct (play (withRegexes st rs) soundKey s) as [st' played].
      destruct (IH st' s (promises ++ [(soundKey, played)])) as [new [E S]].
      exists ((soundKey, played) :: new). rewrite E, <- app_assoc.
      split; [reflexivity|]. simpl. apply sublist_skip. exact S.
    + destruct (IH (withRegexes st rs) s promises) as [new [E S]].
      exists new. split; [exact E|]. simpl. apply sublist_cons. exact S.
Qed.

Lemma categoriesLoop_calls cfg lib :
  forall st s promises,
    exists new,
      (categoriesLoop play cfg lib st s promises).2 = promises ++ new /\
      map fst new `sublist_of` enabledKeys lib cfg.
Proof.
  induction lib as [|[category sounds] rest IH]; intros st s promises.
  - exists []. split; [symmetry; apply app_nil_r|constructor].
  - simpl. unfold enabledKeys. simpl. fold (enabledKeys rest cfg).
    destruct (Settings.categoryEnabled cfg category); simpl.
    + destruct (soundsLoop_calls sounds st s promises) as [new1 [E1 S1]].
      destruct (soundsLoop play sounds st s promises) as [st' promises'].
      simpl in E1. subst promises'.
      destruct (IH st' s (promises ++ new1)) as [new2 [E2 S2]].
      exists (new1 ++ new2). rewrite E2, <- app_assoc. split; [reflexivity|].
      rewrite map_app. apply sublist_app; assumption.
    + apply IH.
Qed.

(** X12: in one message [processMessage] calls [playSound] only for
    sound keys of enabled categories, each key at most as often as the
    catalog lists it, and in catalog order: the keys called form a
    sublist of the enabled catalog keys. *)
Theorem processMessage_calls_catalog_order lib cfg st s :
  map fst (calls (processMessage play lib cfg st s)) `sublist_of` enabledKeys lib cfg.
Proof.
  unfold processMessage. destruct (_ || _); [apply sublist_nil_l|].
  destruct (categoriesLoop_calls cfg lib st s []) as [new [E S]].
  destruct (categoriesLoop play cfg lib st s []) as [st' promises].
  simpl in *. subst promises. exact S.
Qed.

(** X13: what [maxConcurrentSounds] does bound is the list of promises
    [processMessage] waits for: it is a prefix of the calls made, and for
    a non-negative [maxConcurrentSounds] it has at most that many
    elements. *)
Theorem processMessage_awaited_bounded lib cfg st s :
  (0 <= Settings.maxConcurrentSounds cfg)%Z ->
  let p := processMessage play lib cfg st s in
  awaited p `prefix_of` calls p /\
  (Z.of_nat (length (awaited p)) <= Settings.maxConcurrentSounds cfg)%Z.
Proof.
  intros M. unfold processMessage. destruct (_ || _); [split; [reflexivity|simpl; lia]|].
  destruct (categoriesLoop play cfg lib st s []) as [st' promises]. simpl.
  unfold spliceFrom.
  destruct (Z.gtb_spec (Z.of_nat (length promises)) (Settings.maxConcurrentSounds cfg)).
  - destruct (Z.ltb_spec (Settings.maxConcurrentSounds cfg) 0); [lia|].
    split; [apply prefix_take|]. rewrite length_take. lia.
  - split; [reflexivity|lia].
Qed.
End AnyPlayer.

Lemma processMessage_awaited_bounded_witness :
  (0 <= Settings.maxConcurrentSounds Settings.defaultSettingsNoAi)%Z /\
  length (calls fourSoundsRun) = 4 /\
  (Z.of_nat (length (awaited fourSoundsRun)) <= 3)%Z.
Proof.
  split; [vm_compute; discriminate|]. split; [vm_compute; reflexivity|].
  exact (proj2 (processMessage_awaited_bounded (playAt 1700000000000) soundLibraryNoRustle
                  Settings.defaultSettingsNoAi (initialized soundLibraryNoRustle)
                  fourSounds ltac:(vm_compute; discriminate))).
Defined.

Lemma anyTrigger_none s patterns :
  Forall (fun pattern => matchesSomewhere (regex pattern) s = false) patterns ->
  forall rs, (anyTrigger patterns rs s).2 = false.
Proof.
  intros F. induction F as [|pattern rest Hp _ IH]; intros rs; [reflexivity|].
  simpl. unfold RegExp.test.
  pose proof (exec_no_match (regex pattern) rs s Hp) as E.
  destruct (exec (regex pattern) rs s) as [rs' m]. simpl in E. subst m. simpl.
  apply IH.
Qed.

Section Unmatched.
Variable play : Player.
Variables (s : text) (soundKey : string).

Lemma soundsLoop_skips_unmatched sounds :
  (forall data, In (soundKey, data) sounds ->
     Forall (fun pattern => matchesSomewhere (regex pattern) s = false) (patterns data)) ->
  forall st promises,
    ~ In soundKey (map fst promises) ->
    ~ In soundKey (map fst (soundsLoop play sounds st s promises).2).
Proof.
  induction sounds as [|[k data] rest IH]; intros H st promises N; [exact N|].
  simpl. pose proof (anyTrigger_none s (patterns data)) as T.
  destruct (anyTrigger (patterns data) (AudioManager.regexes st) s) as [rs hit] eqn:A.
  assert (Hrest : forall d, In (soundKey, d) rest ->
            Forall (fun pattern => matchesSomewhere (regex pattern) s = false) (patterns d))
    by (intros d I; apply H; right; exact I).
  destruct hit.
  - assert (K : k <> soundKey).
    { intros ->. specialize (T (H data (or_introl eq_refl)) (AudioManager.regexes st)).
      rewrite A in T. discriminate. }
    destruct (play (withRegexes st rs) k s) as [st' played].
    apply IH; [exact Hrest|]. rewrite map_app, in_app_iff. simpl. tauto.
  - apply IH; assumption.
Qed.

(** X14: a sound none of whose trigger patterns matches anywhere in the
    message is never handed to [playSound], whatever the state of the
    regex objects. *)
Theorem processMessage_skips_unmatched lib cfg st :
  (forall category sounds data,
      In (category, sounds) lib -> In (soundKey, data) sounds ->
      Forall (fun pattern => matchesSomewhere (regex pattern) s = false) (patterns data)) ->
  ~ In soundKey (map fst (calls (processMessage play lib cfg st s))).
Proof.
  intros H. unfold processMessage. destruct (_ || _); [intros []|].
  assert (G : forall l st promises,
             (forall category sounds data,
                 In (category, sounds) l -> In (soundKey, data) sounds ->
                 Forall (fun pattern => matchesSomewhere (regex pattern) s = false)
                        (patterns data)) ->
             ~ In soundKey (map fst promises) ->
             ~ In soundKey (map fst (categoriesLoop play cfg l st s promises).2)).
  { induction l as [|[category sounds] rest IH]; intros st0 promises Hl N; [exact N|].
    simpl. destruct (negb _).
    - apply IH; [intros c ss d I J; apply (Hl c ss d); [right; exact I|exact J]|exact N].
    - pose proof (soundsLoop_skips_unmatched sounds
                    (fun d I => Hl category sounds d (or_introl eq_refl) I)
                    st0 promises N) as S.
      destruct (soundsLoop play sounds st0 s promises) as [st' promises'].
      apply IH; [intros c ss d I J; apply (Hl c ss d); [right; exact I|exact J]|exact S]. }
  specialize (G lib st [] H (fun x => x)).
  destruct (categoriesLoop play cfg lib st s []) as [st' promises]. exact G.
Qed.
End Unmatched.

Lemma processMessage_skips_unmatched_witness :
  ~ In "door"%string (map fst (calls testMessageRun)).
Proof.
  apply processMessage_skips_unmatched.
  intros category sounds data Hc Hs.
  simpl in Hc.
  repeat (destruct Hc as [Hc|Hc]; [inversion Hc; subst; clear Hc; simpl in Hs|]);
    try contradiction;
    repeat (destruct Hs as [Hs|Hs]; [inversion Hs; subst; clear Hs|]);
    try contradiction.
  repeat constructor.
Defined.

(** *** What a started sound implies *)

Lemma heuristicScore_not_negative pattern context soundKey :
  PrimFloat.ltb (ContextAnalyzer.heuristicScore pattern context soundKey) 0 = false /\
  PrimFloat.ltb 0 (ContextAnalyzer.heuristicScore pattern context soundKey) = true.
Proof.
  unfold ContextAnalyzer.heuristicScore, patternBonus, analyzeActionContext,
    analyzeDialogueContext, analyzeAmbientContext, analyzeSentiment, bonus.
  destruct (Catalog.context pattern); split_ifs; vm_compute; split; reflexivity.
Qed.

(** An analysis is either a zero score or a heuristic score. *)
Lemma analyzeContext_cases lib rs s soundKey pattern :
  let a := (ContextAnalyzer.analyzeContext lib rs s soundKey pattern).2 in
  (score a = 0%float) \/
  (reason a = pattern_analyzed /\ PrimFloat.ltb (score a) 0 = false /\
   PrimFloat.ltb 0 (score a) = true).
Proof.
  unfold ContextAnalyzer.analyzeContext.
  destruct (exec (regex pattern) rs s) as [rs' [m|]]; simpl; [|left; reflexivity].
  destruct (match _ with Some excludes => _ | None => _ end) as [rs'' excluded].
  destruct excluded; simpl; [left; reflexivity|].
  right. split; [reflexivity|apply heuristicScore_not_negative].
Qed.

Lemma bestMatchLoop_qualifies lib cfg s soundKey all patterns :
  (forall pattern, In pattern patterns -> In pattern all) ->
  forall rs bestMatch bestScore,
    PrimFloat.ltb bestScore 0 = false ->
    (forall a, bestMatch = Some a ->
       qualifies lib s soundKey all (Settings.contextSensitivity cfg) a) ->
    forall a,
      (bestMatchLoop lib cfg rs s soundKey patterns bestMatch bestScore).1.2 = Some a ->
      qualifies lib s soundKey all (Settings.contextSensitivity cfg) a.
Proof.
  induction patterns as [|pattern rest IH]; intros Hin rs bestMatch bestScore B Q a;
    [exact (Q a)|].
  simpl. pose proof (analyzeContext_cases lib rs s soundKey pattern) as C.
  destruct (ContextAnalyzer.analyzeContext lib rs s soundKey pattern) as [rs' an] eqn:E.
  simpl in C.
  destruct (PrimFloat.ltb bestScore (score an)) eqn:G; simpl;
    [|apply IH; [intros p I; apply Hin; right; exact I|exact B|exact Q]].
  destruct (PrimFloat.leb (Settings.contextSensitivity cfg) (score an)) eqn:T;
    [|apply IH; [intros p I; apply Hin; right; exact I|exact B|exact Q]].
  destruct C as [Z|[R [N _]]]; [rewrite Z in G; congruence|].
  apply IH; [intros p I; apply Hin; right; exact I|exact N|].
  intros a' Ha'. inversion Ha'; subst a'.
  exists pattern, rs. split; [apply Hin; left; reflexivity|].
  split; [rewrite E; reflexivity|]. split; assumption.
Qed.

(** X15: [playSound] starts a sound only if its buffer is loaded and some
    trigger pattern of the sound was scored by the heuristic
    ([pattern_analyzed]) at or above the sensitivity.  A sound whose
    analyses all end in [no_match] or [excluded_by_pattern] is never
    started, not even with the sensitivity set to 0. *)
Theorem playSound_started_qualifies lib cfg env st soundKey s variation audioKey :
  (playSound lib cfg env st soundKey s variation).2 = Started audioKey ->
  audioKey ∈ audioBuffers st /\
  exists category data a,
    getCategoryForSound lib soundKey = Some category /\
    Catalog.soundData lib category soundKey = Some data /\
    qualifies lib s soundKey (patterns data) (Settings.contextSensitivity cfg) a.
Proof.
  unfold playSound.
  destruct (gates lib cfg st soundKey (now env soundKey)) as [exit|data] eqn:G.
  - simpl. intros ->. pose proof (gates_exit_not_started _ _ _ _ _ _ G). discriminate.
  - assert (Hd : exists category,
               getCategoryForSound lib soundKey = Some category /\
               Catalog.soundData lib category soundKey = Some data).
    { exact (gates_data _ _ _ _ _ _ G). }
    pose proof (bestMatchLoop_qualifies lib cfg s soundKey (patterns data) (patterns data)
                  (fun p I => I) (AudioManager.regexes st) None 0%float eq_refl
                  ltac:(intros a; discriminate)) as Q.
    destruct (bestMatchLoop _ _ _ _ _ _ _ _) as [[rs bm] bs]. simpl in Q.
    destruct bm as [a|]; simpl; [|discriminate].
    destruct (PrimFloat.ltb bs _); simpl; [discriminate|].
    unfold dispatch. simpl.
    destruct (bool_decide _) eqn:Bf; simpl; [|discriminate].
    destruct (backendPlays env soundKey); [|discriminate].
    intros H. inversion H; subst.
    split; [apply bool_decide_eq_true in Bf; exact Bf|].
    destruct Hd as [category [C D]]. exists category, data, a.
    split; [exact C|]. split; [exact D|]. apply Q. reflexivity.
Qed.

Lemma playSound_started_qualifies_witness :
  (playAt 1700000000000 (initialized soundLibraryNoRustle) "sigh" heSighed).2
  = Started "sigh_sigh1.mp3" /\
  "sigh_sigh1.mp3"%string ∈ audioBuffers (initialized soundLibraryNoRustle).
Proof.
  assert (S : (playAt 1700000000000 (initialized soundLibraryNoRustle) "sigh" heSighed).2
              = Started "sigh_sigh1.mp3") by (vm_compute; reflexivity).
  split; [exact S|].
  exact (proj1 (playSound_started_qualifies soundLibraryNoRustle
                  Settings.defaultSettingsNoAi (envAt 1700000000000 0)
                  (initialized soundLibraryNoRustle) "sigh"%string heSighed None
                  "sigh_sigh1.mp3"%string S)).
Defined.

(** *** Witnesses for properties proved with the claims *)

Lemma exclusion_wins_on_untouched_regexes_witness :
  (ContextAnalyzer.analyzeContext soundLibraryNoRustle ∅ stopLaughing "laugh"
     laughAction).2
  = mkAnalysis 0 excluded_by_pattern
      (Some (buildContext stopLaughing (mkMatch 16 (str "laughing")))) None.
Proof.
  assert (E : exec (regex laughAction) ∅ stopLaughing
              = (<["laugh.patterns[0]"%string := 24]> ∅,
                 Some (mkMatch 16 (str "laughing"))))
    by (vm_compute; reflexivity).
  assert (C : getCategoryForSound soundLibraryNoRustle "laugh" = Some "emotions"%string)
    by reflexivity.
  assert (D : Catalog.soundData soundLibraryNoRustle "emotions" "laugh" = Some laugh)
    by reflexivity.
  assert (X : exists excludes, excludePatterns laugh = Some excludes /\
                Forall (fun ex => lastIndex ex (<["laugh.patterns[0]"%string := 24]> ∅) = 0)
                       excludes /\
                Exists (fun ex => matchesSomewhere ex
                                    (extractSentence stopLaughing
                                       (index (mkMatch 16 (str "laughing")))) = true)
                       excludes).
  { eexists. split; [reflexivity|]. split.
    - repeat constructor.
    - apply Exists_cons_hd. vm_compute. reflexivity. }
  destruct X as [excludes [X [F M]]].
  exact (exclusion_wins_on_untouched_regexes soundLibraryNoRustle ∅ _ stopLaughing
           "laugh"%string laughAction _ _ _ _ E C D X F M).
Defined.

Lemma chooseVariant_avoids_nonzero_last_witness :
  SmartTriggers.lastVariantIndex
    (SmartTriggers.chooseVariant 1
       (SmartTriggers.mkState ∅ {[ "laugh"%string := 1%Z ]}
          {[ "laugh"%string := [laugh1; laugh2] ]}) "laugh").1 !! "laugh"%string
  <> Some 1%Z.
Proof.
  refine (chooseVariant_avoids_nonzero_last 1
            (SmartTriggers.mkState ∅ {[ "laugh"%string := 1%Z ]}
               {[ "laugh"%string := [laugh1; laugh2] ]})
            "laugh"%string [laugh1; laugh2] 1%Z _ _ _ _ _).
  - reflexivity.
  - simpl; lia.
  - simpl; lia.
  - reflexivity.
  - discriminate.
Defined.

(* ===================================================================== *)
(** ** Loading the audio buffers                                          *)
(* ===================================================================== *)

Lemma loadAll_app net jobs1 jobs2 st :
  loadAll net (jobs1 ++ jobs2) st = loadAll net jobs2 (loadAll net jobs1 st).
Proof. unfold loadAll. apply fold_left_app. Qed.

Lemma loadVariations_loadAll net folder soundKey variations st :
  Loader.loadVariations net folder soundKey variations st =
  loadAll net (map (fun variation =>
                      (Loader.soundPath folder variation,
                       Loader.audioKey soundKey variation)) variations) st.
Proof.
  revert st. induction variations as [|v vs IH]; intros st; [reflexivity|].
  simpl. apply IH.
Qed.

Lemma loadSounds_loadAll net folder sounds st :
  Loader.loadSounds net folder sounds st =
  loadAll net (flat_map (fun sound =>
                 map (fun variation =>
                        (Loader.soundPath folder variation,
                         Loader.audioKey sound.1 variation))
                     (variations sound.2)) sounds) st.
Proof.
  revert st. induction sounds as [|sound sounds IH]; intros st; [reflexivity|].
  cbn [flat_map]. rewrite loadAll_app, <- loadVariations_loadAll. apply IH.
Qed.

Lemma loadDefaultSounds_loadAll net folder lib cfg st :
  Loader.loadDefaultSounds net folder lib cfg st =
  loadAll net (loadJobs folder lib cfg) st.
Proof.
  revert st. induction lib as [|category lib IH]; intros st; [reflexivity|].
  unfold loadJobs. cbn [flat_map]. rewrite loadAll_app.
  unfold Loader.loadDefaultSounds. cbn [fold_left].
  fold (Loader.loadDefaultSounds net folder lib cfg).
  destruct (Settings.categoryEnabled cfg category.1); simpl negb; cbv iota.
  - rewrite loadSounds_loadAll. apply IH.
  - apply IH.
Qed.

Lemma loadSound_buffers net st path key k :
  k ∈ Loader.audioBuffers (Loader.loadSound net st path key) ->
  k ∈ Loader.audioBuffers st \/ (k = key /\ net path = true).
Proof.
  unfold Loader.loadSound, Loader.fetchAndDecodeAudio.
  destruct (Loader.loadingPromises st !! key); [left; assumption|].
  destruct (net path); simpl; [|left; assumption].
  intros H. apply elem_of_union in H as [H|H]; [|left; exact H].
  right. apply elem_of_singleton in H. split; [exact H|reflexivity].
Qed.

Lemma loadAll_buffers net jobs st k :
  k ∈ Loader.audioBuffers (loadAll net jobs st) ->
  k ∈ Loader.audioBuffers st \/ exists path, In (path, k) jobs /\ net path = true.
Proof.
  revert st. induction jobs as [|[path key] jobs IH]; intros st H; [left; exact H|].
  destruct (IH _ H) as [H'|[p [I N]]].
  - destruct (loadSound_buffers _ _ _ _ _ H') as [B|[-> N]]; [left; exact B|].
    right. exists path. split; [left; reflexivity|exact N].
  - right. exists p. split; [right; exact I|exact N].
Qed.

Lemma loadJobs_In folder lib cfg path key :
  In (path, key) (loadJobs folder lib cfg) ->
  exists category sound variation,
    In category lib /\ Settings.categoryEnabled cfg category.1 = true /\
    In sound category.2 /\ In variation (variations sound.2) /\
    path = Loader.soundPath folder variation /\
    key = Loader.audioKey sound.1 variation.
Proof.
  unfold loadJobs. intros H. apply in_flat_map in H as [category [Ic H]].
  destruct (Settings.categoryEnabled cfg category.1) eqn:E; [|destruct H].
  apply in_flat_map in H as [sound [Is H]].
  apply in_map_iff in H as [variation [Ev Iv]]. inversion Ev; subst.
  exists category, sound, variation. repeat split; assumption.
Qed.

(** Every buffer that [loadDefaultSounds] leaves was there before, or is
    keyed by a sound of an enabled category and one of its variations
    whose file was fetched and decoded. *)
Theorem loadDefaultSounds_loads_enabled_only net folder lib cfg st key :
  key ∈ Loader.audioBuffers (Loader.loadDefaultSounds net folder lib cfg st) ->
  key ∈ Loader.audioBuffers st \/
  exists category sound variation,
    In category lib /\ Settings.categoryEnabled cfg category.1 = true /\
    In sound category.2 /\ In variation (variations sound.2) /\
    key = Loader.audioKey sound.1 variation /\
    net (Loader.soundPath folder variation) = true.
Proof.
  rewrite loadDefaultSounds_loadAll. intros H.
  destruct (loadAll_buffers _ _ _ _ H) as [B|[path [I N]]]; [left; exact B|].
  right. destruct (loadJobs_In _ _ _ _ _ I) as [c [sd [v [H1 [H2 [H3 [H4 [H5 H6]]]]]]]].
  subst. exists c, sd, v. repeat split; assumption.
Qed.

Lemma loadDefaultSounds_loads_enabled_only_witness :
  "wind_wind1.mp3"%string ∈
    Loader.audioBuffers
      (Loader.loadDefaultSounds (fun _ => true) Loader.extensionFolderPath
         soundLibraryNoRustle Settings.defaultSettingsNoAi emptyLoader) /\
  ("wind_wind1.mp3"%string ∈ Loader.audioBuffers emptyLoader \/
   exists category sound variation,
     In category soundLibraryNoRustle /\
     Settings.categoryEnabled Settings.defaultSettingsNoAi category.1 = true /\
     In sound category.2 /\ In variation (variations sound.2) /\
     "wind_wind1.mp3"%string = Loader.audioKey sound.1 variation /\
     (fun _ : string => true) (Loader.soundPath Loader.extensionFolderPath variation) = true).
Proof.
  assert (H : "wind_wind1.mp3"%string ∈
    Loader.audioBuffers
      (Loader.loadDefaultSounds (fun _ => true) Loader.extensionFolderPath
         soundLibraryNoRustle Settings.defaultSettingsNoAi emptyLoader)).
  { apply (bool_decide_unpack _). vm_compute. exact I. }
  split; [exact H|].
  exact (loadDefaultSounds_loads_enabled_only _ _ _ _ _ _ H).
Defined.

Lemma loadSound_promises net st path key k :
  is_Some (Loader.loadingPromises (Loader.loadSound net st path key) !! k) <->
  k = key \/ is_Some (Loader.loadingPromises st !! k).
Proof.
  unfold Loader.loadSound, Loader.fetchAndDecodeAudio.
  destruct (Loader.loadingPromises st !! key) eqn:E.
  - split; [right; assumption|]. intros [->|H]; [rewrite E; eauto|exact H].
  - destruct (net path); simpl; rewrite lookup_insert_is_Some;
      (split; [intros [H|[_ H]]; [left; symmetry; exact H|right; exact H]|]);
      (intros [->|H]; [left; reflexivity|]);
      (destruct (decide (key = k)) as [->|N]; [left; reflexivity|right; split; assumption]).
Qed.

Lemma loadSound_keeps_buffers net st path key k :
  k ∈ Loader.audioBuffers st -> k ∈ Loader.audioBuffers (Loader.loadSound net st path key).
Proof.
  unfold Loader.loadSound, Loader.fetchAndDecodeAudio.
  destruct (Loader.loadingPromises st !! key); [tauto|].
  destruct (net path); simpl; [|tauto]. intros H. apply elem_of_union. right. exact H.
Qed.

Lemma loadSound_allLoaded net st path key :
  (forall p, net p = true) -> allLoaded st ->
  allLoaded (Loader.loadSound net st path key) /\
  key ∈ Loader.audioBuffers (Loader.loadSound net st path key).
Proof.
  intros N A.
  assert (K : key ∈ Loader.audioBuffers (Loader.loadSound net st path key)).
  { unfold Loader.loadSound, Loader.fetchAndDecodeAudio.
    destruct (Loader.loadingPromises st !! key) eqn:E.
    - apply A. rewrite E. eauto.
    - rewrite N. simpl. apply elem_of_union. left. apply elem_of_singleton. reflexivity. }
  split; [|exact K].
  intros k H. apply loadSound_promises in H as [->|H]; [exact K|].
  apply loadSound_keeps_buffers, A, H.
Qed.

Lemma loadAll_keeps_buffers net jobs st k :
  k ∈ Loader.audioBuffers st -> k ∈ Loader.audioBuffers (loadAll net jobs st).
Proof.
  revert st. induction jobs as [|[path key] jobs IH]; intros st H; [exact H|].
  apply IH, loadSound_keeps_buffers, H.
Qed.

Lemma loadAll_all_ok net jobs st path key :
  (forall p, net p = true) -> allLoaded st -> In (path, key) jobs ->
  key ∈ Loader.audioBuffers (loadAll net jobs st).
Proof.
  intros N. revert st. induction jobs as [|[p k] jobs IH]; intros st A I; [destruct I|].
  destruct (loadSound_allLoaded net st p k N A) as [A' K].
  destruct I as [E|I].
  - inversion E; subst.
    apply (loadAll_keeps_buffers net jobs (Loader.loadSound net st path key)), K.
  - apply (IH _ A' I).
Qed.

Lemma loadJobs_intro folder lib cfg category sound variation :
  In category lib -> Settings.categoryEnabled cfg category.1 = true ->
  In sound category.2 -> In variation (variations sound.2) ->
  In (Loader.soundPath folder variation, Loader.audioKey sound.1 variation)
     (loadJobs folder lib cfg).
Proof.
  intros Ic E Is Iv. unfold loadJobs. apply in_flat_map. exists category.
  split; [exact Ic|]. rewrite E. apply in_flat_map. exists sound.
  split; [exact Is|]. apply in_map_iff. exists variation. split; [reflexivity|exact Iv].
Qed.

Lemma allLoaded_empty : allLoaded emptyLoader.
Proof. intros k [x H]. simpl in H. rewrite lookup_empty in H. discriminate. Qed.

(** When every file can be fetched and decoded and every category of the
    catalog is enabled, a successful [initialize] that began with nothing
    loaded leaves the engine initialised with one buffer for every sound
    and variation of the catalog. *)
Theorem initialize_loads_whole_catalog net folder lib cfg rs recent :
  (forall path, net path = true) ->
  (forall category, In category lib -> Settings.categoryEnabled cfg category.1 = true) ->
  engineAfterLoad net folder lib cfg rs recent =
  AudioManager.mkState rs recent (allBuffers lib) true.
Proof.
  intros N E. unfold engineAfterLoad, Loader.initialize. cbn [fst snd]. f_equal.
  apply set_eq. intros k. rewrite loadDefaultSounds_loadAll. unfold allBuffers.
  rewrite elem_of_list_to_set, list_elem_of_In. split.
  - intros H. destruct (loadAll_buffers _ _ _ _ H) as [B|[path [I _]]].
    + simpl in B. apply elem_of_empty in B. destruct B.
    + destruct (loadJobs_In _ _ _ _ _ I) as [c [sd [v [H1 [_ [H3 [H4 [_ H6]]]]]]]].
      apply in_flat_map. exists c. split; [exact H1|].
      apply in_flat_map. exists sd. split; [exact H3|].
      apply in_map_iff. exists v. split; [symmetry; exact H6|exact H4].
  - intros H. apply in_flat_map in H as [c [H1 H]].
    apply in_flat_map in H as [sd [H3 H]].
    apply in_map_iff in H as [v [H6 H4]]. subst k.
    apply (loadAll_all_ok net _ _ (Loader.soundPath folder v) _ N allLoaded_empty).
    apply (loadJobs_intro folder lib cfg c sd v H1 (E c H1) H3 H4).
Qed.

Lemma initialize_loads_whole_catalog_witness :
  (forall path : string, (fun _ : string => true) path = true) /\
  (forall category, In category soundLibraryNoRustle ->
     Settings.categoryEnabled Settings.defaultSettingsNoAi category.1 = true) /\
  engineAfterLoad (fun _ => true) Loader.extensionFolderPath soundLibraryNoRustle
    Settings.defaultSettingsNoAi ∅ ∅ =
  AudioManager.mkState ∅ ∅ (allBuffers soundLibraryNoRustle) true.
Proof.
  assert (N : forall path : string, (fun _ : string => true) path = true)
    by (intros path; reflexivity).
  assert (E : forall category, In category soundLibraryNoRustle ->
     Settings.categoryEnabled Settings.defaultSettingsNoAi category.1 = true).
  { intros category I. simpl in I.
    repeat (destruct I as [<-|I]; [reflexivity|]). destruct I. }
  split; [exact N|]. split; [exact E|].
  exact (initialize_loads_whole_catalog _ _ _ _ _ _ N E).
Defined.

Lemma loadSound_asked_key net st path key k :
  is_Some (Loader.loadingPromises st !! k) ->
  is_Some (Loader.loadingPromises (Loader.loadSound net st path key) !! k) /\
  (k ∈ Loader.audioBuffers (Loader.loadSound net st path key) ->
   k ∈ Loader.audioBuffers st).
Proof.
  intros P. split; [apply loadSound_promises; right; exact P|].
  intros H. destruct (loadSound_buffers _ _ _ _ _ H) as [B|[-> _]]; [exact B|].
  unfold Loader.loadSound in H. destruct (Loader.loadingPromises st !! key) eqn:E.
  - exact H.
  - destruct P as [x P]. discriminate.
Qed.

Lemma loadAll_asked_key net jobs st k :
  is_Some (Loader.loadingPromises st !! k) ->
  k ∈ Loader.audioBuffers (loadAll net jobs st) -> k ∈ Loader.audioBuffers st.
Proof.
  revert st. induction jobs as [|[path key] jobs IH]; intros st P H; [exact H|].
  destruct (loadSound_asked_key net st path key k P) as [P' B].
  apply B. apply (IH _ P' H).
Qed.

(** A file is asked for once: a key that has been asked for and has no
    buffer, because its fetch or decoding failed, still has none after
    [loadDefaultSounds] runs again, whatever the network then answers. *)
Theorem failed_load_never_retried net folder lib cfg st key :
  is_Some (Loader.loadingPromises st !! key) ->
  key ∉ Loader.audioBuffers st ->
  key ∉ Loader.audioBuffers (Loader.loadDefaultSounds net folder lib cfg st).
Proof.
  intros P B H. apply B. rewrite loadDefaultSounds_loadAll in H.
  exact (loadAll_asked_key _ _ _ _ P H).
Qed.

Lemma failed_load_never_retried_witness :
  is_Some ((Loader.loadingPromises
              (Loader.loadDefaultSounds (fun _ => false) Loader.extensionFolderPath
                 soundLibraryNoRustle Settings.defaultSettingsNoAi emptyLoader))
           !! "laugh_laugh1.mp3"%string) /\
  ("laugh_laugh1.mp3"%string ∉
     Loader.audioBuffers
       (Loader.loadDefaultSounds (fun _ => false) Loader.extensionFolderPath
          soundLibraryNoRustle Settings.defaultSettingsNoAi emptyLoader)) /\
  ("laugh_laugh1.mp3"%string ∉
     Loader.audioBuffers
       (Loader.loadDefaultSounds (fun _ => true) Loader.extensionFolderPath
          soundLibraryNoRustle Settings.defaultSettingsNoAi
          (Loader.loadDefaultSounds (fun _ => false) Loader.extensionFolderPath
             soundLibraryNoRustle Settings.defaultSettingsNoAi emptyLoader))).
Proof.
  assert (P : is_Some ((Loader.loadingPromises
              (Loader.loadDefaultSounds (fun _ => false) Loader.extensionFolderPath
                 soundLibraryNoRustle Settings.defaultSettingsNoAi emptyLoader))
           !! "laugh_laugh1.mp3"%string)).
  { apply (bool_decide_unpack _). vm_compute. exact I. }
  assert (B : "laugh_laugh1.mp3"%string ∉
    Loader.audioBuffers
      (Loader.loadDefaultSounds (fun _ => false) Loader.extensionFolderPath
         soundLibraryNoRustle Settings.defaultSettingsNoAi emptyLoader)).
  { apply (bool_decide_unpack _). vm_compute. exact I. }
  split; [exact P|]. split; [exact B|].
  exact (failed_load_never_retried _ _ _ _ _ _ P B).
Defined.

Lemma string_app_assoc (a b c : string) : ((a ++ b) ++ c = a ++ b ++ c)%string.
Proof.
  induction a as [|x a IH]; [reflexivity|].
  change (String x ((a ++ b) ++ c) = String x (a ++ b ++ c))%string.
  f_equal. exact IH.
Qed.

Lemma prefix_app a b : String.prefix a (a ++ b)%string = true.
Proof.
  induction a as [|c a IH]; [destruct b; reflexivity|].
  change (String.prefix (String c a) (String c (a ++ b)) = true). simpl.
  destruct (ascii_dec c c) as [_|N]; [exact IH|destruct N; reflexivity].
Qed.

Lemma playSound_started_key lib cfg env st soundKey s variation :
  isStarted (playSound lib cfg env st soundKey s variation).2 = true ->
  exists v, (soundKey ++ "_" ++ v)%string ∈ AudioManager.audioBuffers st.
Proof.
  unfold playSound.
  destruct (gates lib cfg st soundKey (now env soundKey)) as [exit|data] eqn:G.
  - simpl. rewrite (gates_exit_not_started _ _ _ _ _ _ G). discriminate.
  - destruct (bestMatchLoop _ _ _ _ _ _ _ _) as [[rs bm] bs].
    destruct (_ || _); simpl; [discriminate|].
    unfold dispatch. simpl.
    destruct (bool_decide _) eqn:Bf; simpl; [|discriminate].
    intros _. apply bool_decide_eq_true in Bf. eexists. exact Bf.
Qed.

(** Buffers are loaded only when the engine is initialised: a sound whose
    category was disabled at that moment never starts afterwards, whatever
    the settings are by then, because its buffer is missing. *)
Theorem category_disabled_at_load_never_starts
    net folder lib cfgAtLoad rs recent cfg env soundKey category s variation :
  getCategoryForSound lib soundKey = Some category ->
  Settings.categoryEnabled cfgAtLoad category = false ->
  keyPrefixFree lib category soundKey = true ->
  isStarted (playSound lib cfg env (engineAfterLoad net folder lib cfgAtLoad rs recent)
               soundKey s variation).2 = false.
Proof.
  intros _ D F.
  destruct (isStarted _) eqn:S; [|reflexivity]. exfalso.
  destruct (playSound_started_key _ _ _ _ _ _ _ S) as [v B].
  unfold engineAfterLoad, Loader.initialize in B. cbn [fst snd AudioManager.audioBuffers] in B.
  rewrite loadDefaultSounds_loadAll in B.
  destruct (loadAll_buffers _ _ _ _ B) as [B'|[path [I _]]].
  - simpl in B'. apply elem_of_empty in B'. exact B'.
  - destruct (loadJobs_In _ _ _ _ _ I) as [c [sd [v' [H1 [H2 [H3 [H4 [_ H6]]]]]]]].
    unfold keyPrefixFree in F. rewrite forallb_forall in F. specialize (F c H1).
    apply orb_true_iff in F as [F|F].
    + apply String.eqb_eq in F. rewrite F in H2. congruence.
    + rewrite forallb_forall in F. specialize (F sd H3).
      rewrite forallb_forall in F. specialize (F v' H4).
      rewrite <- H6 in F.
      rewrite <- string_app_assoc in F.
      rewrite prefix_app in F. discriminate.
Qed.

Lemma category_disabled_at_load_never_starts_witness :
  getCategoryForSound soundLibraryNoRustle "whisper" = Some "dialogue"%string /\
  Settings.categoryEnabled
    (Settings.mk true 0.7 3 2000 0.8 false false 5000
       [("emotions", true); ("actions", true); ("ambient", true); ("dialogue", false)]%string)
    "dialogue" = false /\
  keyPrefixFree soundLibraryNoRustle "dialogue" "whisper" = true /\
  isStarted (playSound soundLibraryNoRustle Settings.defaultSettingsNoAi (envAt 5000 0)
               (engineAfterLoad (fun _ => true) Loader.extensionFolderPath
                  soundLibraryNoRustle
                  (Settings.mk true 0.7 3 2000 0.8 false false 5000
                     [("emotions", true); ("actions", true); ("ambient", true);
                      ("dialogue", false)]%string)
                  ∅ ∅)
               "whisper" (str "She whispered a secret.") None).2 = false.
Proof.
  assert (C : getCategoryForSound soundLibraryNoRustle "whisper" = Some "dialogue"%string)
    by reflexivity.
  assert (D : Settings.categoryEnabled
    (Settings.mk true 0.7 3 2000 0.8 false false 5000
       [("emotions", true); ("actions", true); ("ambient", true); ("dialogue", false)]%string)
    "dialogue" = false) by reflexivity.
  assert (F : keyPrefixFree soundLibraryNoRustle "dialogue" "whisper" = true)
    by (vm_compute; reflexivity).
  split; [exact C|]. split; [exact D|]. split; [exact F|].
  exact (category_disabled_at_load_never_starts _ _ _ _ _ _ _ _ _ _ _ _ C D F).
Defined.

(* ===================================================================== *)
(** ** Settings: [getSettings]                                            *)
(* ===================================================================== *)

Lemma fillDefaults_cons {V} (entry : string * V) defaults settings :
  SettingsStore.fillDefaults (entry :: defaults) settings =
  SettingsStore.fillDefaults defaults
    (match settings !! entry.1 with
     | None => <[entry.1 := entry.2]> settings
     | Some _ => settings
     end).
Proof. reflexivity. Qed.

Lemma fillDefaults_lookup {V} (defaults : list (string * V)) settings k :
  SettingsStore.fillDefaults defaults settings !! k =
  match settings !! k with
  | Some v => Some v
  | None => SettingsStore.structuredClone defaults !! k
  end.
Proof.
  revert settings. induction defaults as [|[k' v'] defaults IH]; intros settings.
  - unfold SettingsStore.structuredClone. simpl. rewrite lookup_empty.
    destruct (settings !! k); reflexivity.
  - rewrite fillDefaults_cons, IH. cbn [fst snd].
    unfold SettingsStore.structuredClone. cbn [list_to_map foldr fst snd uncurry].
    destruct (settings !! k') eqn:E.
    + destruct (settings !! k) eqn:Ek; [reflexivity|].
      rewrite lookup_insert_ne; [reflexivity|]. intros ->. congruence.
    + destruct (decide (k' = k)) as [->|N].
      * rewrite !lookup_insert_eq, E. reflexivity.
      * rewrite !lookup_insert_ne by exact N. reflexivity.
Qed.

(** [getSettings] keeps every stored value and gives every other key of
    the defaults its default value; keys that are neither stored nor
    among the defaults stay absent. *)
Theorem getSettings_fills_missing_keys {V} (defaults : list (string * V)) stored k :
  SettingsStore.getSettings defaults stored !! k =
  match stored ≫= (fun settings => settings !! k) with
  | Some v => Some v
  | None => SettingsStore.structuredClone defaults !! k
  end.
Proof.
  unfold SettingsStore.getSettings. rewrite fillDefaults_lookup.
  destruct stored as [settings|]; simpl; [reflexivity|].
  destruct (SettingsStore.structuredClone defaults !! k); reflexivity.
Qed.

(** Calling [getSettings] again on what it stored changes nothing. *)
Lemma getSettings_idempotent {V} (defaults : list (string * V)) stored :
  SettingsStore.getSettings defaults (Some (SettingsStore.getSettings defaults stored)) =
  SettingsStore.getSettings defaults stored.
Proof.
  apply map_eq. intros k. unfold SettingsStore.getSettings at 1.
  rewrite fillDefaults_lookup.
  destruct (SettingsStore.getSettings defaults stored !! k) eqn:E; [reflexivity|].
  unfold SettingsStore.getSettings in E. rewrite fillDefaults_lookup in E.
  destruct stored as [settings|].
  - destruct (settings !! k); [discriminate|exact E].
  - destruct (SettingsStore.structuredClone defaults !! k); [discriminate|reflexivity].
Qed.

(* ===================================================================== *)
(** ** Smart Sound Triggers: [buildSoundLibrary]                          *)
(* ===================================================================== *)

Lemma assoc_not_In {A} k (l : list (string * A)) :
  ~ In k (map fst l) -> assoc k l = None.
Proof.
  induction l as [|[k' v] l IH]; intros N; [reflexivity|]. simpl.
  destruct (String.eqb k k') eqn:E.
  - apply String.eqb_eq in E. subst. destruct N. left. reflexivity.
  - apply IH. intros I. apply N. right. exact I.
Qed.

Lemma defaultLibrary_fold defs (lib : gmap string (list string)) action :
  NoDup (map fst defs) ->
  fold_left (fun lib d => <[d.1 := SmartAnalysis.defaultVariants d.2]> lib) defs lib
    !! action =
  match assoc action defs with
  | Some def => Some (SmartAnalysis.defaultVariants def)
  | None => lib !! action
  end.
Proof.
  revert lib. induction defs as [|[k d] defs IH]; intros lib N; [reflexivity|].
  apply NoDup_cons in N as [N1 N2]. cbn [fold_left fst snd]. rewrite (IH _ N2).
  cbn [assoc]. destruct (String.eqb action k) eqn:E.
  - apply String.eqb_eq in E. subst k.
    rewrite assoc_not_In; [apply lookup_insert_eq|].
    intros I. apply N1. apply list_elem_of_In. exact I.
  - destruct (assoc action defs); [reflexivity|].
    apply lookup_insert_ne. intros ->. rewrite String.eqb_refl in E. discriminate.
Qed.

Lemma addUserSounds_lookup userSounds lib action :
  (forall s, In s userSounds -> SmartAnalysis.inherited s.1 = false) ->
  (SmartAnalysis.addUserSounds userSounds lib).2 = false /\
  default [] ((SmartAnalysis.addUserSounds userSounds lib).1 !! action) =
  default [] (lib !! action) ++ userUrls userSounds action.
Proof.
  revert lib. induction userSounds as [|[a url] us IH]; intros lib H.
  - simpl. split; [reflexivity|]. unfold userUrls. simpl. rewrite app_nil_r. reflexivity.
  - cbn [SmartAnalysis.addUserSounds fst snd].
    pose proof (H (a, url) (or_introl eq_refl)) as Ha. cbn [fst] in Ha. rewrite Ha.
    destruct (IH (<[a := default [] (lib !! a) ++ [url]]> lib)
                (fun s I => H s (or_intror I))) as [T L].
    split; [exact T|]. rewrite L. unfold userUrls. cbn [List.filter fst snd].
    destruct (String.eqb a action) eqn:E.
    + apply String.eqb_eq in E. subst a. rewrite lookup_insert_eq. simpl.
      rewrite <- app_assoc. reflexivity.
    + rewrite lookup_insert_ne; [reflexivity|].
      intros ->. rewrite String.eqb_refl in E. discriminate.
Qed.

Lemma ACTION_DEFINITIONS_NoDup : NoDup (map fst SmartAnalysis.ACTION_DEFINITIONS).
Proof. apply (bool_decide_unpack _). vm_compute. exact I. Qed.

(** When no user sound is filed under a name that objects inherit,
    [buildSoundLibrary] ends without an exception and the library holds,
    for every action, the default variants followed by the user's urls for
    that action in the order they were added. *)
Theorem buildSoundLibrary_defaults_then_user userSounds action :
  (forall s, In s userSounds -> SmartAnalysis.inherited s.1 = false) ->
  (SmartAnalysis.buildSoundLibrary userSounds).2 = false /\
  default [] ((SmartAnalysis.buildSoundLibrary userSounds).1 !! action) =
  default [] (SmartAnalysis.defaultVariants <$> assoc action SmartAnalysis.ACTION_DEFINITIONS)
  ++ userUrls userSounds action.
Proof.
  intros H. unfold SmartAnalysis.buildSoundLibrary.
  destruct (addUserSounds_lookup userSounds SmartAnalysis.defaultLibrary action H)
    as [T L].
  split; [exact T|]. rewrite L. f_equal.
  unfold SmartAnalysis.defaultLibrary.
  rewrite (defaultLibrary_fold _ _ _ ACTION_DEFINITIONS_NoDup).
  destruct (assoc action SmartAnalysis.ACTION_DEFINITIONS); simpl; [reflexivity|].
  rewrite lookup_empty. reflexivity.
Qed.

Lemma buildSoundLibrary_defaults_then_user_witness :
  (forall s, In s [("laugh", "mine.mp3"); ("door", "slam.mp3"); ("laugh", "hers.mp3")]%string ->
     SmartAnalysis.inherited s.1 = false) /\
  (SmartAnalysis.buildSoundLibrary
     [("laugh", "mine.mp3"); ("door", "slam.mp3"); ("laugh", "hers.mp3")]%string).2 = false /\
  default [] ((SmartAnalysis.buildSoundLibrary
     [("laugh", "mine.mp3"); ("door", "slam.mp3"); ("laugh", "hers.mp3")]%string).1
     !! "laugh"%string) =
  default [] (SmartAnalysis.defaultVariants <$> assoc "laugh" SmartAnalysis.ACTION_DEFINITIONS)
  ++ userUrls [("laugh", "mine.mp3"); ("door", "slam.mp3"); ("laugh", "hers.mp3")]%string "laugh".
Proof.
  assert (H : forall s,
             In s [("laugh", "mine.mp3"); ("door", "slam.mp3"); ("laugh", "hers.mp3")]%string ->
             SmartAnalysis.inherited s.1 = false).
  { intros s [<-|[<-|[<-|[]]]]; reflexivity. }
  split; [exact H|].
  exact (buildSoundLibrary_defaults_then_user _ "laugh"%string H).
Defined.

(** A user sound filed under a name that objects inherit stops
    [buildSoundLibrary] with an exception: the sounds after it are not
    added. *)
Lemma buildSoundLibrary_inherited_name_throws before s after :
  (forall x, In x before -> SmartAnalysis.inherited x.1 = false) ->
  SmartAnalysis.inherited s.1 = true ->
  SmartAnalysis.buildSoundLibrary (before ++ s :: after) =
  ((SmartAnalysis.buildSoundLibrary before).1, true).
Proof.
  intros H T. unfold SmartAnalysis.buildSoundLibrary.
  generalize SmartAnalysis.defaultLibrary as lib.
  induction before as [|[a url] before IH]; intros lib.
  - simpl. rewrite T. reflexivity.
  - cbn [app SmartAnalysis.addUserSounds fst snd].
    pose proof (H (a, url) (or_introl eq_refl)) as Ha. cbn [fst] in Ha. rewrite Ha.
    apply IH. intros x I. apply H. right. exact I.
Qed.

(* ===================================================================== *)
(** ** Smart Sound Triggers: [wordsFrom]                                  *)
(* ===================================================================== *)

Lemma splitRuns_pieces_In sep b s piece c :
  In piece (splitRuns sep b s) -> In c piece -> In c s.
Proof.
  revert b piece. induction s as [|x s IH]; intros b piece; simpl.
  - intros [<-|[]] [].
  - destruct (sep x).
    + destruct b.
      * intros I J. right. exact (IH _ _ I J).
      * intros [<-|I] J; [destruct J|]. right. exact (IH _ _ I J).
    + specialize (IH false).
      destruct (splitRuns sep false s) as [|p ps].
      * intros [<-|[]] [<-|[]]. left. reflexivity.
      * intros [<-|I] J.
        -- destruct J as [<-|J]; [left; reflexivity|].
           right. apply (IH p); [left; reflexivity|exact J].
        -- right. apply (IH piece); [right; exact I|exact J].
Qed.

Lemma sanitized_lowered_char c :
  isUpper (lowerChar (SmartAnalysis.sanitize c)) = false /\
  (isSpace (lowerChar (SmartAnalysis.sanitize c)) = false ->
   (isWordChar (lowerChar (SmartAnalysis.sanitize c))
    || ascii_eqb (lowerChar (SmartAnalysis.sanitize c)) "'") = true).
Proof.
  destruct c as [[] [] [] [] [] [] [] []]; vm_compute;
    (split; [reflexivity|intros H; first [reflexivity|discriminate H]]).
Qed.

(** Every token [wordsFrom] returns is non-empty and made of lower-case
    letters, digits, underscores and apostrophes only. *)
Theorem wordsFrom_tokens_clean (s : text) :
  Forall cleanToken (SmartAnalysis.wordsFrom s).
Proof.
  apply List.Forall_forall. intros token I.
  unfold SmartAnalysis.wordsFrom in I. apply filter_In in I as [I N].
  split.
  - intros ->. discriminate N.
  - apply List.Forall_forall. intros c J.
    pose proof (proj1 (List.Forall_forall _ _)
                  (splitRuns_pieces_clean isSpace false
                     (toLowerCase (map SmartAnalysis.sanitize s))) token I c J) as Sp.
    pose proof (splitRuns_pieces_In _ _ _ _ _ I J) as Ic.
    unfold toLowerCase in Ic. rewrite map_map in Ic.
    apply in_map_iff in Ic as [c0 [<- _]].
    destruct (sanitized_lowered_char c0) as [U W].
    split; [exact (W Sp)|exact U].
Qed.

(* ===================================================================== *)
(** ** Smart Sound Triggers: [analyzeTextForActions]                      *)
(* ===================================================================== *)

Lemma insertByScore_In x l z :
  In z (SmartAnalysis.insertByScore x l) <-> z = x \/ In z l.
Proof.
  induction l as [|y l IH]; simpl.
  - split; [intros [<-|[]]; left; reflexivity|intros [->|[]]; left; reflexivity].
  - destruct (PrimFloat.ltb _ _); simpl.
    + split; [intros [<-|H]; [left; reflexivity|right; exact H]
             |intros [->|H]; [left; reflexivity|right; exact H]].
    + rewrite IH. tauto.
Qed.

Lemma sortByScore_fold l acc z :
  In z (fold_left (fun sorted x => SmartAnalysis.insertByScore x sorted) l acc) <->
  In z l \/ In z acc.
Proof.
  revert acc. induction l as [|x l IH]; intros acc; simpl; [tauto|].
  rewrite IH, insertByScore_In. split; intros H; intuition (subst; auto).
Qed.

Lemma sortByScore_In l z : In z (SmartAnalysis.sortByScore l) <-> In z l.
Proof. unfold SmartAnalysis.sortByScore. rewrite sortByScore_fold. simpl. tauto. Qed.

Ltac pick_level := repeat (first [left; reflexivity | right]).

Lemma tokenScore_update vp s tokens def w i best :
  In best scoreLevels ->
  In (if PrimFloat.ltb best (SmartAnalysis.tokenScore vp s tokens def w i)
      then SmartAnalysis.tokenScore vp s tokens def w i else best) scoreLevels.
Proof.
  unfold SmartAnalysis.tokenScore. cbv zeta.
  generalize (vp w (toLowerCase s) || SmartAnalysis.endsWith (str "ing") (str w)
              || SmartAnalysis.endsWith (str "ed") (str w)
              || SmartAnalysis.endsWith (str "s") (str w)) as c1.
  generalize (testFresh false SmartAnalysis.subjectPattern
                (join (str " ") (slice (i - 3) (i + 1) tokens))) as c2.
  generalize (existsb (SmartAnalysis.isNounUsage s) (SmartAnalysis.nounForms def)) as c3.
  generalize (SmartAnalysis.hasNegationBefore tokens i
              || testFresh false SmartAnalysis.stopPattern (toLowerCase s)
              || testFresh false SmartAnalysis.dontPattern (toLowerCase s)) as c4.
  intros c4 c3 c2 c1 H. unfold scoreLevels in H. simpl in H.
  destruct H as [<-|[<-|[<-|[<-|[<-|[]]]]]];
    destruct c1, c2, c3, c4; vm_compute; pick_level.
Qed.

Lemma tokensLoop_levels vp s tokens def w best :
  In best scoreLevels ->
  In (SmartAnalysis.tokensLoop vp s tokens def w best) scoreLevels.
Proof.
  unfold SmartAnalysis.tokensLoop. generalize (seq 0 (length tokens)) as indices.
  intros indices. revert best. induction indices as [|i indices IH]; intros best H.
  - exact H.
  - cbn [fold_left]. apply IH.
    destruct (_ || _); [apply tokenScore_update; exact H|exact H].
Qed.

Lemma wordsLoop_levels vp s tokens def ws best :
  In best scoreLevels ->
  In (fold_left (fun bestScore w => SmartAnalysis.tokensLoop vp s tokens def w bestScore)
        ws best) scoreLevels.
Proof.
  revert best. induction ws as [|w ws IH]; intros best H; [exact H|].
  cbn [fold_left]. apply IH, tokensLoop_levels, H.
Qed.

Lemma zero_level : In 0%float scoreLevels.
Proof. left. reflexivity. Qed.

Lemma max_level best :
  In best scoreLevels ->
  PrimFloat.ltb 0.5 (Num.max best 0.6) = true /\
  PrimFloat.leb 0.6 (Num.max best 0.6) = true /\
  In (Num.max best 0.6%float) reportedLevels.
Proof.
  unfold scoreLevels. simpl.
  intros [<-|[<-|[<-|[<-|[<-|[]]]]]];
    (split; [vm_compute; reflexivity|split; [vm_compute; reflexivity|]]);
    vm_compute; pick_level.
Qed.

Lemma high_level best :
  In best scoreLevels -> PrimFloat.ltb 0.5 best = true -> In best reportedLevels.
Proof.
  unfold scoreLevels. simpl.
  intros [<-|[<-|[<-|[<-|[<-|[]]]]]] H; vm_compute in H; try discriminate H;
    vm_compute; pick_level.
Qed.

(** An action one of whose words stands in the message as a whole word is
    always reported, with a score of at least 0.6: neither a negation
    before the word nor its use as a noun takes it off the list. *)
Theorem whole_word_mention_always_reported vp s action def :
  In (action, def) SmartAnalysis.ACTION_DEFINITIONS ->
  testFresh true (SmartAnalysis.wordsPattern def) (toLowerCase s) = true ->
  exists score,
    In (action, score) (SmartAnalysis.analyzeTextForActions vp s) /\
    PrimFloat.leb 0.6 score = true.
Proof.
  intros I T. exists (SmartAnalysis.actionScore vp s def).
  assert (L : PrimFloat.ltb 0.5 (SmartAnalysis.actionScore vp s def) = true /\
              PrimFloat.leb 0.6 (SmartAnalysis.actionScore vp s def) = true).
  { unfold SmartAnalysis.actionScore. cbv zeta. rewrite T.
    destruct (max_level _ (wordsLoop_levels vp s (SmartAnalysis.wordsFrom s) def
                             (SmartAnalysis.words def) 0%float zero_level))
      as [A [B _]].
    split; assumption. }
  destruct L as [A B]. split; [|exact B].
  unfold SmartAnalysis.analyzeTextForActions. apply sortByScore_In.
  apply in_flat_map. exists (action, def). split; [exact I|].
  cbn [fst snd]. rewrite A. left. reflexivity.
Qed.

Lemma whole_word_mention_always_reported_witness :
  In ("laugh"%string,
      SmartAnalysis.mkDef
        ["laugh"; "laughed"; "laughing"; "giggle"; "giggled"; "giggling";
         "chuckle"; "chuckled"; "chuckling"; "snicker"; "snickered"; "cackle"]%string
        ["laugh"%string]
        [SmartAnalysis.inFolder "/sounds/laugh/laugh1.mp3";
         SmartAnalysis.inFolder "/sounds/laugh/laugh2.mp3"])
     SmartAnalysis.ACTION_DEFINITIONS /\
  testFresh true
    (SmartAnalysis.wordsPattern
       (SmartAnalysis.mkDef
          ["laugh"; "laughed"; "laughing"; "giggle"; "giggled"; "giggling";
           "chuckle"; "chuckled"; "chuckling"; "snicker"; "snickered"; "cackle"]%string
          ["laugh"%string]
          [SmartAnalysis.inFolder "/sounds/laugh/laugh1.mp3";
           SmartAnalysis.inFolder "/sounds/laugh/laugh2.mp3"]))
    (toLowerCase sheNeverLaughed) = true /\
  exists score,
    In ("laugh"%string, score)
       (SmartAnalysis.analyzeTextForActions SmartAnalysis.verbPhraseNever
          sheNeverLaughed) /\
    PrimFloat.leb 0.6 score = true.
Proof.
  assert (I : In ("laugh"%string,
      SmartAnalysis.mkDef
        ["laugh"; "laughed"; "laughing"; "giggle"; "giggled"; "giggling";
         "chuckle"; "chuckled"; "chuckling"; "snicker"; "snickered"; "cackle"]%string
        ["laugh"%string]
        [SmartAnalysis.inFolder "/sounds/laugh/laugh1.mp3";
         SmartAnalysis.inFolder "/sounds/laugh/laugh2.mp3"])
     SmartAnalysis.ACTION_DEFINITIONS) by (left; reflexivity).
  assert (T : testFresh true
    (SmartAnalysis.wordsPattern
       (SmartAnalysis.mkDef
          ["laugh"; "laughed"; "laughing"; "giggle"; "giggled"; "giggling";
           "chuckle"; "chuckled"; "chuckling"; "snicker"; "snickered"; "cackle"]%string
          ["laugh"%string]
          [SmartAnalysis.inFolder "/sounds/laugh/laugh1.mp3";
           SmartAnalysis.inFolder "/sounds/laugh/laugh2.mp3"]))
    (toLowerCase sheNeverLaughed) = true) by (vm_compute; reflexivity).
  split; [exact I|]. split; [exact T|].
  exact (whole_word_mention_always_reported SmartAnalysis.verbPhraseNever _ _ _ I T).
Defined.

Lemma tokensLoop_unmentioned vp s tokens def w best :
  existsb (fun token => SmartAnalysis.text_eqb token (str w) || startsWith (str w) token)
          tokens = false ->
  SmartAnalysis.tokensLoop vp s tokens def w best = best.
Proof.
  intros H. unfold SmartAnalysis.tokensLoop.
  assert (F : forall i, In i (seq 0 (length tokens)) ->
                SmartAnalysis.text_eqb (nth i tokens []) (str w)
                || startsWith (str w) (nth i tokens []) = false).
  { intros i I. apply in_seq in I.
    pose proof (existsb_exists
                  (fun token => SmartAnalysis.text_eqb token (str w)
                                || startsWith (str w) token) tokens) as X.
    destruct (_ || _) eqn:E; [|reflexivity].
    rewrite <- H. symmetry. apply X. exists (nth i tokens []).
    split; [apply nth_In; lia|exact E]. }
  revert F. generalize (seq 0 (length tokens)) as indices.
  intros indices. revert best. induction indices as [|i indices IH]; intros best F.
  - reflexivity.
  - cbn [fold_left]. rewrite (F i (or_introl eq_refl)).
    apply IH. intros j J. apply F. right. exact J.
Qed.

Lemma wordsLoop_unmentioned vp s tokens def ws best :
  existsb (fun w =>
    existsb (fun token => SmartAnalysis.text_eqb token (str w) || startsWith (str w) token)
            tokens) ws = false ->
  fold_left (fun bestScore w => SmartAnalysis.tokensLoop vp s tokens def w bestScore)
    ws best = best.
Proof.
  revert best. induction ws as [|w ws IH]; intros best H; [reflexivity|].
  cbn [existsb] in H. apply orb_false_iff in H as [H1 H2].
  cbn [fold_left]. rewrite (tokensLoop_unmentioned _ _ _ _ _ _ H1). apply IH, H2.
Qed.

(** Whatever [analyzeTextForActions] reports is an action of the
    dictionary, with one of four scores, all of them at least 0.6, and a
    word of the action is in the message, as a whole word or at the start
    of a token. *)
Theorem reported_action_is_mentioned vp s action score :
  In (action, score) (SmartAnalysis.analyzeTextForActions vp s) ->
  In score reportedLevels /\
  exists def,
    In (action, def) SmartAnalysis.ACTION_DEFINITIONS /\
    (testFresh true (SmartAnalysis.wordsPattern def) (toLowerCase s) = true \/
     mentioned def s = true).
Proof.
  unfold SmartAnalysis.analyzeTextForActions. intros H.
  apply (proj1 (sortByScore_In _ _)) in H.
  apply in_flat_map in H as [[a def] [I H]].
  cbn [fst snd] in H.
  destruct (PrimFloat.ltb 0.5 (SmartAnalysis.actionScore vp s def)) eqn:L; [|destruct H].
  destruct H as [H|[]]. inversion H; subst. clear H.
  pose proof (wordsLoop_levels vp s (SmartAnalysis.wordsFrom s) def
                (SmartAnalysis.words def) 0%float zero_level) as Lv.
  unfold SmartAnalysis.actionScore in *. cbv zeta in *.
  destruct (testFresh true (SmartAnalysis.wordsPattern def) (toLowerCase s)) eqn:T.
  - split; [apply max_level; exact Lv|].
    exists def. split; [exact I|left; exact T].
  - split; [apply high_level; [exact Lv|exact L]|].
    exists def. split; [exact I|right].
    destruct (mentioned def s) eqn:M; [reflexivity|].
    unfold mentioned in M. rewrite (wordsLoop_unmentioned _ _ _ _ _ _ M) in L.
    vm_compute in L. discriminate L.
Qed.

Lemma reported_action_is_mentioned_witness :
  In ("door"%string, 0.6%float)
     (SmartAnalysis.analyzeTextForActions SmartAnalysis.verbPhraseNever aLaughAndADoor) /\
  In 0.6%float reportedLevels /\
  exists def,
    In ("door"%string, def) SmartAnalysis.ACTION_DEFINITIONS /\
    (testFresh true (SmartAnalysis.wordsPattern def) (toLowerCase aLaughAndADoor) = true \/
     mentioned def aLaughAndADoor = true).
Proof.
  assert (H : In ("door"%string, 0.6%float)
     (SmartAnalysis.analyzeTextForActions SmartAnalysis.verbPhraseNever aLaughAndADoor)).
  { vm_compute. right. left. reflexivity. }
  split; [exact H|].
  exact (reported_action_is_mentioned _ _ _ _ H).
Defined.

(* ===================================================================== *)
(** ** Smart Sound Triggers: [onMessageReceived]                          *)
(* ===================================================================== *)

Lemma chooseVariant_url r st action url :
  (SmartTriggers.chooseVariant r st action).2 = Some url ->
  In url (default [] (SmartTriggers.soundLibrary st !! action)).
Proof.
  unfold SmartTriggers.chooseVariant.
  destruct (length _ =? 0); simpl; [discriminate|].
  intros H. apply list_elem_of_In. eapply list_elem_of_lookup_2. exact H.
Qed.

Lemma chooseVariant_keeps r st action :
  SmartTriggers.soundLibrary (SmartTriggers.chooseVariant r st action).1 =
    SmartTriggers.soundLibrary st /\
  SmartTriggers.lastPlayed (SmartTriggers.chooseVariant r st action).1 =
    SmartTriggers.lastPlayed st.
Proof.
  unfold SmartTriggers.chooseVariant.
  destruct (length _ =? 0); simpl; split; reflexivity.
Qed.

Lemma SmartTriggers_playSound_cases cfg t r st action :
  SmartTriggers.soundLibrary (SmartTriggers.playSound cfg t r st action).1 =
    SmartTriggers.soundLibrary st /\
  match (SmartTriggers.playSound cfg t r st action).2 with
  | SmartTriggers.ReturnsTrue url =>
      SmartTriggers.lastPlayed (SmartTriggers.playSound cfg t r st action).1 =
        <[action := t]> (SmartTriggers.lastPlayed st) /\
      In url (default [] (SmartTriggers.soundLibrary st !! action))
  | _ =>
      SmartTriggers.lastPlayed (SmartTriggers.playSound cfg t r st action).1 =
        SmartTriggers.lastPlayed st
  end.
Proof.
  unfold SmartTriggers.playSound.
  destruct (SmartTriggers.onCooldown _ _ _ _); [split; reflexivity|].
  pose proof (chooseVariant_keeps r st action) as [K1 K2].
  pose proof (chooseVariant_url r st action) as U.
  destruct (SmartTriggers.chooseVariant r st action) as [st' [url|]];
    simpl in *; [|split; assumption].
  destruct (String.eqb url ""); simpl; [split; assumption|].
  destruct (_ && _); simpl; [|split; assumption].
  split; [exact K1|]. split; [rewrite K2; reflexivity|apply U; reflexivity].
Qed.

Lemma playFirst_cases cfg env actions :
  forall n st,
    let r := SmartAnalysis.playFirst cfg env n st actions in
    SmartTriggers.soundLibrary r.1 = SmartTriggers.soundLibrary st /\
    ((SmartAnalysis.played r.2 = [] /\
      SmartTriggers.lastPlayed r.1 = SmartTriggers.lastPlayed st) \/
     exists action score url m,
       In (action, score) actions /\
       SmartAnalysis.played r.2 = [url] /\
       SmartAnalysis.caught r.2 = false /\
       In url (default [] (SmartTriggers.soundLibrary st !! action)) /\
       SmartTriggers.lastPlayed r.1 =
         <[action := (env m).1]> (SmartTriggers.lastPlayed st)).
Proof.
  induction actions as [|[action score] actions IH]; intros n st; cbv zeta.
  - simpl. split; [reflexivity|left; split; reflexivity].
  - cbn [SmartAnalysis.playFirst fst snd].
    pose proof (SmartTriggers_playSound_cases cfg (env n).1 (env n).2 st action) as [K C].
    destruct (SmartTriggers.playSound cfg (env n).1 (env n).2 st action) as [st' res].
    cbn [fst snd] in K, C. destruct res as [|url|].
    + specialize (IH (S n) st'). cbv zeta in IH. destruct IH as [K' IH].
      split; [rewrite K', K; reflexivity|].
      destruct IH as [[P L]|[a [sc [url [m [I [P [Cg [U L]]]]]]]]].
      * left. split; [exact P|rewrite L; exact C].
      * right. exists a, sc, url, m.
        split; [right; exact I|]. split; [exact P|]. split; [exact Cg|].
        split; [rewrite <- K; exact U|rewrite L, C; reflexivity].
    + cbn [fst snd SmartAnalysis.played SmartAnalysis.caught].
      split; [exact K|]. right. exists action, score, url, n.
      destruct C as [L U].
      split; [left; reflexivity|]. split; [reflexivity|]. split; [reflexivity|].
      split; [exact U|exact L].
    + cbn [fst snd SmartAnalysis.played]. split; [exact K|]. left.
      split; [reflexivity|exact C].
Qed.

(** One message starts at most one sound.  Either nothing is played and
    no play time is recorded, or exactly one url is played: a variant of
    the library for an action the analysis reported, and that action
    alone gets a new play time, the clock reading of the call. *)
Theorem onMessageReceived_at_most_one_sound vp cfg env st s :
  let r := SmartAnalysis.onMessageReceived vp cfg env st s in
  SmartTriggers.soundLibrary r.1 = SmartTriggers.soundLibrary st /\
  ((SmartAnalysis.played r.2 = [] /\
    SmartTriggers.lastPlayed r.1 = SmartTriggers.lastPlayed st) \/
   exists action score url m,
     In (action, score) (SmartAnalysis.analyzeTextForActions vp s) /\
     SmartAnalysis.played r.2 = [url] /\
     SmartAnalysis.caught r.2 = false /\
     In url (default [] (SmartTriggers.soundLibrary st !! action)) /\
     SmartTriggers.lastPlayed r.1 =
       <[action := (env m).1]> (SmartTriggers.lastPlayed st)).
Proof.
  cbv zeta. unfold SmartAnalysis.onMessageReceived.
  destruct (negb (SmartTriggers.enabled cfg)).
  - simpl. split; [reflexivity|left; split; reflexivity].
  - apply (playFirst_cases cfg env _ 0 st).
Qed.
